(** * Transmission front end: service layer

    A shallow embedding of the backend service layer
    ([backend/src/services/transmission.js], which also carries the disk
    monitor, and [backend/src/services/rss-manager.js]) together with the
    properties of the removal protocol, the debounced daemon restart, the
    disk-pressure eviction pass, the feed store, the rule matcher, the
    egress guard and the feed poll.

    Conventions of the embedding:
    - a promise that resolves with [a] is [Ok a], one that rejects with an
      [Error] whose message is [m] is [Err m]; [try]/[catch] is a [match];
    - a JavaScript field that may be [undefined]/[null] is an [option];
      truthiness of such a string is [truthy];
    - the answers of the outside world (engine RPC, file system, DNS, the
      clock) are inputs of the functions, the requests sent to it are
      recorded in a log;
    - JavaScript numbers are modelled by [Z] where the code handles
      integers and by [Q] where it compares fractions; the free share of
      the disk is computed in IEEE 754 binary64 ([SpecFloat]);
    - [path.join] is the POSIX one, with its normalisation;
    - an ISO timestamp is the number of milliseconds [Date] reads from it;
    - [RegExp], [parseInt], [parseFloat], [JSON.parse], the URL parser and
      the MD5 digest belong to the runtime and are parameters. *)

From Stdlib Require Import ZArith QArith String Ascii List Bool Lia.
From Stdlib Require Import Sorting.Sorted Sorting.Permutation DecimalString.
From Stdlib Require SpecFloat.
From stdpp Require Import gmap strings list.
Import ListNotations.

(** ** Results of fallible calls *)

Inductive result (A : Type) : Type :=
| Ok (a : A)
| Err (msg : string).
Arguments Ok {A} a.
Arguments Err {A} msg.

Definition is_ok {A} (r : result A) : bool :=
  match r with Ok _ => true | Err _ => false end.

(** ** A few JavaScript idioms *)

Module Js.

(** Truthiness of a value that is a string, [undefined] or [null]. *)
Definition truthy (s : option string) : bool :=
  match s with
  | Some EmptyString => false
  | Some _ => true
  | None => false
  end.

(** [a || b] on such values. *)
Definition or_else (a b : option string) : option string :=
  if truthy a then a else b.

(** [String.prototype.startsWith]. *)
Definition startsWith (s p : string) : bool := String.prefix p s.

(** [String.prototype.endsWith]. *)
Definition endsWith (s p : string) : bool :=
  let n := String.length s in
  let m := String.length p in
  if Nat.leb m n then String.eqb (String.substring (n - m) m s) p else false.

(** [String.prototype.includes]. *)
Fixpoint includes (s p : string) : bool :=
  if String.prefix p s then true
  else match s with
       | EmptyString => false
       | String _ s' => includes s' p
       end.

(** The components of a path between its '/' separators. *)
Fixpoint components (s : string) : list string :=
  match s with
  | EmptyString => [EmptyString]
  | String c s' =>
      if Ascii.eqb c "/" then EmptyString :: components s'
      else match components s' with
           | seg :: rest => String c seg :: rest
           | [] => [String c EmptyString]
           end
  end.

(** One component in [normalizeString] of Node's [path] module; [kept]
    holds the components kept so far, the last one first.  An empty
    component and '.' are dropped; '..' takes the component before it
    away, unless there is none or it is '..' itself, in which case '..'
    is kept when the path is relative. *)
Definition normalize_step (allowAboveRoot : bool) (kept : list string)
    (seg : string) : list string :=
  if String.eqb seg "" || String.eqb seg "." then kept
  else if String.eqb seg ".." then
    match kept with
    | [] => if allowAboveRoot then [seg] else []
    | top :: rest =>
        if String.eqb top ".."
        then (if allowAboveRoot then seg :: kept else kept)
        else rest
    end
  else seg :: kept.

Definition normalizeString (path : string) (allowAboveRoot : bool) : string :=
  String.concat "/"
    (rev (fold_left (normalize_step allowAboveRoot) (components path) [])).

(** [path.posix.normalize]. *)
Definition normalize (path : string) : string :=
  if String.eqb path "" then "."
  else
    let isAbsolute := startsWith path "/" in
    let trailingSeparator := endsWith path "/" in
    let p := normalizeString path (negb isAbsolute) in
    if String.eqb p "" then
      if isAbsolute then "/" else if trailingSeparator then "./" else "."
    else
      let p := if trailingSeparator then (p ++ "/")%string else p in
      if isAbsolute then ("/" ++ p)%string else p.

(** [path.posix.join(...args)]: the non-empty arguments joined by '/',
    then normalised. *)
Definition join (args : list string) : string :=
  match List.filter (fun a => negb (String.eqb a "")) args with
  | [] => "."
  | parts => normalize (String.concat "/" parts)
  end.

End Js.

(** ** The debounced daemon restart ([scheduleTransmissionRestart]) *)

Module Restart.
Local Open Scope Z_scope.

(** The delay given to [setTimeout]. *)
Definition DEBOUNCE_MS : Z := 3000.

(** A timer armed in the event loop: its handle, the time at which it is
    due and the promise its callback resolves. *)
Record timer := Timer { t_handle : nat; t_deadline : Z; t_promise : nat }.

(** The two module variables [restartTimeout] and [restartPromise], and
    what the event loop holds for them. *)
Record state := State {
  restartTimeout : option nat;
  restartPromise : option nat;
  pending : list timer;     (* timers armed and not fired yet *)
  in_flight : list nat;     (* callbacks started, awaiting systemctl and the sleep *)
  restarts : nat;           (* `systemctl restart` commands issued so far *)
  settled : list nat;       (* promises resolved so far *)
  fresh : nat;              (* next handle / promise identity *)
  now : Z                   (* the clock, in milliseconds *)
}.

Definition init : state :=
  State None None [] [] 0 [] 0 0.

(** [scheduleTransmissionRestart]: the promise handed to the caller and
    the new state. *)
Definition scheduleTransmissionRestart (st : state) : state * option nat :=
  match restartTimeout st with
  | Some _ => (st, restartPromise st)
  | None =>
      let p := fresh st in
      let h := S (fresh st) in
      (State (Some h) (Some p)
             (pending st ++ [Timer h (now st + DEBOUNCE_MS) p])
             (in_flight st) (restarts st) (settled st)
             (S (S (fresh st))) (now st),
       Some p)
  end.

(** What can happen to the module between two calls. *)
Inductive event :=
| Call                (* somebody calls scheduleTransmissionRestart *)
| Advance (dt : Z)   (* time passes *)
| Fire                (* the event loop runs a timer that is due *)
| Done.               (* the callback of a fired timer reaches its end *)

Definition due (t : Z) (tm : timer) : bool := t_deadline tm <=? t.

Definition step (e : event) (st : state) : state :=
  match e with
  | Call => fst (scheduleTransmissionRestart st)
  | Advance dt =>
      State (restartTimeout st) (restartPromise st) (pending st)
            (in_flight st) (restarts st) (settled st) (fresh st)
            (now st + Z.max 0 dt)
  | Fire =>
      match pending st with
      | tm :: rest =>
          if due (now st) tm then
            (* the callback starts: systemctl restart is issued; whether
               it succeeds or throws, the callback goes on to its end *)
            State (restartTimeout st) (restartPromise st) rest
                  (in_flight st ++ [t_promise tm]) (S (restarts st))
                  (settled st) (fresh st) (now st)
          else st
      | [] => st
      end
  | Done =>
      match in_flight st with
      | p :: rest =>
          State None None (pending st) rest (restarts st)
                (settled st ++ [p]) (fresh st) (now st)
      | [] => st
      end
  end.

Fixpoint run (evs : list event) (st : state) : state :=
  match evs with
  | [] => st
  | e :: evs' => run evs' (step e st)
  end.

(** Restarts that are scheduled or running and not finished. *)
Definition outstanding (st : state) : nat :=
  (length (pending st) + length (in_flight st))%nat.

(** The shape every reachable state has. *)
Inductive shape (st : state) : Prop :=
| Idle :
    restartTimeout st = None -> restartPromise st = None ->
    pending st = [] -> in_flight st = [] -> shape st
| Armed h p d :
    restartTimeout st = Some h -> restartPromise st = Some p ->
    pending st = [Timer h d p] -> in_flight st = [] -> shape st
| Running h p :
    restartTimeout st = Some h -> restartPromise st = Some p ->
    pending st = [] -> in_flight st = [p] -> shape st.

End Restart.

(** ** The engine client ([TransmissionService]) *)

Module Transmission.
Local Open Scope Q_scope.

(** The directory of the daemon's resume and torrent files. *)
Definition TRANSMISSION_CONFIG_DIR : string :=
  "/var/lib/transmission-daemon/.config/transmission-daemon".

(** A torrent as the engine reports it. *)
Record torrent := Torrent {
  id : Z;
  name : option string;
  hashString : option string;
  downloadDir : option string;
  percentDone : option Q;
  totalSize : Z
}.

(** The two settings of the engine session that the client reads. *)
Record session := Session {
  download_dir : option string;
  incomplete_dir : option string;
  incomplete_dir_enabled : bool
}.

(** Requests sent to the engine, the file system and the restart module. *)
Inductive effect :=
| RpcGet (i : Z)
| RpcRemove (i : Z) (deleteFiles : bool)
| RpcStop (i : Z)
| RpcSession
| Unlink (path : string)
| RmRf (path : string)
| ScheduleRestart
| ResetClient.

(** The answers of the outside world during one [removeTorrent], in the
    order the function asks for them. *)
Record answers := Answers {
  a_details_before : result torrent;   (* getTorrentDetails, step 1 *)
  a_remove : result unit;              (* client.remove *)
  a_details_after : result torrent;    (* getTorrentDetails, verification *)
  a_stop : result unit;                (* stopTorrent *)
  a_unlink_resume : result unit;
  a_unlink_torrent : result unit;
  a_rm_download : result unit;
  a_session : result session;          (* getServerStats *)
  a_rm_incomplete : result unit
}.

(** The service object and what surrounds it. *)
Record world := World {
  client : bool;                 (* is [this.client] set? *)
  restart : Restart.state;
  log : list effect
}.

Definition emit (e : effect) (w : world) : world :=
  World (client w) (restart w) (log w ++ [e]).

(** An RPC goes through [getClient], which creates the client lazily. *)
Definition rpc (e : effect) (w : world) : world :=
  World true (restart w) (log w ++ [e]).

Record removal := Removal { success : bool }.

(** [torrent.percentDone || 0]. *)
Definition percent_or_0 (p : option Q) : Q :=
  match p with Some q => q | None => 0 end.

(** A value put into a template string, used as a property key or given
    to a function that expects a string. *)
Definition str (s : option string) : string :=
  match s with Some x => x | None => "undefined" end.

(** Step 3 of [removeTorrent], the workaround. *)
Definition workaround (a : answers) (i : Z) (deleteFiles : bool)
    (torrentHash downloadDir torrentName : option string) (pd : Q)
    (w : world) : world :=
  let w := rpc (RpcStop i) w in
  let resumeFile :=
    Js.join [TRANSMISSION_CONFIG_DIR; "resume"; (str torrentHash ++ ".resume")%string] in
  let torrentFile :=
    Js.join [TRANSMISSION_CONFIG_DIR; "torrents"; (str torrentHash ++ ".torrent")%string] in
  let w := emit (Unlink resumeFile) w in
  let w := emit (Unlink torrentFile) w in
  let w :=
    if deleteFiles && Js.truthy downloadDir && Js.truthy torrentName then
      let w := emit (RmRf (Js.join [str downloadDir; str torrentName])) w in
      let w := rpc RpcSession w in
      match a_session a with
      | Ok s =>
          if incomplete_dir_enabled s && Js.truthy (incomplete_dir s)
             && negb (Qle_bool 1 pd)
          then emit (RmRf (Js.join [str (incomplete_dir s); str torrentName])) w
          else w
      | Err _ => w
      end
    else w in
  let w := emit ScheduleRestart w in
  let w := World (client w) (fst (Restart.scheduleTransmissionRestart (restart w)))
                 (log w) in
  (* this.client = null *)
  World false (restart w) (log w ++ [ResetClient]).

(** [removeTorrent(id, deleteFiles)]. *)
Definition removeTorrent (a : answers) (i : Z) (deleteFiles : bool)
    (w : world) : result removal * world :=
  (* Step 1: details before removal *)
  let w := rpc (RpcGet i) w in
  let '(torrentHash, downloadDir, torrentName, pd) :=
    match a_details_before a with
    | Ok t => (hashString t, Transmission.downloadDir t, name t,
               percent_or_0 (percentDone t))
    | Err _ => (None, None, None, 0)
    end in
  (* Step 2: normal RPC removal, then verification *)
  let w := rpc (RpcRemove i deleteFiles) w in
  let '(normalRemovalSucceeded, w) :=
    match a_remove a with
    | Ok _ =>
        let w := rpc (RpcGet i) w in
        match a_details_after a with
        | Ok _ => (false, w)      (* still there *)
        | Err _ => (true, w)      (* not found: removed *)
        end
    | Err _ => (false, w)
    end in
  (* Step 3 *)
  let w :=
    if negb normalRemovalSucceeded && Js.truthy torrentHash
    then workaround a i deleteFiles torrentHash downloadDir torrentName pd w
    else w in
  (Ok (Removal true), w).

(** [getTorrents], [getServerStats]: the promise settles with the
    engine's answer. *)
Definition getTorrents (ans : result (list torrent)) : result (list torrent) := ans.
Definition getServerStats (ans : result session) : result session := ans.

End Transmission.

(** ** The ownership ledger ([torrent-metadata.js]) *)

Module TorrentMetadata.

(** One ownership record.  [added_at] is the record's ISO timestamp as
    [Date] reads it, in milliseconds; [None] when the field is absent. *)
Record meta := Meta {
  owner_id : Z;
  source : string;
  feed_ref : option (Z * string);      (* feed_id and feed_url *)
  added_at : option Z;
  block_auto_remove : bool
}.

(** The ledger is an object keyed by the engine's hash string. *)
Abbreviation ledger := (gmap string meta).

(** Modelled from the spec: [deleteTorrentMetadata] is not among the
    sources; the ownership record of a torrent is "deleted when the
    torrent is removed from the engine". *)
Definition deleteTorrentMetadata (h : string) (m : ledger) : ledger :=
  delete h m.

(** Modelled from the spec: [setTorrentMetadata] is not among the
    sources; on a successful enqueue an ownership record is created with
    the owner, the source tag and the originating feed reference, and
    the acquisition timestamp. *)
Definition setTorrentMetadata (h : string) (owner : Z) (src : string)
    (extra : option (Z * string)) (stamp : Z) (m : ledger) : ledger :=
  <[h := Meta owner src extra (Some stamp) false]> m.

End TorrentMetadata.

(** ** The disk monitor ([DiskMonitor]) *)

Module DiskMonitor.
Import Transmission TorrentMetadata.
Local Open Scope Q_scope.

(** A JavaScript number as far as the monitor compares one: the value
    of a finite double as a rational, an infinity or NaN. *)
Inductive jsnum := Num (q : Q) | PosInf | NegInf | NaN.

(** [x >= y]. *)
Definition js_ge (x y : jsnum) : bool :=
  match x, y with
  | NaN, _ | _, NaN => false
  | PosInf, _ => true
  | _, NegInf => true
  | NegInf, _ => false
  | Num _, PosInf => false
  | Num a, Num b => Qle_bool b a
  end.

(** JavaScript computes in IEEE 754 binary64, rounding to nearest, ties
    to even: the Standard Library's [SpecFloat] at precision 53 with
    exponents below 1024. *)
Abbreviation double := SpecFloat.spec_float.

(** The double nearest to an integer: the number that Node hands over
    for a count of [statfs], and a numeric literal such as [100]. *)
Definition double_of_Z (z : Z) : double :=
  SpecFloat.binary_normalize 53 1024 z 0 false.

(** [a * b], [a - b] and [a / b]. *)
Definition js_mul (a b : double) : double := SpecFloat.SFmul 53 1024 a b.
Definition js_sub (a b : double) : double := SpecFloat.SFsub 53 1024 a b.
Definition js_div (a b : double) : double := SpecFloat.SFdiv 53 1024 a b.

(** [x * 100]. *)
Definition js_times100 (x : double) : double := js_mul x (double_of_Z 100).

(** The value of a double. *)
Definition value_of (x : double) : jsnum :=
  match x with
  | SpecFloat.S754_zero _ => Num 0
  | SpecFloat.S754_infinity false => PosInf
  | SpecFloat.S754_infinity true => NegInf
  | SpecFloat.S754_nan => NaN
  | SpecFloat.S754_finite s m e =>
      Num (Qred (inject_Z (if s then Z.neg m else Z.pos m) * Qpower 2 e))
  end.

(** The value of a double that is a whole number.  The counts of
    [statfs] are unsigned 64-bit integers, so that their products and
    differences are finite and whole; 0 stands for the other doubles. *)
Definition int_of (x : double) : Z :=
  match x with
  | SpecFloat.S754_finite s m e => Z.shiftl (if s then Z.neg m else Z.pos m) e
  | _ => 0%Z
  end.

(** What [statfs] reports. *)
Record statfs_stats := Statfs { blocks : Z; bsize : Z; bavail : Z }.

Record usage := Usage {
  total : Z;
  used : Z;
  free : Z;
  freePercent : jsnum
}.

(** [getDiskUsage(path)]; [None] stands for a [statfs] that throws. *)
Definition getDiskUsage (st : option statfs_stats) : usage :=
  match st with
  | Some s =>
      let totalBytes := js_mul (double_of_Z (blocks s)) (double_of_Z (bsize s)) in
      let freeBytes := js_mul (double_of_Z (bavail s)) (double_of_Z (bsize s)) in
      let usedBytes := js_sub totalBytes freeBytes in
      let freePercent := js_times100 (js_div freeBytes totalBytes) in
      Usage (int_of totalBytes) (int_of usedBytes) (int_of freeBytes)
            (value_of freePercent)
  | None =>
      Usage 1000000000000 900000000000 100000000000 (Num 10)
  end.

(** The constructor: [parseFloat(process.env.DISK_THRESHOLD || '10')];
    [parseFloat('10')] is 10. *)
Definition threshold_of (parseFloat : string -> jsnum)
    (DISK_THRESHOLD : option string) : jsnum :=
  if Js.truthy DISK_THRESHOLD then
    match DISK_THRESHOLD with Some s => parseFloat s | None => Num 10 end
  else Num 10.

(** A candidate: the torrent spread into a new object with [added_at]. *)
Record candidate := Candidate { c_torrent : torrent; c_added_at : Z }.

(** The filter of [getAutoRemovalCandidates]. *)
Definition completed (t : torrent) : bool :=
  match percentDone t with
  | Some q => Qeq_bool q 1
  | None => false
  end.

Definition not_blocked (metadata : ledger) (t : torrent) : bool :=
  match metadata !! str (hashString t) with
  | None => true
  | Some m => negb (block_auto_remove m)
  end.

Definition eligible (metadata : ledger) (t : torrent) : bool :=
  completed t && not_blocked metadata t.

(** The [map]: [added_at] from the ledger, or the clock read at that
    moment; [k] counts the reads of the clock made so far. *)
Fixpoint stamp (metadata : ledger) (clock : nat -> Z) (k : nat)
    (ts : list torrent) : list candidate :=
  match ts with
  | [] => []
  | t :: rest =>
      match metadata !! str (hashString t) with
      | Some (Meta _ _ _ (Some a) _) =>
          Candidate t a :: stamp metadata clock k rest
      | _ => Candidate t (clock k) :: stamp metadata clock (S k) rest
      end
  end.

(** [Array.prototype.sort] with the comparator [a.added_at - b.added_at]:
    the stable ascending order. *)
Fixpoint insert_by_date (c : candidate) (l : list candidate) : list candidate :=
  match l with
  | [] => [c]
  | x :: rest =>
      if (c_added_at c <=? c_added_at x)%Z then c :: x :: rest
      else x :: insert_by_date c rest
  end.

Definition sort_by_date (l : list candidate) : list candidate :=
  fold_right insert_by_date [] l.

Definition getAutoRemovalCandidates (torrents : result (list torrent))
    (metadata : ledger) (clock : nat -> Z) : result (list candidate) :=
  match getTorrents torrents with
  | Err m => Err m
  | Ok ts =>
      Ok (sort_by_date
            (stamp metadata clock 0 (List.filter (eligible metadata) ts)))
  end.

Record removed_entry := Removed { r_id : Z; r_name : option string; r_size : Z }.

Definition entry_of (c : candidate) : removed_entry :=
  Removed (id (c_torrent c)) (name (c_torrent c)) (totalSize (c_torrent c)).

(** The [message] of the report. *)
Inductive message :=
| AboveThreshold        (* 'Disk space above threshold' *)
| NoEligible            (* 'No eligible torrents to remove' *)
| RemovedCount (n : nat). (* `Removed ${n} torrent(s)` *)

Record report := Report {
  removed : nat;
  torrents : option (list removed_entry);
  message_of : message
}.

(** The outside world during one pass. *)
Record env := Env {
  e_session : result session;          (* getServerStats *)
  e_statfs : nat -> option statfs_stats; (* the k-th call of statfs *)
  e_torrents : result (list torrent);  (* getTorrents *)
  e_clock : nat -> Z;                  (* the k-th read of the clock *)
  e_answers : nat -> answers           (* during the removal of candidate k *)
}.

(** What the pass changes. *)
Record pass_state := PassState {
  p_world : world;
  p_metadata : ledger;
  p_removed : list removed_entry;
  p_measured : nat                     (* calls of getDiskUsage so far *)
}.

(** The [for] loop over the candidates; [j] is the position of the
    head of [cands] in the sorted list. *)
Fixpoint remove_loop (e : env) (th : jsnum) (j : nat)
    (cands : list candidate) (s : pass_state) : pass_state :=
  match cands with
  | [] => s
  | c :: rest =>
      let t := c_torrent c in
      match removeTorrent (e_answers e j) (id t) true (p_world s) with
      | (Ok _, w) =>
          let md := deleteTorrentMetadata (str (hashString t)) (p_metadata s) in
          let rem := p_removed s ++ [entry_of c] in
          let newDiskUsage := getDiskUsage (e_statfs e (p_measured s)) in
          let s' := PassState w md rem (S (p_measured s)) in
          if js_ge (freePercent newDiskUsage) th then s'   (* break *)
          else remove_loop e th (S j) rest s'
      | (Err _, w) =>
          (* catch: logged, next candidate *)
          remove_loop e th (S j) rest
            (PassState w (p_metadata s) (p_removed s) (p_measured s))
      end
  end.

(** [autoRemoveOldestTorrents]; [w] and [metadata] are the service
    and the ledger when the pass starts. *)
Definition autoRemoveOldestTorrents (e : env) (th : jsnum)
    (w : world) (metadata : ledger) : result report * pass_state :=
  let s0 := PassState w metadata [] 0 in
  match getServerStats (e_session e) with
  | Err m => (Err m, s0)
  | Ok _ =>
      let diskUsage := getDiskUsage (e_statfs e 0) in
      let s := PassState w metadata [] 1 in
      if js_ge (freePercent diskUsage) th then
        (Ok (Report 0 None AboveThreshold), s)
      else
        match getAutoRemovalCandidates (e_torrents e) metadata (e_clock e) with
        | Err m => (Err m, s)
        | Ok [] => (Ok (Report 0 None NoEligible), s)
        | Ok cands =>
            let s' := remove_loop e th 0 cands s in
            (Ok (Report (length (p_removed s')) (Some (p_removed s'))
                        (RemovedCount (length (p_removed s')))),
             s')
        end
  end.

End DiskMonitor.

(** ** The feed manager ([RSSManager]) *)

Module Rss.
Import Transmission TorrentMetadata.

(** *** The egress guard *)

Definition lower (c : ascii) : ascii :=
  let n := nat_of_ascii c in
  if Nat.leb 65 n && Nat.leb n 90 then ascii_of_nat (n + 32) else c.

Fixpoint lower_string (s : string) : string :=
  match s with
  | EmptyString => EmptyString
  | String c s' => String (lower c) (lower_string s')
  end.

Definition in_range (lo hi c : ascii) : bool :=
  Nat.leb (nat_of_ascii lo) (nat_of_ascii c)
  && Nat.leb (nat_of_ascii c) (nat_of_ascii hi).

(** [/^p/]: the address starts with the literal [p]. *)
Definition starts (p : string) (ip : string) : bool := String.prefix p ip.

(** [/^p/i] for a lower-case literal [p]. *)
Definition starts_ci (p : string) (ip : string) : bool :=
  String.prefix p (lower_string ip).

(** [/^172\.(1[6-9]|2[0-9]|3[0-1])\./]. *)
Definition class_b (ip : string) : bool :=
  match ip with
  | String "1" (String "7" (String "2" (String "."
      (String a (String b (String "." _)))))) =>
      (Ascii.eqb a "1" && in_range "6" "9" b)
      || (Ascii.eqb a "2" && in_range "0" "9" b)
      || (Ascii.eqb a "3" && in_range "0" "1" b)
  | _ => false
  end.

Definition PRIVATE_IP_RANGES : list (string -> bool) :=
  [ starts "127.";            (* Loopback *)
    starts "10.";             (* Private Class A *)
    class_b;                  (* Private Class B *)
    starts "192.168.";        (* Private Class C *)
    starts "169.254.";        (* Link-local *)
    starts "0.";              (* Current network *)
    starts "224.";            (* Multicast *)
    starts "240.";            (* Reserved *)
    String.eqb "::1";         (* IPv6 loopback *)
    starts_ci "fe80:";        (* IPv6 link-local *)
    starts_ci "fc00:";        (* IPv6 unique local *)
    starts_ci "fd00:"         (* IPv6 unique local *)
  ].

Definition isPrivateIP (ip : string) : bool :=
  existsb (fun regex => regex ip) PRIVATE_IP_RANGES.

(** *** Feed items *)

Record enclosure := Enclosure {
  e_type : option string;
  e_url : option string;
  e_length : option string
}.

Record item := Item {
  title : option string;
  link : option string;
  guid : option string;
  pubDate : option string;
  description : option string;
  enclosures : option (list enclosure)
}.

(** *** [parseFeed] *)

Record parsed_url := ParsedUrl { protocol : string; hostname : string }.

(** The network as [parseFeed] sees it: the URL parser of the runtime
    ([None]: it throws), the resolver, and the items the feed parser
    reads from the response to a fetch (an [Err] for a network error, a
    status that is not ok or a parser error). *)
Record net := Net {
  n_url : string -> option parsed_url;
  n_dns : string -> result string;
  n_fetch : string -> result (list item)
}.

Inductive request :=
| DnsLookup (host : string)
| Fetch (url : string).

Definition parseFeed (n : net) (url : string) : result (list item) * list request :=
  match n_url n url with
  | None => (Err "Invalid URL", [])
  | Some parsedUrl =>
      if negb (existsb (String.eqb (protocol parsedUrl)) ["http:"; "https:"])
      then (Err "Only HTTP and HTTPS URLs are allowed", [])
      else
        let reqs := [DnsLookup (hostname parsedUrl)] in
        match n_dns n (hostname parsedUrl) with
        | Ok address =>
            if isPrivateIP address
            then (Err "Access to private/internal networks is not allowed", reqs)
            else
              let reqs := reqs ++ [Fetch url] in
              match n_fetch n url with
              | Err m => (Err m, reqs)
              | Ok raw =>
                  (Ok (map (fun i => Item (title i) (link i)
                                          (Js.or_else (guid i) (link i))
                                          (pubDate i) (description i)
                                          (enclosures i)) raw),
                   reqs)
              end
        | Err m =>
            if Js.includes m "private" then (Err m, reqs)
            else (Err ("DNS lookup failed: " ++ m), reqs)
        end
  end.

(** *** The store *)

Record rules := Rules {
  regex : string;
  minSize : Z;
  maxSize : Z;
  category : string
}.

Record feed := Feed {
  f_id : Z;
  url : string;
  f_rules : rules;
  f_added_at : Z;
  last_poll : option Z;
  matched_count : Z
}.

Record seen := Seen { feed_id : Z; seen_at : Z }.

Record data := Data {
  feeds : list feed;
  seenItems : gmap string seen;
  nextId : Z
}.

(** [{ feeds: [], seenItems: {}, nextId: 1 }]. *)
Definition empty_data : data := Data [] ∅ 1.

Section Load.
(** Any JavaScript value can come out of [JSON.parse]; [of_data] is
    the object that a store record denotes. *)
Variable value : Type.
Variable of_data : data -> value.
Variable JSON_parse : string -> result value.

(** [load()]; [file] is what [readFileSync] gives. *)
Definition load (file : result string) : value :=
  match file with
  | Err _ => of_data empty_data
  | Ok text =>
      match JSON_parse text with
      | Ok v => v
      | Err _ => of_data empty_data
      end
  end.
End Load.

(** [feeds.findIndex(f => f.id === id)]. *)
Fixpoint findIndex (i : Z) (fs : list feed) : option nat :=
  match fs with
  | [] => None
  | f :: rest =>
      if (f_id f =? i)%Z then Some O
      else option_map S (findIndex i rest)
  end.

(** [deleteFeed(id)] on the document [d] that [load] returned; the
    second component is the document on disk afterwards. *)
Definition deleteFeed (i : Z) (d : data) : result bool * data :=
  match findIndex i (feeds d) with
  | None => (Err "Feed not found", d)
  | Some feedIndex =>
      (Ok true, Data (delete feedIndex (feeds d)) (seenItems d) (nextId d))
  end.

(** *** The matcher *)

Inductive match_result :=
| Matches (torrentUrl : string)
| NoMatch (reason : string) (error : option string).

Definition is_torrent_enclosure (e : enclosure) : bool :=
  match e_type e with
  | Some t => String.eqb t "application/x-bittorrent"
  | None => false
  end
  || match e_url e with
     | Some u => Js.endsWith u ".torrent"
     | None => false
     end.

(** The download endpoints of method 3. *)
Definition has_download_marker (l : string) : bool :=
  Js.includes l "/download/"
  || Js.includes l "action=download"
  || Js.includes l "rss_dl.php"
  || Js.includes l "/dl/"
  || Js.includes l "download.php".

(** The three methods that look for a torrent URL; the second component
    is [torrentSize]. *)
Definition extract_url (it : item) : option string * option string :=
  let torrentEnclosure :=
    match enclosures it with
    | Some es => List.find is_torrent_enclosure es
    | None => None
    end in
  let '(torrentUrl, torrentSize) :=
    match torrentEnclosure with
    | Some e => (e_url e, e_length e)
    | None => (None, None)
    end in
  let torrentUrl :=
    if negb (Js.truthy torrentUrl) && Js.truthy (link it)
       && Js.endsWith (str (link it)) ".torrent"
    then link it else torrentUrl in
  let torrentUrl :=
    if negb (Js.truthy torrentUrl) && Js.truthy (link it)
       && has_download_marker (str (link it))
    then link it else torrentUrl in
  (torrentUrl, torrentSize).

Section Matcher.
(** [new RegExp(pattern, flags)]: an [Err] when the pattern does not
    compile, otherwise its [test]. *)
Variable RegExp : string -> string -> result (string -> bool).
(** [parseInt]; [None] is NaN. *)
Variable parseInt : string -> option Z.
(** The hexadecimal MD5 digest. *)
Variable md5 : string -> string.

Definition matchesRules (it : item) (r : rules) : match_result :=
  match RegExp (regex r) "i" with
  | Err m => NoMatch "error" (Some m)
  | Ok test =>
      if negb (test (str (title it))) then NoMatch "regex" None
      else
        let '(torrentUrl, torrentSize) := extract_url it in
        if negb (Js.truthy torrentUrl) then NoMatch "no-torrent-link" None
        else
          let out_of_range :=
            if Js.truthy torrentSize then
              match parseInt (str torrentSize) with
              | Some size => (size <? minSize r)%Z || (maxSize r <? size)%Z
              | None => false
              end
            else false in
          if out_of_range then NoMatch "size" None
          else Matches (str torrentUrl)
  end.

(** [getItemHash]: [update] throws on a value that is not a string. *)
Definition getItemHash (it : item) : result string :=
  match Js.or_else (Js.or_else (guid it) (link it)) (title it) with
  | Some hashContent => Ok (md5 hashContent)
  | None => Err "The data argument must be of type string"
  end.

(** *** [pollFeed] *)

Inductive poll_result :=
| Added (title : option string) (torrentId : Z)
| Failed (title : option string) (error : string).

(** The counters of the poll summary. *)
Record summary := Summary {
  skippedAlreadySeen : nat;
  skippedNoMatch : nat;
  skippedAlreadyExists : nat;
  addedNew : nat;
  failedToAdd : nat
}.

(** What a poll does that matters outside of it. *)
Inductive event :=
| MarkSeen (hash : string)             (* data.seenItems[hash] = ..., in memory *)
| AddUrl (hash : string) (u : string)  (* addTorrentUrl(u) for the item with that hash *)
| Save (d : data).                     (* writeFileSync of the whole document *)

Record poll_env := PollEnv {
  pe_net : net;
  pe_torrents : result (list torrent);     (* getTorrents *)
  pe_add : nat -> string -> result torrent; (* the k-th addTorrentUrl *)
  pe_clock : nat -> Z                      (* the k-th read of the clock *)
}.

Record loop_state := LoopState {
  l_seen : gmap string seen;     (* data.seenItems *)
  l_matched : Z;                 (* feed.matched_count *)
  l_results : list poll_result;
  l_summary : summary;
  l_ledger : ledger;
  l_adds : nat;                  (* calls of addTorrentUrl so far *)
  l_ticks : nat;                 (* reads of the clock so far *)
  l_trace : list event
}.

Definition option_string_eqb (a b : option string) : bool :=
  match a, b with
  | Some x, Some y => String.eqb x y
  | None, None => true
  | _, _ => false
  end.

(** The body of the [for] loop; [Some m] in the second component is an
    exception that leaves the loop. *)
Fixpoint poll_items (e : poll_env) (feedId : Z) (f : feed)
    (existingTorrents : list torrent) (items : list item)
    (st : loop_state) : loop_state * option string :=
  match items with
  | [] => (st, None)
  | it :: rest =>
      match getItemHash it with
      | Err m => (st, Some m)
      | Ok hash =>
          let c := l_summary st in
          match l_seen st !! hash with
          | Some _ =>
              poll_items e feedId f existingTorrents rest
                (LoopState (l_seen st) (l_matched st) (l_results st)
                   (Summary (S (skippedAlreadySeen c)) (skippedNoMatch c)
                            (skippedAlreadyExists c) (addedNew c) (failedToAdd c))
                   (l_ledger st) (l_adds st) (l_ticks st) (l_trace st))
          | None =>
              let seen' := <[hash := Seen feedId (pe_clock e (l_ticks st))]> (l_seen st) in
              let ticks := S (l_ticks st) in
              let trace := l_trace st ++ [MarkSeen hash] in
              match matchesRules it (f_rules f) with
              | NoMatch _ _ =>
                  poll_items e feedId f existingTorrents rest
                    (LoopState seen' (l_matched st) (l_results st)
                       (Summary (skippedAlreadySeen c) (S (skippedNoMatch c))
                                (skippedAlreadyExists c) (addedNew c) (failedToAdd c))
                       (l_ledger st) (l_adds st) ticks trace)
              | Matches torrentUrl =>
                  if existsb (fun t => option_string_eqb (name t) (title it))
                             existingTorrents
                  then
                    poll_items e feedId f existingTorrents rest
                      (LoopState seen' (l_matched st) (l_results st)
                         (Summary (skippedAlreadySeen c) (skippedNoMatch c)
                                  (S (skippedAlreadyExists c)) (addedNew c)
                                  (failedToAdd c))
                         (l_ledger st) (l_adds st) ticks trace)
                  else
                    let trace := trace ++ [AddUrl hash torrentUrl] in
                    match pe_add e (l_adds st) torrentUrl with
                    | Ok t =>
                        poll_items e feedId f existingTorrents rest
                          (LoopState seen' (l_matched st + 1)%Z
                             (l_results st ++ [Added (title it) (id t)])
                             (Summary (skippedAlreadySeen c) (skippedNoMatch c)
                                      (skippedAlreadyExists c) (S (addedNew c))
                                      (failedToAdd c))
                             (setTorrentMetadata (str (hashString t)) 0 "rss-auto"
                                (Some (feedId, url f)) (pe_clock e ticks)
                                (l_ledger st))
                             (S (l_adds st)) (S ticks) trace)
                    | Err m =>
                        poll_items e feedId f existingTorrents rest
                          (LoopState seen' (l_matched st)
                             (l_results st ++ [Failed (title it) m])
                             (Summary (skippedAlreadySeen c) (skippedNoMatch c)
                                      (skippedAlreadyExists c) (addedNew c)
                                      (S (failedToAdd c)))
                             (l_ledger st) (S (l_adds st)) ticks trace)
                    end
              end
          end
      end
  end.

Record poll_outcome := PollOutcome {
  o_result : result (list poll_result);
  o_disk : data;                 (* the document on disk afterwards *)
  o_summary : summary;
  o_ledger : ledger;
  o_requests : list request;     (* what parseFeed sent *)
  o_trace : list event
}.

Definition no_summary : summary := Summary 0 0 0 0 0.

(** [pollFeed(feedId)] on the document [d] that [load] returned. *)
Definition pollFeed (e : poll_env) (feedId : Z) (d : data)
    (metadata : ledger) : poll_outcome :=
  match findIndex feedId (feeds d) with
  | None => PollOutcome (Err "Feed not found") d no_summary metadata [] []
  | Some ix =>
      match feeds d !! ix with
      | None => PollOutcome (Err "Feed not found") d no_summary metadata [] []
      | Some f =>
          match parseFeed (pe_net e) (url f) with
          | (Err m, reqs) => PollOutcome (Err m) d no_summary metadata reqs []
          | (Ok items, reqs) =>
              match getTorrents (pe_torrents e) with
              | Err m => PollOutcome (Err m) d no_summary metadata reqs []
              | Ok existingTorrents =>
                  let st0 := LoopState (seenItems d) (matched_count f) []
                                       no_summary metadata 0 0 [] in
                  match poll_items e feedId f existingTorrents items st0 with
                  | (st, Some m) =>
                      PollOutcome (Err m) d (l_summary st) (l_ledger st)
                                  reqs (l_trace st)
                  | (st, None) =>
                      (* feed is the object inside data.feeds *)
                      let f' := Feed (f_id f) (url f) (f_rules f) (f_added_at f)
                                     (Some (pe_clock e (l_ticks st)))
                                     (l_matched st) in
                      let d' := Data (<[ix := f']> (feeds d)) (l_seen st)
                                     (nextId d) in
                      PollOutcome (Ok (l_results st)) d' (l_summary st)
                                  (l_ledger st) reqs (l_trace st ++ [Save d'])
                  end
              end
          end
      end
  end.

End Matcher.

End Rss.

(** ** The feed manager: the store operations *)

Module RssStore.
Import Rss.

(** [Number.MAX_SAFE_INTEGER]. *)
Definition MAX_SAFE_INTEGER : Z := 9007199254740991.

(** The [rules] argument of [addFeed] and the [updates.rules] of
    [updateFeed]: a field that was not given is [None]. *)
Record rules_input := RulesInput {
  i_regex : option string;
  i_minSize : option Z;
  i_maxSize : option Z;
  i_category : option string
}.

(** [x || d] on a number that may be missing: 0 is falsy. *)
Definition num_or (x : option Z) (d : Z) : Z :=
  match x with
  | Some 0%Z => d
  | Some n => n
  | None => d
  end.

(** [x || d] on a string that may be missing: the empty string is falsy. *)
Definition str_or (x : option string) (d : string) : string :=
  if Js.truthy x then Transmission.str x else d.

(** [addFeed(url, rules)] on the document [d] that [load] returned; [now]
    is the clock.  The result is the new feed and the document saved. *)
Definition addFeed (u : string) (r : rules_input) (now : Z) (d : data) : feed * data :=
  let f := Feed (nextId d) u
                (Rules (str_or (i_regex r) ".*")
                       (num_or (i_minSize r) 0)
                       (num_or (i_maxSize r) MAX_SAFE_INTEGER)
                       (str_or (i_category r) ""))
                now None 0 in
  (f, Data (feeds d ++ [f]) (seenItems d) (nextId d + 1)%Z).

(** [getFeeds()]. *)
Definition getFeeds (d : data) : list feed := feeds d.

(** [getFeed(id)]: [feeds.find(f => f.id === id)]. *)
Definition getFeed (i : Z) (d : data) : option feed :=
  List.find (fun f => (f_id f =? i)%Z) (feeds d).

(** The [updates] argument of [updateFeed]. *)
Record updates := Updates {
  up_url : option string;
  up_rules : option rules_input
}.

(** [x !== undefined ? x : old]. *)
Definition defined_or {A} (x : option A) (old : A) : A :=
  match x with Some v => v | None => old end.

(** [updateFeed(id, updates)]. *)
Definition updateFeed (i : Z) (u : updates) (d : data) : result feed * data :=
  match findIndex i (feeds d) with
  | None => (Err "Feed not found", d)
  | Some feedIndex =>
      match feeds d !! feedIndex with
      | None => (Err "Feed not found", d)
      | Some f =>
          let url' := if Js.truthy (up_url u) then Transmission.str (up_url u)
                      else url f in
          let rules' :=
            match up_rules u with
            | Some r =>
                Rules (defined_or (i_regex r) (regex (f_rules f)))
                      (defined_or (i_minSize r) (minSize (f_rules f)))
                      (defined_or (i_maxSize r) (maxSize (f_rules f)))
                      (defined_or (i_category r) (category (f_rules f)))
            | None => f_rules f
            end in
          let f' := Feed (f_id f) url' rules' (f_added_at f) (last_poll f)
                         (matched_count f) in
          (Ok f', Data (<[feedIndex := f']> (feeds d)) (seenItems d) (nextId d))
      end
  end.

(** [wasItemSeen(hash)]. *)
Definition wasItemSeen (hash : string) (d : data) : bool :=
  match seenItems d !! hash with Some _ => true | None => false end.

(** [markItemSeen(hash, feedId)]; the result is the document saved. *)
Definition markItemSeen (hash : string) (feedId : Z) (now : Z) (d : data) : data :=
  Data (feeds d) (<[hash := Seen feedId now]> (seenItems d)) (nextId d).

Section PollAll.
Variable RegExp : string -> string -> result (string -> bool).
Variable parseInt : string -> option Z.
Variable md5 : string -> string.

(** The entry of one feed in the result of [pollAllFeeds]. *)
Inductive feed_report :=
| Polled (results : list poll_result)
| PollError (error : string).

Record batch := Batch {
  b_results : list (Z * feed_report);  (* results[feed.id], in the order written *)
  b_disk : data;
  b_ledger : TorrentMetadata.ledger;
  b_trace : list event
}.

(** The [for] loop of [pollAllFeeds]; [k] is the position of the head of
    [fs] in the list that [getFeeds] returned, [envs k] the outside world
    during the poll of that feed. *)
Fixpoint poll_each (envs : nat -> poll_env) (k : nat) (fs : list feed)
    (d : data) (metadata : TorrentMetadata.ledger) : batch :=
  match fs with
  | [] => Batch [] d metadata []
  | f :: rest =>
      let out := pollFeed RegExp parseInt md5 (envs k) (f_id f) d metadata in
      let entry :=
        match o_result out with
        | Ok rs => Polled rs
        | Err m => PollError m
        end in
      let b := poll_each envs (S k) rest (o_disk out) (o_ledger out) in
      Batch ((f_id f, entry) :: b_results b) (b_disk b) (b_ledger b)
            (o_trace out ++ b_trace b)
  end.

(** [pollAllFeeds()]. *)
Definition pollAllFeeds (envs : nat -> poll_env) (d : data)
    (metadata : TorrentMetadata.ledger) : batch :=
  poll_each envs 0 (getFeeds d) d metadata.

End PollAll.

End RssStore.

(** ** The session guards ([middleware/auth.js]) *)

Module Auth.

(** What the guards read of [req.session]. *)
Record session_data := SessionData {
  userId : option Z;
  isAdmin : bool
}.

(** What a guard does: hand over to the next handler, or answer. *)
Inductive verdict :=
| Next
| Reply (status : Z) (error : string).

(** Truthiness of an identifier: missing and 0 are falsy. *)
Definition id_truthy (x : option Z) : bool :=
  match x with
  | Some 0%Z => false
  | Some _ => true
  | None => false
  end.

(** [!req.session || !req.session.userId]. *)
Definition anonymous (s : option session_data) : bool :=
  match s with
  | None => true
  | Some sd => negb (id_truthy (userId sd))
  end.

Definition authenticateSession (s : option session_data) : verdict :=
  if anonymous s then Reply 401 "Not authenticated" else Next.

Definition requireAdmin (s : option session_data) : verdict :=
  if anonymous s then Reply 401 "Not authenticated"
  else
    match s with
    | Some sd => if isAdmin sd then Next else Reply 403 "Admin access required"
    | None => Reply 401 "Not authenticated"
    end.

End Auth.

(** ** The torrent routes: deletion *)

Module TorrentRoutes.
Import Transmission TorrentMetadata.

(** [getTorrentDetails(id)] on the engine's answer to [get(id)]. *)
Definition getTorrentDetails (ans : result (list torrent)) : result torrent :=
  match ans with
  | Err m => Err m
  | Ok [] => Err "Torrent not found"
  | Ok (t :: _) => Ok t
  end.

(** Modelled from the spec: [isOwner] is not among the sources; the
    ownership record names the owning user, and "only owner or
    administrator may delete/modify". *)
Definition isOwner (h : string) (user : Z) (m : ledger) : bool :=
  match m !! h with
  | Some r => (owner_id r =? user)%Z
  | None => false
  end.

(** The answers of [res.json] and [next(error)]. *)
Inductive reply :=
| Deleted                              (* { success: true, message: 'Torrent deleted' } *)
| Forbidden (error : string)           (* status 403 *)
| Failed (error : string).             (* next(error) *)

(** The handler of [DELETE /:id] for an authenticated session of [user];
    [lookup] is the engine's answer to the handler's own detail query,
    [a] the answers during [removeTorrent]. *)
Definition delete_torrent (user : Z) (admin : bool) (torrentId : Z)
    (lookup : result (list torrent)) (a : answers)
    (w : world) (metadata : ledger) : reply * world * ledger :=
  let w := rpc (RpcGet torrentId) w in
  let torrentHash :=
    match getTorrentDetails lookup with
    | Ok t => hashString t
    | Err _ => None
    end in
  let owner := if Js.truthy torrentHash then isOwner (str torrentHash) user metadata
               else false in
  if negb admin && negb owner then
    (Forbidden "You can only delete your own torrents", w, metadata)
  else
    match removeTorrent a torrentId true w with
    | (Ok _, w) =>
        let metadata :=
          if Js.truthy torrentHash
          then deleteTorrentMetadata (str torrentHash) metadata
          else metadata in
        (Deleted, w, metadata)
    | (Err m, w) => (Failed m, w, metadata)
    end.

End TorrentRoutes.

(** * Vocabulary of the properties *)

Section EvictionTerms.
Import Transmission TorrentMetadata DiskMonitor.

(** The reading of the [k]-th measurement is below [th]. *)
Definition below (e : env) (th : jsnum) (k : nat) : Prop :=
  js_ge (freePercent (getDiskUsage (e_statfs e k))) th = false.

(** The reading of the [k]-th measurement has reached [th]. *)
Definition cleared (e : env) (th : jsnum) (k : nat) : Prop :=
  js_ge (freePercent (getDiskUsage (e_statfs e k))) th = true.

(** The order of the candidates: by acquisition timestamp, ascending. *)
Definition older_or_same (a b : candidate) : Prop :=
  (c_added_at a <= c_added_at b)%Z.

End EvictionTerms.

Section RestartTerms.
Import Restart Transmission.
Local Open Scope Z_scope.

(** The removal takes the workaround path: the hash is known and the
    torrent is still there after the RPC remove, or the RPC failed. *)
Definition uses_workaround (a : answers) : bool :=
  match a_details_before a with
  | Ok t =>
      Js.truthy (hashString t)
      && match a_remove a with
         | Ok _ => is_ok (a_details_after a)
         | Err _ => true
         end
  | Err _ => false
  end.

(** Time passes and the event loop looks at its timers. *)
Definition wait (dt : Z) (w : world) : world :=
  World (client w) (run [Advance dt; Fire] (restart w)) (log w).

(** A state in which one restart is scheduled for [d] and nothing runs. *)
Definition armed (h p : nat) (d : Z) (r : nat) (s : list nat) (f : nat) (t : Z) : state :=
  State (Some h) (Some p) [Timer h d p] [] r s f t.

End RestartTerms.

Section FeedTerms.
Import Rss.

(** The feeds whose identifier is not [i], in order. *)
Definition others (i : Z) (fs : list feed) : list feed :=
  List.filter (fun f => negb (f_id f =? i)%Z) fs.

(** The first enclosure that is a torrent by media type or by extension. *)
Definition torrent_enclosure (it : item) : option enclosure :=
  match enclosures it with
  | Some es => List.find is_torrent_enclosure es
  | None => None
  end.

Definition enclosure_url (it : item) : option string :=
  match torrent_enclosure it with Some e => e_url e | None => None end.

Definition declared_size (it : item) : option string :=
  match torrent_enclosure it with Some e => e_length e | None => None end.

(** No write of the store occurs in the trace. *)
Definition no_save (tr : list event) : Prop :=
  forall d, ~ In (Save d) tr.

(** Every download request comes after the in-memory mark of its item. *)
Definition marked_before (tr : list event) : Prop :=
  forall pre h u post, tr = pre ++ AddUrl h u :: post -> In (MarkSeen h) pre.

(** The seen-record of an item is on disk before its download request. *)
Definition durable_before_request (tr : list event) : Prop :=
  forall pre h u post,
    tr = pre ++ AddUrl h u :: post ->
    exists d, In (Save d) pre /\ is_Some (seenItems d !! h).

(** What the loop can do between two states: extend the trace by marks
    and requests, and grow the in-memory ledger. *)
Definition extends (st st' : loop_state) : Prop :=
  exists delta,
    l_trace st' = l_trace st ++ delta
    /\ no_save delta
    /\ marked_before delta
    /\ (forall h, In (MarkSeen h) delta -> is_Some (l_seen st' !! h))
    /\ (forall h, is_Some (l_seen st !! h) -> is_Some (l_seen st' !! h)).

(** One turn of the loop. *)
Inductive turn (st st1 : loop_state) : Prop :=
| turn_skip :
    l_trace st1 = l_trace st -> l_seen st1 = l_seen st -> turn st st1
| turn_mark h x :
    l_trace st1 = l_trace st ++ [MarkSeen h] ->
    l_seen st1 = <[h := x]> (l_seen st) -> turn st st1
| turn_add h x u :
    l_trace st1 = (l_trace st ++ [MarkSeen h]) ++ [AddUrl h u] ->
    l_seen st1 = <[h := x]> (l_seen st) -> turn st st1.

(** The fingerprint of the item is in the ledger [m]. *)
Definition known (md5 : string -> string) (m : gmap string seen) (it : item) : Prop :=
  exists h, getItemHash md5 it = Ok h /\ is_Some (m !! h).

(** The state after [n] more items were skipped as already seen. *)
Definition skipped (n : nat) (st : loop_state) : loop_state :=
  LoopState (l_seen st) (l_matched st) (l_results st)
    (Summary (n + skippedAlreadySeen (l_summary st))
             (skippedNoMatch (l_summary st))
             (skippedAlreadyExists (l_summary st))
             (addedNew (l_summary st)) (failedToAdd (l_summary st)))
    (l_ledger st) (l_adds st) (l_ticks st) (l_trace st).

(** The matched-item counter of a feed in a store document. *)
Definition matched_of (feedId : Z) (d : data) : option Z :=
  match findIndex feedId (feeds d) with
  | Some ix => option_map matched_count (feeds d !! ix)
  | None => None
  end.

(** No download request occurs in the trace. *)
Definition no_request (tr : list event) : Prop :=
  forall h u, ~ In (AddUrl h u) tr.

(** The document on disk after the events of [tr], starting from [d0]. *)
Definition disk_after (d0 : data) (tr : list event) : data :=
  fold_left (fun d e => match e with Save d' => d' | _ => d end) tr d0.

End FeedTerms.

Section StoreTerms.
Import Rss.

(** The identifiers of the feeds are pairwise different and below the
    next-identifier counter. *)
Definition store_ok (d : data) : Prop :=
  List.NoDup (map f_id (feeds d))
  /\ List.Forall (fun f => (f_id f < nextId d)%Z) (feeds d).

(** The text is a malformed store: [JSON.parse] does not read it as a
    store record, whether it throws or returns another value. *)
Definition malformed {value : Type} (of_data : data -> value)
    (JSON_parse : string -> result value) (text : string) : Prop :=
  forall d, JSON_parse text <> Ok (of_data d).

(** Every unreadable or malformed store loads as the empty state. *)
Definition recovers_every_malformed_store (value : Type) (of_data : data -> value)
    (JSON_parse : string -> result value) : Prop :=
  forall file,
    (is_ok file = false
     \/ exists text, file = Ok text /\ malformed of_data JSON_parse text) ->
    load value of_data JSON_parse file = of_data empty_data.

End StoreTerms.

Section PollTerms.
Import Rss.

(** The number of items that the counters of a poll account for. *)
Definition counted (c : summary) : nat :=
  skippedAlreadySeen c + skippedNoMatch c + skippedAlreadyExists c
  + addedNew c + failedToAdd c.

(** The fingerprints for which a download was requested, in order. *)
Definition requested (tr : list event) : list string :=
  flat_map (fun e => match e with AddUrl h _ => [h] | _ => [] end) tr.

(** The title of the item is the name of one of the torrents. *)
Definition title_exists (existing : list Transmission.torrent) (it : item) : bool :=
  existsb (fun t => option_string_eqb (Transmission.name t) (title it)) existing.

End PollTerms.

Section EgressTerms.

(** The dotted address 172.[n].[rest], [n] written in decimal. *)
Definition address_172 (n : nat) (rest : string) : string :=
  ("172." ++ NilZero.string_of_uint (Nat.to_uint n) ++ "." ++ rest)%string.

End EgressTerms.

Section RemovalTerms.
Import Transmission.

(** The requests that every [removeTorrent] sends to the engine. *)
Definition rpc_effects (a : answers) (i : Z) (deleteFiles : bool) : list effect :=
  RpcGet i :: RpcRemove i deleteFiles
  :: (if is_ok (a_remove a) then [RpcGet i] else []).

(** The resume file and the torrent file that the daemon keeps for a hash. *)
Definition resume_file (h : option string) : string :=
  Js.join [TRANSMISSION_CONFIG_DIR; "resume"; (str h ++ ".resume")%string].

Definition torrent_file (h : option string) : string :=
  Js.join [TRANSMISSION_CONFIG_DIR; "torrents"; (str h ++ ".torrent")%string].

(** Where the downloaded data of a torrent lies under a directory. *)
Definition data_path (dir name : option string) : string :=
  Js.join [str dir; str name].

(** The remove requests among the effects, in the order they were sent:
    the torrent and the [deleteFiles] flag of each. *)
Definition removals (l : list effect) : list (Z * bool) :=
  flat_map (fun x => match x with RpcRemove i d => [(i, d)] | _ => [] end) l.

(** The effect is a deletion of downloaded data or the session query that
    goes with it. *)
Definition data_effect (e : effect) : Prop :=
  e = RpcSession \/ exists p, e = RmRf p.

End RemovalTerms.

Section MonitorTerms.
Import Transmission TorrentMetadata DiskMonitor.

(** The key of a candidate in the ownership ledger. *)
Definition ledger_key (c : candidate) : string := str (hashString (c_torrent c)).

(** The ledger after the records of the candidates in [l] were deleted. *)
Definition without (l : list candidate) (m : ledger) : ledger :=
  fold_left (fun m c => deleteTorrentMetadata (ledger_key c) m) l m.

(** The file system reports a volume without blocks, as pseudo file
    systems do. *)
Definition empty_volume (st : option statfs_stats) : Prop :=
  exists s, st = Some s /\ blocks s = 0%Z /\ bavail s = 0%Z.

(** The request that the pass sends for a candidate. *)
Definition request_of (c : candidate) : Z * bool := (id (c_torrent c), true).

(** What a pass did to the engine and the ledger: it asked the engine to
    remove the torrents of [gone], in this order and with their files,
    and sent no other remove request; it deleted the ownership records
    of the torrents of [gone] and left every other record as it was. *)
Definition removed_exactly (gone : list candidate) (w : world) (metadata : ledger)
    (s : pass_state) : Prop :=
  removals (log (p_world s)) = removals (log w) ++ map request_of gone
  /\ (forall c, In c gone -> p_metadata s !! ledger_key c = None)
  /\ (forall h, ~ In h (map ledger_key gone) -> p_metadata s !! h = metadata !! h).

End MonitorTerms.

Section RestartMoreTerms.
Import Restart.

(** The number of calls of [scheduleTransmissionRestart] among the events. *)
Definition calls (evs : list event) : nat :=
  length (List.filter (fun e => match e with Call => true | _ => false end) evs).

End RestartMoreTerms.

Section RouteTerms.
Import Transmission TorrentMetadata TorrentRoutes.

(** The handler found the hash of the torrent and the ledger names the
    user as its owner. *)
Definition owns (user : Z) (lookup : result (list torrent)) (m : ledger) : bool :=
  match getTorrentDetails lookup with
  | Ok t => Js.truthy (hashString t) && isOwner (str (hashString t)) user m
  | Err _ => false
  end.

(** The hash that the handler found, if any. *)
Definition found_hash (lookup : result (list torrent)) : option string :=
  match getTorrentDetails lookup with
  | Ok t => if Js.truthy (hashString t) then hashString t else None
  | Err _ => None
  end.

End RouteTerms.

Section BatchTerms.
Import Rss RssStore.

(** Every poll of the batch completed. *)
Definition all_polled (rs : list (Z * feed_report)) : Prop :=
  List.Forall (fun r => exists x, snd r = Polled x) rs.

End BatchTerms.

(** * Scenarios *)

Section EngineScenarios.
Import Transmission TorrentMetadata DiskMonitor.
Local Open Scope Z_scope.

(** Every engine call fails with a connection error; the file system is
    never reached. *)
Definition unreachable : answers :=
  Answers (Err "connect ECONNREFUSED 127.0.0.1:9091")
          (Err "connect ECONNREFUSED 127.0.0.1:9091")
          (Err "connect ECONNREFUSED 127.0.0.1:9091")
          (Err "connect ECONNREFUSED 127.0.0.1:9091")
          (Ok tt) (Ok tt) (Ok tt)
          (Err "connect ECONNREFUSED 127.0.0.1:9091")
          (Ok tt).

(** The service right after start: no client yet, no restart scheduled,
    nothing sent. *)
Definition fresh_world : world := World false Restart.init [].

(** The defect of the engine: the RPC remove answers without an error
    and the torrent is still there afterwards. *)
Definition remove_is_noop : answers :=
  Answers (Ok (Torrent 5 (Some "alpha") (Some "h1") (Some "/downloads") (Some 1%Q) 700))
          (Ok tt)
          (Ok (Torrent 5 (Some "alpha") (Some "h1") (Some "/downloads") (Some 1%Q) 700))
          (Ok tt) (Ok tt) (Ok tt) (Ok tt)
          (Ok (Session (Some "/downloads") None false)) (Ok tt).

(** The engine removes the torrent at once: the verification query does
    not find it any more. *)
Definition removal_works : answers :=
  Answers (Ok (Torrent 0 (Some "x") (Some "hx") (Some "/downloads") (Some 1%Q) 0))
          (Ok tt) (Err "Torrent not found") (Ok tt) (Ok tt) (Ok tt) (Ok tt)
          (Ok (Session (Some "/downloads") None false)) (Ok tt).

(** A pass over seven torrents: five completed and not exempt, one
    incomplete, one exempt.  The readings are 5, 6, 8 and 12 percent. *)
Definition seven_torrents : list torrent :=
  [ Torrent 1 (Some "alpha") (Some "h1") (Some "/downloads") (Some 1%Q) 700;
    Torrent 2 (Some "beta") (Some "h2") (Some "/downloads") (Some 1%Q) 100;
    Torrent 3 (Some "gamma") (Some "h3") (Some "/downloads") (Some 1%Q) 300;
    Torrent 4 (Some "delta") (Some "h4") (Some "/downloads") (Some 1%Q) 200;
    Torrent 5 (Some "epsilon") (Some "h5") (Some "/downloads") (Some 1%Q) 400;
    Torrent 6 (Some "partial") (Some "h6") (Some "/downloads") (Some (1 # 2)%Q) 900;
    Torrent 7 (Some "kept") (Some "h7") (Some "/downloads") (Some 1%Q) 800 ].

(** Their ownership records; h2, h4 and h3 are the three oldest of the
    eligible ones, h7 is exempt. *)
Definition seven_ledger : ledger :=
  <["h1" := Meta 3 "upload" None (Some 1700000500000) false]>
  (<["h2" := Meta 3 "upload" None (Some 1700000100000) false]>
  (<["h3" := Meta 0 "rss-auto" (Some (1, "http://a.example/rss")) (Some 1700000300000) false]>
  (<["h4" := Meta 4 "upload" None (Some 1700000200000) false]>
  (<["h5" := Meta 4 "upload" None (Some 1700000400000) false]>
  (<["h6" := Meta 4 "upload" None (Some 1700000050000) false]>
  (<["h7" := Meta 4 "upload" None (Some 1700000010000) true]> ∅)))))).

(** Free blocks out of 1000 at the successive measurements. *)
Definition readings (k : nat) : option statfs_stats :=
  match k with
  | 0%nat => Some (Statfs 1000 4096 50)
  | 1%nat => Some (Statfs 1000 4096 60)
  | 2%nat => Some (Statfs 1000 4096 80)
  | _ => Some (Statfs 1000 4096 120)
  end.

(** The engine lists the seven torrents and removes what it is asked to. *)
Definition seven_env : env :=
  Env (Ok (Session (Some "/downloads") None false)) readings
      (Ok seven_torrents) (fun _ => 1800000000000%Z) (fun _ => removal_works).

(** The same engine on a host where [statfs] always throws. *)
Definition statfs_unavailable : env :=
  Env (Ok (Session (Some "/downloads") None false)) (fun _ => None)
      (Ok seven_torrents) (fun _ => 1800000000000%Z) (fun _ => removal_works).

End EngineScenarios.

Section FeedScenarios.
Import Rss.

(** A store with two feeds and one seen item. *)
Definition two_feeds : data :=
  Data [Feed 1 "http://a.example/rss" (Rules ".*" 0 9007199254740991 "") 0 None 0;
        Feed 2 "http://b.example/rss" (Rules "S01" 0 9007199254740991 "") 0 None 3]
       (<["0cc175b9c0f1b6a831c399e269772661" := Seen 1 1700000000000]> ∅)
       3.

(** A network in which every URL parses to the given scheme and host and
    the host resolves to [address]. *)
Definition resolving (scheme host address : string) : net :=
  Net (fun _ => Some (ParsedUrl scheme host))
      (fun _ => Ok address)
      (fun _ => Ok []).

(** A pattern matcher that is enough for the example: containment of the
    pattern, letter case ignored. *)
Definition contains_ci (pattern flags : string) : result (string -> bool) :=
  Ok (fun s => Js.includes (lower_string s) (lower_string pattern)).

(** Two items of a feed document, and a rule that the first one matches. *)
Definition episode_one : item :=
  Item (Some "Show.S01E01.mkv") (Some "http://tracker.example/details/1")
       (Some "urn:item-1") None None
       (Some [Enclosure (Some "application/x-bittorrent")
                        (Some "http://tracker.example/t/1.torrent")
                        (Some "500000000")]).

Definition episode_four : item :=
  Item (Some "Show.S01E04.mkv") (Some "http://tracker.example/details/4")
       (Some "urn:item-4") None None
       (Some [Enclosure (Some "application/x-bittorrent")
                        (Some "http://tracker.example/t/4.torrent")
                        (Some "500000000")]).

Definition episode_rule : rules := Rules "s01e01" 100000000 2000000000 "".

(** The MD5 digests of the two identifiers of the example. *)
Definition md5_table (s : string) : string :=
  if String.eqb s "urn:item-1" then "73defb1279655c56c3d3f294ba9c12f2"
  else if String.eqb s "urn:item-4" then "341229dc909c09a68b28cb23e2e3735c"
  else "d41d8cd98f00b204e9800998ecf8427e".

(** [parseInt] on the declared sizes of the example. *)
Definition parse_size (s : string) : option Z :=
  if String.eqb s "500000000" then Some 500000000%Z else None.

(** The feed document is served from a public address. *)
Definition example_net : net :=
  Net (fun _ => Some (ParsedUrl "http:" "tracker.example"))
      (fun _ => Ok "93.184.216.34")
      (fun _ => Ok [episode_one; episode_four]).

(** The engine has no torrent yet and accepts every URL. *)
Definition example_env : poll_env :=
  PollEnv example_net (Ok [])
          (fun _ _ => Ok (Transmission.Torrent 12 (Some "Show.S01E01.mkv")
                            (Some "0123456789abcdef0123456789abcdef01234567")
                            (Some "/downloads") (Some 0%Q) 500000000))
          (fun k => (1700000000000 + Z.of_nat k)%Z).

(** A store with one feed and an empty seen-ledger, and the first poll
    of that feed. *)
Definition one_feed : data :=
  Data [Feed 1 "http://tracker.example/rss" episode_rule 1690000000000 None 0] ∅ 2.

Definition first_poll : poll_outcome :=
  pollFeed contains_ci parse_size md5_table example_env 1 one_feed ∅.

End FeedScenarios.

Section MoreScenarios.
Import Rss RssStore.

(** An item without identifier, link and title, after one that matches. *)
Definition nameless : item := Item None None None None None None.

Definition broken_env : poll_env :=
  PollEnv (Net (fun _ => Some (ParsedUrl "http:" "tracker.example"))
               (fun _ => Ok "93.184.216.34")
               (fun _ => Ok [episode_one; nameless]))
          (Ok [])
          (fun _ _ => Ok (Transmission.Torrent 12 (Some "Show.S01E01.mkv")
                            (Some "0123456789abcdef0123456789abcdef01234567")
                            (Some "/downloads") (Some 0%Q) 500000000))
          (fun k => (1700000000000 + Z.of_nat k)%Z).

(** A change of the URL of the second feed of [two_feeds]. *)
Definition new_url : updates := Updates (Some "http://b.example/new") None.

(** A change of the rule of the feed of [one_feed]: every episode of the
    first season instead of the first episode. *)
Definition widen_rule : updates :=
  Updates None (Some (RulesInput (Some "s01") None None None)).

(** A store file that holds the JSON text [null].  The values of the
    example are [null] ([None]) and store records; [JSON.parse('null')]
    is [null], and a text that is cut off makes it throw. *)
Definition parse_null (text : string) : result (option data) :=
  if String.eqb text "null" then Ok None
  else Err "Unexpected end of JSON input".

(** [getFeeds()] on such a value: [this.load().feeds]. *)
Definition getFeeds_of (loaded : option data) : result (list feed) :=
  match loaded with
  | Some d => Ok (getFeeds d)
  | None => Err "Cannot read properties of null (reading 'feeds')"
  end.

(** The engine's answer to the detail query for torrent 5. *)
Definition lookup_alpha : result (list Transmission.torrent) :=
  Ok [Transmission.Torrent 5 (Some "alpha") (Some "h1") (Some "/downloads")
                           (Some 1%Q) 700].

End MoreScenarios.

(** * Properties *)

(** ** Removal protocol *)

Section RemoveTorrent.
Import Transmission.

(** The promise of [removeTorrent] always resolves, with
    [{ success: true }]. *)
Lemma removeTorrent_resolves a i deleteFiles w :
  fst (removeTorrent a i deleteFiles w) = Ok (Removal true).
Proof.
  unfold removeTorrent.
  destruct (a_details_before a) as [t|m];
    destruct (a_remove a) as [u|m']; try destruct (a_details_after a);
    reflexivity.
Qed.

(** C1, evaluated on the code: with the engine unreachable for the
    detail query and for the RPC remove, [removeTorrent 7 true] sends
    the two requests, skips the workaround (no hash is known), and
    resolves with [{ success: true }]; and whatever the engine answers,
    the promise resolves with success. *)
Theorem removeTorrent_unreachable_reports_success :
  removeTorrent unreachable 7 true fresh_world
  = (Ok (Removal true),
     World true Restart.init [RpcGet 7; RpcRemove 7 true])
  /\ forall a i deleteFiles w,
       fst (removeTorrent a i deleteFiles w) = Ok (Removal true).
Proof.
  split; [reflexivity | apply removeTorrent_resolves].
Qed.

End RemoveTorrent.

(** ** Feed store *)

Section FeedStore.
Import Rss.

(** C8 as stated fails: the store file that holds the text [null] is a
    malformed store, and [load] hands on the [null] that [JSON.parse]
    returned instead of the empty state; [getFeeds] then throws. *)
Lemma load_hands_on_wrong_shape :
  ~ recovers_every_malformed_store (option data) Some parse_null.
Proof.
  intros H.
  assert (C : load (option data) Some parse_null (Ok "null") = Some empty_data).
  { apply H. right. exists "null". split; [reflexivity|]. intros d. discriminate. }
  discriminate C.
Qed.

(** What follows the load of that file. *)
Lemma load_null_then_getFeeds_throws :
  load (option data) Some parse_null (Ok "null") = None
  /\ getFeeds_of (load (option data) Some parse_null (Ok "null"))
     = Err "Cannot read properties of null (reading 'feeds')".
Proof. split; reflexivity. Qed.

(** C8, amended: when the store file cannot be read, or its text is not
    valid JSON, [load] returns the empty state: no feeds, an empty
    seen-ledger, next identifier 1; no error is raised.  The empty state
    is a valid store: its identifiers are unique and below the counter,
    no feed and no fingerprint is found in it, and the first feed added
    to it gets the identifier 1.  A text that is valid JSON is handed on
    as [JSON.parse] returned it, whatever its shape: [load] checks
    nothing itself. *)
Theorem load_recovers_empty_state
    (value : Type) (of_data : data -> value)
    (JSON_parse : string -> result value) (file : result string) :
  (is_ok file = false
   \/ exists text m, file = Ok text /\ JSON_parse text = Err m) ->
  load value of_data JSON_parse file = of_data empty_data
  /\ feeds empty_data = []
  /\ seenItems empty_data = ∅
  /\ nextId empty_data = 1%Z
  /\ store_ok empty_data
  /\ (forall i, RssStore.getFeed i empty_data = None)
  /\ (forall h, RssStore.wasItemSeen h empty_data = false)
  /\ (forall u r now,
        f_id (fst (RssStore.addFeed u r now empty_data)) = 1%Z
        /\ feeds (snd (RssStore.addFeed u r now empty_data))
           = [fst (RssStore.addFeed u r now empty_data)]
        /\ store_ok (snd (RssStore.addFeed u r now empty_data)))
  /\ (forall text v, JSON_parse text = Ok v ->
        load value of_data JSON_parse (Ok text) = v).
Proof.
  intros H. split.
  { destruct H as [H | (text & m & -> & Hp)].
    - destruct file; [discriminate | reflexivity].
    - simpl. now rewrite Hp. }
  do 3 (split; [reflexivity|]).
  split; [split; constructor|].
  split; [reflexivity|]. split; [reflexivity|]. split.
  - intros u r now. split; [reflexivity|]. split; [reflexivity|].
    split; cbn.
    + constructor; [intros []|constructor].
    + constructor; [reflexivity|constructor].
  - intros text v Hp. simpl. now rewrite Hp.
Qed.

Lemma load_recovers_empty_state_witness :
  load (option data) Some parse_null (Ok "{ feeds: [") = Some empty_data.
Proof.
  refine (proj1 (load_recovers_empty_state (option data) Some parse_null
                   (Ok "{ feeds: [") _)).
  right. exists "{ feeds: [", "Unexpected end of JSON input". split; reflexivity.
Defined.

Lemma findIndex_Some i fs ix :
  findIndex i fs = Some ix ->
  exists f, fs !! ix = Some f /\ f_id f = i
            /\ forall j g, (j < ix)%nat -> fs !! j = Some g -> f_id g <> i.
Proof.
  revert ix. induction fs as [|f fs IH]; intros ix H; simpl in H; [discriminate|].
  destruct (Z.eqb_spec (f_id f) i) as [E|NE].
  - injection H as <-. exists f. repeat split; auto. intros j g Hj. lia.
  - destruct (findIndex i fs) as [k|] eqn:Hk; [|discriminate].
    injection H as <-. destruct (IH k eq_refl) as (g & Hg & Hid & Hmin).
    exists g. repeat split; auto.
    intros [|j] h Hj Hh; simpl in Hh.
    + injection Hh as <-. exact NE.
    + apply (Hmin j h); [lia | exact Hh].
Qed.

Lemma findIndex_None i fs :
  findIndex i fs = None -> forall f, In f fs -> f_id f <> i.
Proof.
  induction fs as [|g fs IH]; intros H f Hin; [destruct Hin|].
  simpl in H. destruct (Z.eqb_spec (f_id g) i) as [E|NE]; [discriminate|].
  destruct (findIndex i fs); [discriminate|].
  destruct Hin as [<-|Hin]; auto.
Qed.

Lemma others_delete i fs ix f :
  fs !! ix = Some f -> f_id f = i -> others i (delete ix fs) = others i fs.
Proof.
  revert ix. induction fs as [|g fs IH]; intros [|ix] H E; simpl in *; try discriminate.
  - injection H as ->. unfold others. simpl. rewrite E, Z.eqb_refl. reflexivity.
  - unfold others in *. simpl. rewrite (IH ix H E). reflexivity.
Qed.

(** C9: for an identifier present in the store, [deleteFeed] removes
    the record of that feed (the first one carrying the identifier) and
    nothing else: the seen-ledger, the next-identifier counter and all
    feeds with another identifier are as before. *)
Theorem deleteFeed_frame (i : Z) (d : data) :
  (exists f, In f (feeds d) /\ f_id f = i) ->
  exists ix f,
    feeds d !! ix = Some f /\ f_id f = i
    /\ deleteFeed i d
       = (Ok true, Data (delete ix (feeds d)) (seenItems d) (nextId d))
    /\ seenItems (snd (deleteFeed i d)) = seenItems d
    /\ nextId (snd (deleteFeed i d)) = nextId d
    /\ others i (feeds (snd (deleteFeed i d))) = others i (feeds d)
    /\ S (length (feeds (snd (deleteFeed i d)))) = length (feeds d).
Proof.
  intros (f & Hin & Hid). unfold deleteFeed.
  destruct (findIndex i (feeds d)) as [ix|] eqn:Hix.
  - destruct (findIndex_Some _ _ _ Hix) as (g & Hg & Hgid & _).
    exists ix, g. simpl. repeat split; auto.
    + eapply others_delete; eauto.
    + rewrite length_delete by eauto.
      apply lookup_lt_Some in Hg. lia.
  - exfalso. exact (findIndex_None _ _ Hix f Hin Hid).
Qed.

Lemma deleteFeed_frame_witness :
  exists ix f,
    feeds two_feeds !! ix = Some f /\ f_id f = 1%Z
    /\ deleteFeed 1 two_feeds
       = (Ok true, Data (delete ix (feeds two_feeds)) (seenItems two_feeds)
                        (nextId two_feeds))
    /\ seenItems (snd (deleteFeed 1 two_feeds)) = seenItems two_feeds
    /\ nextId (snd (deleteFeed 1 two_feeds)) = nextId two_feeds
    /\ others 1 (feeds (snd (deleteFeed 1 two_feeds))) = others 1 (feeds two_feeds)
    /\ S (length (feeds (snd (deleteFeed 1 two_feeds)))) = length (feeds two_feeds).
Proof.
  apply (deleteFeed_frame 1 two_feeds).
  eexists. split; [left; reflexivity | reflexivity].
Defined.

End FeedStore.

(** ** The workaround of the removal protocol *)

Section RemovalMore.
Import Transmission.

Ltac solve_data_effects :=
  repeat (apply List.Forall_cons;
          [unfold data_effect;
           first [left; reflexivity | right; eexists; reflexivity]|]);
  apply List.Forall_nil.

(** [path.join] normalises what it joins. *)
Lemma join_normalises :
  Js.join ["/downloads/"; "alpha"] = "/downloads/alpha"
  /\ Js.join ["/downloads"; "./alpha/"] = "/downloads/alpha/"
  /\ Js.join ["/downloads"; "../etc"] = "/etc"
  /\ Js.join ["downloads"; "../../x"] = "../x"
  /\ resume_file (Some "h1")
     = "/var/lib/transmission-daemon/.config/transmission-daemon/resume/h1.resume".
Proof. repeat split; vm_compute; reflexivity. Qed.

(** What the workaround does, step by step; [mid] is what it does to
    downloaded data. *)
Lemma workaround_world a i deleteFiles h dd nm pd w :
  exists mid,
    workaround a i deleteFiles h dd nm pd w
    = World false (fst (Restart.scheduleTransmissionRestart (restart w)))
            (log w ++ [RpcStop i; Unlink (resume_file h); Unlink (torrent_file h)]
                   ++ mid ++ [ScheduleRestart; ResetClient])
    /\ List.Forall data_effect mid
    /\ (deleteFiles && Js.truthy dd && Js.truthy nm = false -> mid = [])
    /\ (deleteFiles && Js.truthy dd && Js.truthy nm = true ->
        exists tail,
          mid = RmRf (data_path dd nm) :: RpcSession :: tail
          /\ (tail = [] \/ exists p, tail = [RmRf p])
          /\ (forall s, a_session a = Ok s ->
                incomplete_dir_enabled s = true ->
                Js.truthy (incomplete_dir s) = true -> (pd < 1)%Q ->
                tail = [RmRf (data_path (incomplete_dir s) nm)])
          /\ (forall p, In (RmRf p) tail ->
                exists s, a_session a = Ok s
                          /\ incomplete_dir_enabled s = true
                          /\ Js.truthy (incomplete_dir s) = true
                          /\ (pd < 1)%Q
                          /\ p = data_path (incomplete_dir s) nm)).
Proof.
  unfold workaround, resume_file, torrent_file, data_path.
  destruct (deleteFiles && Js.truthy dd && Js.truthy nm) eqn:Hc.
  - destruct (a_session a) as [s|m] eqn:Hs.
    + destruct (incomplete_dir_enabled s && Js.truthy (incomplete_dir s)
                && negb (Qle_bool 1 pd)) eqn:Hi.
      * exists [RmRf (Js.join [str dd; str nm]); RpcSession;
                RmRf (Js.join [str (incomplete_dir s); str nm])].
        unfold emit, rpc. cbn [log client restart]. rewrite <- !app_assoc.
        split; [reflexivity|]. split; [solve_data_effects|].
        split; [discriminate|]. intros _.
        apply andb_prop in Hi as [Hi Hq]. apply andb_prop in Hi as [He Ht].
        assert (pd < 1)%Q.
        { apply Qnot_le_lt. intros C. apply Qle_bool_iff in C.
          rewrite C in Hq. discriminate. }
        eexists. split; [reflexivity|]. split; [right; eauto|].
        split.
        -- intros s' E _ _ _. injection E as <-. reflexivity.
        -- intros p [C|[]]. injection C as <-. exists s. auto.
      * exists [RmRf (Js.join [str dd; str nm]); RpcSession].
        unfold emit, rpc. cbn [log client restart]. rewrite <- !app_assoc.
        split; [reflexivity|]. split; [solve_data_effects|].
        split; [discriminate|]. intros _.
        exists []. split; [reflexivity|]. split; [now left|].
        split; [|intros p []].
        intros s' E He Ht Hq. injection E as <-. rewrite He, Ht in Hi.
        cbn [andb] in Hi. apply negb_false_iff, Qle_bool_iff in Hi.
        exfalso. exact (Qlt_not_le _ _ Hq Hi).
    + exists [RmRf (Js.join [str dd; str nm]); RpcSession].
      unfold emit, rpc. cbn [log client restart]. rewrite <- !app_assoc.
      split; [reflexivity|]. split; [solve_data_effects|].
      split; [discriminate|]. intros _.
      exists []. split; [reflexivity|]. split; [now left|].
      split; [intros s' E; discriminate | intros p []].
  - exists []. unfold emit, rpc. cbn [log client restart]. rewrite <- !app_assoc.
    split; [reflexivity|]. split; [constructor|].
    split; [reflexivity | discriminate].
Qed.

Lemma removals_app l1 l2 : removals (l1 ++ l2) = removals l1 ++ removals l2.
Proof. unfold removals. apply flat_map_app. Qed.

Lemma removals_data mid : List.Forall data_effect mid -> removals mid = [].
Proof.
  induction 1 as [|x l Hx _ IH]; [reflexivity|].
  destruct Hx as [->|[p ->]]; exact IH.
Qed.

(** Every [removeTorrent] sends one remove request, for its torrent and
    with its [deleteFiles] flag. *)
Lemma removeTorrent_removals a i deleteFiles w :
  removals (log (snd (removeTorrent a i deleteFiles w)))
  = removals (log w) ++ [(i, deleteFiles)].
Proof.
  assert (Hw : forall w0 h dd nm pd,
            removals (log (workaround a i deleteFiles h dd nm pd w0))
            = removals (log w0)).
  { intros w0 h dd nm pd.
    destruct (workaround_world a i deleteFiles h dd nm pd w0) as (mid & E & Hmid & _).
    rewrite E. cbn [log]. rewrite !removals_app, (removals_data mid Hmid).
    cbn. now rewrite app_nil_r. }
  unfold removeTorrent.
  destruct (a_details_before a) as [t|m0];
    destruct (a_remove a) as [u|m1];
    try destruct (a_details_after a) as [t'|m2];
    try destruct (Js.truthy (hashString t));
    cbn [negb andb snd Js.truthy]; rewrite ?Hw;
    unfold rpc; cbn [log]; rewrite !removals_app;
    change (removals [RpcGet i]) with (@nil (Z * bool));
    change (removals [RpcRemove i deleteFiles]) with [(i, deleteFiles)];
    rewrite ?app_nil_r; reflexivity.
Qed.

(** X13.  The two ways [removeTorrent] can go.  Without the workaround
    (the removal was verified, or no hash is known) it only talks to the
    engine: no file is touched, no restart is scheduled, the client is
    kept.  With the workaround it stops the torrent, unlinks the resume
    file and the torrent file named by the hash, deals with the
    downloaded data, schedules the restart and resets the client, in
    this order and whatever the single steps answer.  The downloaded data:
    when [deleteFiles] is set and the download directory and the name
    are known, the torrent's path under the download directory is
    removed, the session is queried, and the torrent's path under the
    incomplete directory is removed exactly when that directory is
    enabled and set and the torrent is below 100 percent; otherwise no
    data is touched.  The paths are what [path.join] makes of directory
    and name. *)
Theorem removeTorrent_two_paths (a : answers) (i : Z) (deleteFiles : bool) (w : world) :
  (uses_workaround a = false ->
     snd (removeTorrent a i deleteFiles w)
     = World true (restart w) (log w ++ rpc_effects a i deleteFiles))
  /\ (uses_workaround a = true ->
      exists t mid,
        a_details_before a = Ok t
        /\ snd (removeTorrent a i deleteFiles w)
           = World false (fst (Restart.scheduleTransmissionRestart (restart w)))
                   (log w ++ rpc_effects a i deleteFiles
                          ++ [RpcStop i; Unlink (resume_file (hashString t));
                              Unlink (torrent_file (hashString t))]
                          ++ mid ++ [ScheduleRestart; ResetClient])
        /\ (deleteFiles = false \/ Js.truthy (downloadDir t) = false
            \/ Js.truthy (name t) = false -> mid = [])
        /\ (deleteFiles = true -> Js.truthy (downloadDir t) = true ->
            Js.truthy (name t) = true ->
            exists tail,
              mid = RmRf (data_path (downloadDir t) (name t)) :: RpcSession :: tail
              /\ (tail = [] \/ exists p, tail = [RmRf p])
              /\ (forall s, a_session a = Ok s ->
                    incomplete_dir_enabled s = true ->
                    Js.truthy (incomplete_dir s) = true ->
                    (percent_or_0 (percentDone t) < 1)%Q ->
                    tail = [RmRf (data_path (incomplete_dir s) (name t))])
              /\ (forall p, In (RmRf p) tail ->
                    exists s, a_session a = Ok s
                              /\ incomplete_dir_enabled s = true
                              /\ Js.truthy (incomplete_dir s) = true
                              /\ (percent_or_0 (percentDone t) < 1)%Q
                              /\ p = data_path (incomplete_dir s) (name t)))).
Proof.
  assert (Hmid : forall t mid,
    List.Forall data_effect mid
    /\ (deleteFiles && Js.truthy (downloadDir t) && Js.truthy (name t) = false ->
        mid = [])
    /\ (deleteFiles && Js.truthy (downloadDir t) && Js.truthy (name t) = true ->
        exists tail,
          mid = RmRf (data_path (downloadDir t) (name t)) :: RpcSession :: tail
          /\ (tail = [] \/ exists p, tail = [RmRf p])
          /\ (forall s, a_session a = Ok s ->
                incomplete_dir_enabled s = true ->
                Js.truthy (incomplete_dir s) = true ->
                (percent_or_0 (percentDone t) < 1)%Q ->
                tail = [RmRf (data_path (incomplete_dir s) (name t))])
          /\ (forall p, In (RmRf p) tail ->
                exists s, a_session a = Ok s
                          /\ incomplete_dir_enabled s = true
                          /\ Js.truthy (incomplete_dir s) = true
                          /\ (percent_or_0 (percentDone t) < 1)%Q
                          /\ p = data_path (incomplete_dir s) (name t))) ->
    (deleteFiles = false \/ Js.truthy (downloadDir t) = false
     \/ Js.truthy (name t) = false -> mid = [])
    /\ (deleteFiles = true -> Js.truthy (downloadDir t) = true ->
        Js.truthy (name t) = true ->
        exists tail,
          mid = RmRf (data_path (downloadDir t) (name t)) :: RpcSession :: tail
          /\ (tail = [] \/ exists p, tail = [RmRf p])
          /\ (forall s, a_session a = Ok s ->
                incomplete_dir_enabled s = true ->
                Js.truthy (incomplete_dir s) = true ->
                (percent_or_0 (percentDone t) < 1)%Q ->
                tail = [RmRf (data_path (incomplete_dir s) (name t))])
          /\ (forall p, In (RmRf p) tail ->
                exists s, a_session a = Ok s
                          /\ incomplete_dir_enabled s = true
                          /\ Js.truthy (incomplete_dir s) = true
                          /\ (percent_or_0 (percentDone t) < 1)%Q
                          /\ p = data_path (incomplete_dir s) (name t)))).
  { intros t mid (_ & Hoff & Hon). split.
    - intros Hc. apply Hoff. destruct Hc as [->|[->| ->]];
        rewrite ?andb_false_r; reflexivity.
    - intros H1 H2 H3. apply Hon. now rewrite H1, H2, H3. }
  unfold uses_workaround, removeTorrent, rpc_effects.
  destruct (a_details_before a) as [t|m0].
  - destruct (a_remove a) as [u|m1]; cbn [is_ok].
    + destruct (a_details_after a) as [t'|m2]; cbn [is_ok negb andb].
      * destruct (Js.truthy (hashString t)) eqn:Hh; cbn [andb snd].
        -- split; [discriminate|]. intros _.
           destruct (workaround_world a i deleteFiles (hashString t) (downloadDir t)
                       (name t) (percent_or_0 (percentDone t))
                       (rpc (RpcGet i) (rpc (RpcRemove i deleteFiles) (rpc (RpcGet i) w))))
             as (mid & E & Hm).
           exists t, mid. split; [reflexivity|]. split; [|now apply Hmid].
           rewrite E. unfold rpc. cbn [restart log client]. now rewrite <- !app_assoc.
        -- split; [|discriminate]. intros _. unfold rpc. cbn. now rewrite <- !app_assoc.
      * rewrite andb_false_r. split; [|discriminate]. intros _.
        unfold rpc. cbn. now rewrite <- !app_assoc.
    + destruct (Js.truthy (hashString t)) eqn:Hh; cbn [negb andb snd].
      * split; [discriminate|]. intros _.
        destruct (workaround_world a i deleteFiles (hashString t) (downloadDir t)
                    (name t) (percent_or_0 (percentDone t))
                    (rpc (RpcRemove i deleteFiles) (rpc (RpcGet i) w)))
          as (mid & E & Hm).
        exists t, mid. split; [reflexivity|]. split; [|now apply Hmid].
        rewrite E. unfold rpc. cbn [restart log client]. now rewrite <- !app_assoc.
      * split; [|discriminate]. intros _. unfold rpc. cbn. now rewrite <- !app_assoc.
  - split; [|discriminate]. intros _.
    destruct (a_remove a) as [u|m1]; [destruct (a_details_after a)|];
      unfold rpc; cbn; now rewrite <- !app_assoc.
Qed.

End RemovalMore.

(** ** Disk-pressure eviction *)

Section Eviction.
Import Transmission TorrentMetadata DiskMonitor.

Lemma insert_by_date_perm c l : Permutation (insert_by_date c l) (c :: l).
Proof.
  induction l as [|x l IH]; simpl; [reflexivity|].
  destruct (c_added_at c <=? c_added_at x)%Z; [reflexivity|].
  rewrite IH. apply perm_swap.
Qed.

Lemma sort_by_date_perm l : Permutation (sort_by_date l) l.
Proof.
  induction l as [|c l IH]; simpl; [reflexivity|].
  rewrite insert_by_date_perm. now constructor.
Qed.

Lemma insert_by_date_sorted c l :
  StronglySorted older_or_same l -> StronglySorted older_or_same (insert_by_date c l).
Proof.
  induction 1 as [|x l Hs IH Hx]; simpl.
  - repeat constructor.
  - destruct (Z.leb_spec (c_added_at c) (c_added_at x)) as [Hle|Hgt].
    + constructor; [constructor; assumption|].
      constructor; [exact Hle|].
      rewrite List.Forall_forall in *. intros y Hy. specialize (Hx y Hy).
      unfold older_or_same in *. lia.
    + constructor; [exact IH|].
      rewrite List.Forall_forall in *. intros y Hy.
      apply (Permutation_in _ (insert_by_date_perm c l)) in Hy.
      destruct Hy as [<-|Hy]; [unfold older_or_same; lia | auto].
  Qed.

Lemma sort_by_date_sorted l : StronglySorted older_or_same (sort_by_date l).
Proof.
  induction l as [|c l IH]; simpl; [constructor | now apply insert_by_date_sorted].
Qed.

Lemma stamp_torrents metadata clock k ts :
  map c_torrent (stamp metadata clock k ts) = ts.
Proof.
  revert k. induction ts as [|t ts IH]; intros k; simpl; [reflexivity|].
  destruct (metadata !! str (hashString t)) as [[? ? ? [a|] ?]|]; simpl;
    now rewrite IH.
Qed.

(** A candidate carries the timestamp of its ownership record when the
    record has one. *)
Lemma stamp_added_at metadata clock k ts c m a :
  In c (stamp metadata clock k ts) ->
  metadata !! str (hashString (c_torrent c)) = Some m ->
  added_at m = Some a -> c_added_at c = a.
Proof.
  revert k. induction ts as [|t ts IH]; intros k Hin Hm Ha; simpl in Hin; [easy|].
  destruct (metadata !! str (hashString t)) as [[o s f [b|] bl]|] eqn:Ht;
    destruct Hin as [<-|Hin]; simpl in *; eauto.
  - rewrite Ht in Hm. injection Hm as <-. simpl in Ha. congruence.
  - rewrite Ht in Hm. injection Hm as <-. discriminate.
  - congruence.
Qed.

(** The loop stops after the removal that is followed by the first
    reading at or above the threshold. *)
Lemma remove_loop_stops e th cands : forall j s n,
  (n < length cands)%nat ->
  (forall k, (k < n)%nat -> below e th (p_measured s + k)) ->
  cleared e th (p_measured s + n) ->
  p_removed (remove_loop e th j cands s)
  = p_removed s ++ map entry_of (take (S n) cands)
  /\ p_measured (remove_loop e th j cands s) = (p_measured s + S n)%nat.
Proof.
  induction cands as [|c cands IH]; intros j s n Hn Hb Hc; simpl in Hn; [lia|].
  simpl remove_loop.
  destruct (removeTorrent (e_answers e j) (id (c_torrent c)) true (p_world s))
    as [r w] eqn:E.
  pose proof (removeTorrent_resolves (e_answers e j) (id (c_torrent c)) true
                (p_world s)) as R.
  rewrite E in R. simpl in R. subst r.
  destruct n as [|n].
  - unfold cleared in Hc. rewrite Nat.add_0_r in Hc. rewrite Hc. simpl.
    split; [reflexivity | lia].
  - pose proof (Hb 0%nat ltac:(lia)) as H0. unfold below in H0.
    rewrite Nat.add_0_r in H0. rewrite H0.
    match goal with |- context [remove_loop e th (S j) cands ?s1] =>
      destruct (IH (S j) s1 n) as [Hr Hm] end.
    + lia.
    + intros k Hk. unfold below. cbn [p_measured].
      replace (S (p_measured s) + k)%nat with (p_measured s + S k)%nat by lia.
      apply Hb. lia.
    + unfold cleared. cbn [p_measured].
      replace (S (p_measured s) + n)%nat with (p_measured s + S n)%nat by lia.
      exact Hc.
    + rewrite Hr, Hm. simpl. rewrite <- app_assoc. split; [reflexivity | lia].
Qed.

(** When no reading reaches the threshold, every candidate is removed. *)
Lemma remove_loop_exhausts e th cands : forall j s,
  (forall k, (k < length cands)%nat -> below e th (p_measured s + k)) ->
  p_removed (remove_loop e th j cands s) = p_removed s ++ map entry_of cands
  /\ p_measured (remove_loop e th j cands s) = (p_measured s + length cands)%nat.
Proof.
  induction cands as [|c cands IH]; intros j s Hb; simpl.
  - rewrite app_nil_r. split; [reflexivity | lia].
  - destruct (removeTorrent (e_answers e j) (id (c_torrent c)) true (p_world s))
      as [r w] eqn:E.
    pose proof (removeTorrent_resolves (e_answers e j) (id (c_torrent c)) true
                  (p_world s)) as R.
    rewrite E in R. simpl in R. subst r.
    pose proof (Hb 0%nat ltac:(simpl; lia)) as H0. unfold below in H0.
    rewrite Nat.add_0_r in H0. rewrite H0.
    match goal with |- context [remove_loop e th (S j) cands ?s1] =>
      destruct (IH (S j) s1) as [Hr Hm] end.
    + intros k Hk. unfold below. cbn [p_measured].
      replace (S (p_measured s) + k)%nat with (p_measured s + S k)%nat by lia.
      apply Hb. simpl. lia.
    + rewrite Hr, Hm. simpl. rewrite <- app_assoc. split; [reflexivity | lia].
Qed.

Lemma sorted_app_between (R : candidate -> candidate -> Prop) l1 l2 :
  StronglySorted R (l1 ++ l2) ->
  forall a b, In a l1 -> In b l2 -> R a b.
Proof.
  induction l1 as [|x l1 IH]; intros Hs a b Ha Hb; [destruct Ha|].
  simpl in Hs. inversion Hs as [|? ? Hs' Hall]; subst.
  destruct Ha as [<-|Ha]; [|eauto].
  rewrite List.Forall_forall in Hall. apply Hall, in_or_app. now right.
Qed.

Lemma nodup_app_between l1 l2 :
  List.NoDup (map c_added_at (l1 ++ l2)) ->
  forall a b, In a l1 -> In b l2 -> c_added_at a <> c_added_at b.
Proof.
  induction l1 as [|x l1 IH]; intros Hn a b Ha Hb; [destruct Ha|].
  simpl in Hn. apply List.NoDup_cons_iff in Hn as [Hx Hn].
  destruct Ha as [<-|Ha]; [|eauto].
  intros E. apply Hx. rewrite E. apply in_map, in_or_app. now right.
Qed.

Lemma candidates_spec metadata clock ts :
  let cands := sort_by_date (stamp metadata clock 0 (List.filter (eligible metadata) ts)) in
  Permutation (map c_torrent cands) (List.filter (eligible metadata) ts)
  /\ StronglySorted older_or_same cands
  /\ (forall c m a, In c cands ->
        metadata !! str (hashString (c_torrent c)) = Some m ->
        added_at m = Some a -> c_added_at c = a).
Proof.
  intros cands. split; [|split].
  - unfold cands. rewrite (Permutation_map c_torrent (sort_by_date_perm _)).
    now rewrite stamp_torrents.
  - apply sort_by_date_sorted.
  - intros c m a Hin. eapply stamp_added_at.
    exact (Permutation_in _ (sort_by_date_perm _) Hin).
Qed.

Lemma removeTorrent_rpc_remove a i deleteFiles w j d :
  In (RpcRemove j d) (log (snd (removeTorrent a i deleteFiles w))) ->
  In (RpcRemove j d) (log w) \/ (j = i /\ d = deleteFiles).
Proof.
  assert (Hw : forall w0 h dd nm pd,
            In (RpcRemove j d) (log (workaround a i deleteFiles h dd nm pd w0)) ->
            In (RpcRemove j d) (log w0)).
  { intros w0 h dd nm pd Hin.
    destruct (workaround_world a i deleteFiles h dd nm pd w0) as (mid & E & Hmid & _).
    rewrite E in Hin. cbn [log] in Hin. rewrite !in_app_iff in Hin. cbn in Hin.
    rewrite List.Forall_forall in Hmid.
    destruct Hin as [H|[H|[H|H]]]; auto.
    - destruct H as [H|[H|[H|[]]]]; discriminate.
    - destruct (Hmid _ H) as [C|[p C]]; discriminate.
    - destruct H as [H|[H|[]]]; discriminate. }
  assert (Hbase : forall l, In (RpcRemove j d) (log w ++ l) ->
                    (forall x, In x l -> x = RpcGet i \/ x = RpcRemove i deleteFiles) ->
                    In (RpcRemove j d) (log w) \/ (j = i /\ d = deleteFiles)).
  { intros l Hin Hl. apply in_app_or in Hin as [H|H]; [now left|].
    destruct (Hl _ H) as [C|C]; [discriminate|]. injection C as -> ->. now right. }
  unfold removeTorrent.
  destruct (a_details_before a) as [t|m0];
    destruct (a_remove a) as [u|m1];
    try destruct (a_details_after a) as [t'|m2];
    try destruct (Js.truthy (hashString t));
    cbn [negb andb snd]; intros Hin; try apply Hw in Hin;
    unfold rpc in Hin; cbn [log] in Hin; rewrite <- ?app_assoc in Hin;
    (eapply Hbase; [exact Hin|]); cbn; intuition.
Qed.

Lemma without_lookup (l : list candidate) : forall (m : ledger) h,
  (In h (map ledger_key l) -> without l m !! h = None)
  /\ (~ In h (map ledger_key l) -> without l m !! h = m !! h).
Proof.
  induction l as [|c l IH]; intros m h; cbn [map].
  - split; [intros [] | reflexivity].
  - change (without (c :: l) m)
      with (without l (deleteTorrentMetadata (ledger_key c) m)).
    destruct (IH (deleteTorrentMetadata (ledger_key c) m) h) as [IH1 IH2].
    destruct (in_dec string_dec h (map ledger_key l)) as [Hin|Hout].
    + split; [intros _; now apply IH1 | intros C; exfalso; apply C; now right].
    + split.
      * intros [E|Hin]; [|contradiction]. rewrite IH2 by exact Hout.
        rewrite <- E. apply lookup_delete_eq.
      * intros Hnot. rewrite IH2 by exact Hout. unfold deleteTorrentMetadata.
        apply lookup_delete_ne. intros E. apply Hnot. now left.
Qed.

Lemma in_take (A : Type) (l : list A) : forall n x, In x (take n l) -> In x l.
Proof.
  induction l as [|a l IH]; intros [|n] x H; cbn in H; try contradiction.
  destruct H as [H|H]; [now left | right; eauto].
Qed.

(** What the loop of the pass does, for any readings. *)
Lemma remove_loop_general e th cands : forall j s,
  exists n,
    n <= length cands
    /\ p_removed (remove_loop e th j cands s)
       = p_removed s ++ map entry_of (take n cands)
    /\ p_metadata (remove_loop e th j cands s) = without (take n cands) (p_metadata s)
    /\ (forall i d,
          In (RpcRemove i d) (log (p_world (remove_loop e th j cands s))) ->
          In (RpcRemove i d) (log (p_world s))
          \/ (d = true /\ exists c, In c (take n cands) /\ id (c_torrent c) = i))
    /\ removals (log (p_world (remove_loop e th j cands s)))
       = removals (log (p_world s)) ++ map request_of (take n cands).
Proof.
  induction cands as [|c cands IH]; intros j s; cbn [remove_loop].
  - exists 0. cbn. rewrite !app_nil_r. repeat split; auto.
  - destruct (removeTorrent (e_answers e j) (id (c_torrent c)) true (p_world s))
      as [r w] eqn:E.
    pose proof (removeTorrent_resolves (e_answers e j) (id (c_torrent c)) true
                  (p_world s)) as R.
    pose proof (fun i d => removeTorrent_rpc_remove (e_answers e j) (id (c_torrent c))
                             true (p_world s) i d) as L.
    pose proof (removeTorrent_removals (e_answers e j) (id (c_torrent c)) true
                  (p_world s)) as V.
    rewrite E in R, L, V. cbn [fst snd] in R, L, V. subst r.
    destruct (js_ge _ th).
    + exists 1. cbn [take length map p_removed p_metadata p_world without fold_left].
      split; [lia|]. split; [reflexivity|]. split; [reflexivity|].
      split; [|exact V].
      intros i d Hin. destruct (L i d Hin) as [H|[-> ->]]; [now left|].
      right. split; [reflexivity|]. exists c. split; [now left | reflexivity].
    + match goal with |- context [remove_loop e th (S j) cands ?s1] =>
        destruct (IH (S j) s1) as (n & Hn & Hr & Hm & Hl & Hv) end.
      exists (S n). cbn [take length map p_removed p_metadata p_world without fold_left] in *.
      split; [lia|]. split; [rewrite Hr, <- app_assoc; reflexivity|].
      split; [exact Hm|].
      split; [|rewrite Hv, V, <- app_assoc; reflexivity].
      intros i d Hin. destruct (Hl i d Hin) as [H|(-> & c' & Hc' & Hid)].
      * destruct (L i d H) as [H'|[-> ->]]; [now left|].
        right. split; [reflexivity|]. exists c. split; [now left | reflexivity].
      * right. split; [reflexivity|]. exists c'. split; [now right | exact Hid].
Qed.

(** The outcome of a pass, for any disk, engine and threshold. *)
Lemma pass_outcome e th w metadata :
  exists gone,
    p_removed (snd (autoRemoveOldestTorrents e th w metadata)) = map entry_of gone
    /\ p_metadata (snd (autoRemoveOldestTorrents e th w metadata))
       = without gone metadata
    /\ (forall i d,
          In (RpcRemove i d)
             (log (p_world (snd (autoRemoveOldestTorrents e th w metadata)))) ->
          In (RpcRemove i d) (log w)
          \/ (d = true /\ exists c, In c gone /\ id (c_torrent c) = i))
    /\ (forall c, In c gone ->
          exists ts, e_torrents e = Ok ts /\ In (c_torrent c) ts
                     /\ completed (c_torrent c) = true
                     /\ not_blocked metadata (c_torrent c) = true).
Proof.
  assert (Hnone : forall s, p_removed s = [] -> p_metadata s = metadata ->
                    p_world s = w ->
                    exists gone,
                      p_removed s = map entry_of gone
                      /\ p_metadata s = without gone metadata
                      /\ (forall i d, In (RpcRemove i d) (log (p_world s)) ->
                            In (RpcRemove i d) (log w)
                            \/ (d = true /\ exists c, In c gone /\ id (c_torrent c) = i))
                      /\ (forall c, In c gone ->
                            exists ts, e_torrents e = Ok ts /\ In (c_torrent c) ts
                                       /\ completed (c_torrent c) = true
                                       /\ not_blocked metadata (c_torrent c) = true)).
  { intros s H1 H2 H3. exists []. rewrite H1, H2, H3. repeat split; auto.
    intros c []. }
  unfold autoRemoveOldestTorrents, getServerStats.
  destruct (e_session e) as [ses|m]; [|now apply Hnone].
  destruct (js_ge _ th); [now apply Hnone|].
  unfold getAutoRemovalCandidates, getTorrents.
  destruct (e_torrents e) as [ts|m] eqn:Hts; [|now apply Hnone].
  destruct (candidates_spec metadata (e_clock e) ts) as (Hperm & _).
  set (cands := sort_by_date _) in *.
  assert (Hel : forall c, In c cands ->
            In (c_torrent c) ts /\ completed (c_torrent c) = true
            /\ not_blocked metadata (c_torrent c) = true).
  { intros c Hc. apply (in_map c_torrent) in Hc.
    apply (Permutation_in _ Hperm) in Hc. apply filter_In in Hc as [Hin He].
    unfold eligible in He. apply andb_true_iff in He. tauto. }
  destruct cands as [|c0 rest] eqn:Ec; [now apply Hnone|]. rewrite <- Ec in *.
  cbn [snd].
  destruct (remove_loop_general e th cands 0 (PassState w metadata [] 1))
    as (n & Hn & Hr & Hm & Hl & _).
  exists (take n cands). cbn [p_removed p_metadata p_world app] in *.
  split; [exact Hr|]. split; [exact Hm|]. split; [exact Hl|].
  intros c Hc. exists ts. split; [reflexivity|]. apply Hel.
  eapply in_take, Hc.
Qed.

(** The torrents that a pass reports are the first candidates, and
    the requests and the ledger go with the report. *)
Lemma pass_prefix e th w metadata cands :
  getAutoRemovalCandidates (e_torrents e) metadata (e_clock e) = Ok cands ->
  exists n,
    n <= length cands
    /\ p_removed (snd (autoRemoveOldestTorrents e th w metadata))
       = map entry_of (take n cands)
    /\ p_metadata (snd (autoRemoveOldestTorrents e th w metadata))
       = without (take n cands) metadata
    /\ removals (log (p_world (snd (autoRemoveOldestTorrents e th w metadata))))
       = removals (log w) ++ map request_of (take n cands).
Proof.
  intros Hget.
  assert (Hnone : forall s, p_removed s = [] -> p_metadata s = metadata ->
                    p_world s = w ->
                    exists n,
                      n <= length cands
                      /\ p_removed s = map entry_of (take n cands)
                      /\ p_metadata s = without (take n cands) metadata
                      /\ removals (log (p_world s))
                         = removals (log w) ++ map request_of (take n cands)).
  { intros s H1 H2 H3. exists 0. rewrite H1, H2, H3. cbn. rewrite app_nil_r.
    repeat split; auto. lia. }
  unfold autoRemoveOldestTorrents, getServerStats.
  destruct (e_session e) as [ses|m]; [|now apply Hnone].
  destruct (js_ge _ th); [now apply Hnone|].
  rewrite Hget.
  destruct cands as [|c0 rest] eqn:Ec; [now apply Hnone|]. rewrite <- Ec in *.
  cbn [snd].
  destruct (remove_loop_general e th cands 0 (PassState w metadata [] 1))
    as (n & Hn & Hr & Hm & _ & Hv).
  exists n. cbn [p_removed p_metadata p_world app] in *. auto.
Qed.

Lemma pass_removed_exactly e th w metadata cands m :
  getAutoRemovalCandidates (e_torrents e) metadata (e_clock e) = Ok cands ->
  m <= length cands ->
  p_removed (snd (autoRemoveOldestTorrents e th w metadata))
  = map entry_of (take m cands) ->
  removed_exactly (take m cands) w metadata
                  (snd (autoRemoveOldestTorrents e th w metadata)).
Proof.
  intros Hget Hm Hp.
  destruct (pass_prefix e th w metadata cands Hget) as (n & Hn & Hr & Hmd & Hv).
  assert (n = m).
  { rewrite Hr in Hp. apply (f_equal (@length _)) in Hp.
    rewrite !length_map, !length_take in Hp. lia. }
  subst n. unfold removed_exactly. rewrite Hmd. split; [exact Hv|]. split.
  - intros c Hc. apply without_lookup. now apply in_map.
  - intros h Hh. now apply without_lookup.
Qed.

(** The reading is the double that the division and the multiplication
    give: 29 free blocks out of 100 read as 28.999999999999996. *)
Lemma getDiskUsage_rounds :
  freePercent (getDiskUsage (Some (Statfs 100 4096 29)))
  = Num (8162774324609023 # 281474976710656)
  /\ js_ge (freePercent (getDiskUsage (Some (Statfs 100 4096 29)))) (Num 29) = false
  /\ getDiskUsage (Some (Statfs 1000 4096 50))
     = Usage 4096000 3891200 204800 (Num 5).
Proof. repeat split; vm_compute; reflexivity. Qed.

(** A volume without blocks reads as NaN. *)
Lemma empty_volume_reads_NaN st :
  empty_volume st -> freePercent (getDiskUsage st) = NaN.
Proof.
  intros (s & -> & Hb & Ha). cbn [getDiskUsage freePercent]. rewrite Hb, Ha.
  generalize (double_of_Z (bsize s)). intros b.
  destruct b as [sg|sg| |sg m ex]; try destruct sg; reflexivity.
Qed.

(** C3: an eviction pass that finds the free space below the threshold.
    The candidates are exactly the torrents at 100 percent whose
    ownership record does not carry the exempt flag (no record: eligible);
    they are ordered oldest first by acquisition timestamp; free space is
    measured again after each removal; the pass stops at the first
    reading that reaches the threshold, or when the candidates are
    exhausted.  The torrents it reports are the ones it has asked the
    engine to remove, in this order and with their files, and whose
    ownership records it has deleted; no other remove request is sent
    and no other record changes.  With distinct timestamps and readings
    that reach the threshold only after the third removal, the three
    oldest are removed, oldest first, and no other. *)
Theorem eviction_pass_oldest_first
    (e : env) (th : jsnum) (w : world) (metadata : ledger)
    (ts : list torrent) (ses : session) :
  e_session e = Ok ses ->
  e_torrents e = Ok ts ->
  below e th 0 ->
  exists cands,
    getAutoRemovalCandidates (e_torrents e) metadata (e_clock e) = Ok cands
    /\ (forall t, In t (map c_torrent cands) <->
                  In t ts /\ completed t = true /\ not_blocked metadata t = true)
    /\ (forall t, In t ts -> completed t = true ->
                  metadata !! str (hashString t) = None ->
                  In t (map c_torrent cands))
    /\ Permutation (map c_torrent cands) (List.filter (eligible metadata) ts)
    /\ StronglySorted older_or_same cands
    /\ (forall c m a, In c cands ->
          metadata !! str (hashString (c_torrent c)) = Some m ->
          added_at m = Some a -> c_added_at c = a)
    /\ (forall n, (n < length cands)%nat ->
          (forall k, (k < n)%nat -> below e th (S k)) ->
          cleared e th (S n) ->
          fst (autoRemoveOldestTorrents e th w metadata)
          = Ok (Report (S n) (Some (map entry_of (take (S n) cands)))
                       (RemovedCount (S n)))
          /\ p_measured (snd (autoRemoveOldestTorrents e th w metadata)) = S (S n)
          /\ removed_exactly (take (S n) cands) w metadata
                             (snd (autoRemoveOldestTorrents e th w metadata)))
    /\ (cands <> [] ->
        (forall k, (k < length cands)%nat -> below e th (S k)) ->
          fst (autoRemoveOldestTorrents e th w metadata)
          = Ok (Report (length cands) (Some (map entry_of cands))
                       (RemovedCount (length cands)))
          /\ p_measured (snd (autoRemoveOldestTorrents e th w metadata))
             = S (length cands)
          /\ removed_exactly cands w metadata
                             (snd (autoRemoveOldestTorrents e th w metadata)))
    /\ ((3 <= length cands)%nat ->
        List.NoDup (map c_added_at cands) ->
        below e th 1 -> below e th 2 -> cleared e th 3 ->
          fst (autoRemoveOldestTorrents e th w metadata)
          = Ok (Report 3 (Some (map entry_of (take 3 cands))) (RemovedCount 3))
          /\ removed_exactly (take 3 cands) w metadata
                             (snd (autoRemoveOldestTorrents e th w metadata))
          /\ forall c c', In c (take 3 cands) -> In c' (drop 3 cands) ->
                          (c_added_at c < c_added_at c')%Z).
Proof.
  intros Hses Hts Hlow.
  set (cands := sort_by_date
                  (stamp metadata (e_clock e) 0 (List.filter (eligible metadata) ts))).
  destruct (candidates_spec metadata (e_clock e) ts) as (Hperm & Hsort & Hstamp).
  fold cands in Hperm, Hsort, Hstamp.
  assert (Hget : getAutoRemovalCandidates (e_torrents e) metadata (e_clock e) = Ok cands)
    by (unfold getAutoRemovalCandidates, getTorrents; now rewrite Hts).
  assert (Hmem : forall t, In t (map c_torrent cands) <->
                  In t ts /\ completed t = true /\ not_blocked metadata t = true).
  { intros t. split.
    - intros Hin. apply (Permutation_in _ Hperm) in Hin.
      apply filter_In in Hin as [Hin He]. unfold eligible in He.
      apply andb_true_iff in He. tauto.
    - intros (Hin & Hc & Hb). apply (Permutation_in _ (Permutation_sym Hperm)).
      apply filter_In. split; [exact Hin|]. unfold eligible. now rewrite Hc, Hb. }
  assert (Hstop : forall n, (n < length cands)%nat ->
          (forall k, (k < n)%nat -> below e th (S k)) ->
          cleared e th (S n) ->
          fst (autoRemoveOldestTorrents e th w metadata)
          = Ok (Report (S n) (Some (map entry_of (take (S n) cands)))
                       (RemovedCount (S n)))
          /\ p_measured (snd (autoRemoveOldestTorrents e th w metadata)) = S (S n)
          /\ removed_exactly (take (S n) cands) w metadata
                             (snd (autoRemoveOldestTorrents e th w metadata))).
  { intros n Hn Hb Hc.
    assert (Hp : p_removed (snd (autoRemoveOldestTorrents e th w metadata))
                 = map entry_of (take (S n) cands)
                 /\ fst (autoRemoveOldestTorrents e th w metadata)
                    = Ok (Report (S n) (Some (map entry_of (take (S n) cands)))
                                 (RemovedCount (S n)))
                 /\ p_measured (snd (autoRemoveOldestTorrents e th w metadata))
                    = S (S n)).
    { unfold autoRemoveOldestTorrents, getServerStats.
      rewrite Hses. unfold below in Hlow. rewrite Hlow, Hget.
      destruct cands as [|c0 rest] eqn:Ec; [simpl in Hn; lia|]. rewrite <- Ec in *.
      destruct (remove_loop_stops e th cands 0 (PassState w metadata [] 1) n Hn)
        as [Hr Hm]; [exact Hb | exact Hc |].
      cbn [fst snd]. rewrite Hr, Hm. cbn [p_removed p_measured app].
      rewrite length_map, length_take, Nat.min_l by lia.
      split; [reflexivity|]. split; [reflexivity | lia]. }
    destruct Hp as (Hp & Hf & Hm). split; [exact Hf|]. split; [exact Hm|].
    apply pass_removed_exactly; [exact Hget | lia | exact Hp]. }
  exists cands. split; [exact Hget|]. split; [exact Hmem|].
  split; [|split; [exact Hperm|split; [exact Hsort|split; [exact Hstamp|
    split; [exact Hstop|split]]]]].
  - intros t Hin Hc Hnone. apply Hmem. split; [exact Hin|]. split; [exact Hc|].
    unfold not_blocked. now rewrite Hnone.
  - intros Hne Hb.
    assert (Hp : p_removed (snd (autoRemoveOldestTorrents e th w metadata))
                 = map entry_of cands
                 /\ fst (autoRemoveOldestTorrents e th w metadata)
                    = Ok (Report (length cands) (Some (map entry_of cands))
                                 (RemovedCount (length cands)))
                 /\ p_measured (snd (autoRemoveOldestTorrents e th w metadata))
                    = S (length cands)).
    { unfold autoRemoveOldestTorrents, getServerStats.
      rewrite Hses. unfold below in Hlow. rewrite Hlow, Hget.
      destruct cands as [|c0 rest] eqn:Ec; [congruence|]. rewrite <- Ec in *.
      destruct (remove_loop_exhausts e th cands 0 (PassState w metadata [] 1))
        as [Hr Hm]; [exact Hb|].
      cbn [fst snd]. rewrite Hr, Hm. cbn [p_removed p_measured app].
      rewrite length_map. split; [reflexivity|]. split; [reflexivity | lia]. }
    destruct Hp as (Hp & Hf & Hm). split; [exact Hf|]. split; [exact Hm|].
    pose proof (pass_removed_exactly e th w metadata cands (length cands) Hget
                  (le_n _)) as Hx.
    rewrite firstn_all in Hx. exact (Hx Hp).
  - intros Hlen Hnd Hb1 Hb2 Hc3.
    destruct (Hstop 2%nat) as (Hf & _ & Hx); [lia | | exact Hc3 |].
    { intros [|[|k]] Hk; [exact Hb1 | exact Hb2 | lia]. }
    split; [exact Hf|]. split; [exact Hx|].
    intros c c' Hc Hc'.
    rewrite <- (take_drop 3 cands) in Hsort, Hnd.
    pose proof (sorted_app_between _ _ _ Hsort c c' Hc Hc') as Hle.
    pose proof (nodup_app_between _ _ Hnd c c' Hc Hc') as Hne.
    unfold older_or_same in Hle. lia.
Qed.

Local Open Scope Z_scope.

Lemma eviction_pass_oldest_first_witness :
  fst (autoRemoveOldestTorrents seven_env (Num 10) fresh_world seven_ledger)
  = Ok (Report 3%nat (Some [Removed 2 (Some "beta") 100;
                        Removed 4 (Some "delta") 200;
                        Removed 3 (Some "gamma") 300])
               (RemovedCount 3%nat))
  /\ removals (log (p_world (snd (autoRemoveOldestTorrents seven_env (Num 10)
                                    fresh_world seven_ledger))))
     = [(2, true); (4, true); (3, true)]
  /\ p_metadata (snd (autoRemoveOldestTorrents seven_env (Num 10) fresh_world
                        seven_ledger)) !! "h4" = None
  /\ p_metadata (snd (autoRemoveOldestTorrents seven_env (Num 10) fresh_world
                        seven_ledger)) !! "h1" = seven_ledger !! "h1".
Proof.
  destruct (eviction_pass_oldest_first seven_env (Num 10) fresh_world seven_ledger
              seven_torrents (Session (Some "/downloads") None false)
              eq_refl eq_refl)
    as (cands & Hget & _ & _ & _ & _ & _ & _ & _ & Hthree).
  { vm_compute. reflexivity. }
  vm_compute in Hget. injection Hget as <-.
  destruct Hthree as (Hf & (Hv & Hgone & Hkept) & _).
  - simpl. lia.
  - repeat (constructor; [simpl; intuition discriminate|]). constructor.
  - vm_compute. reflexivity.
  - vm_compute. reflexivity.
  - vm_compute. reflexivity.
  - split; [exact Hf|]. split; [exact Hv|]. split.
    + apply (Hgone (Candidate (Torrent 4 (Some "delta") (Some "h4")
                                        (Some "/downloads") (Some 1%Q) 200)
                              1700000200000)).
      right. left. reflexivity.
    + apply Hkept. cbn. intuition discriminate.
Defined.

(** C10: when [statfs] fails, [getDiskUsage] returns the placeholder,
    whose free share is exactly 10 percent; the default threshold is 10;
    a pass whose first reading is at or above the threshold reports
    'Disk space above threshold' and touches neither the engine nor the
    ledger; so a pass under measurement failure with the default
    threshold removes nothing. *)
Theorem measurement_failure_removes_nothing
    (parseFloat : string -> jsnum) (e : env) (w : world) (metadata : ledger)
    (ses : session) :
  e_session e = Ok ses ->
  e_statfs e 0%nat = None ->
  getDiskUsage None = Usage 1000000000000 900000000000 100000000000 (Num 10)
  /\ free (getDiskUsage None) * 100 = total (getDiskUsage None) * 10
  /\ threshold_of parseFloat None = Num 10
  /\ (forall th, cleared e th 0%nat ->
        autoRemoveOldestTorrents e th w metadata
        = (Ok (Report 0%nat None AboveThreshold), PassState w metadata [] 1%nat))
  /\ autoRemoveOldestTorrents e (threshold_of parseFloat None) w metadata
     = (Ok (Report 0%nat None AboveThreshold), PassState w metadata [] 1%nat).
Proof.
  intros Hses Hfail.
  assert (Hclear : forall th, cleared e th 0%nat ->
            autoRemoveOldestTorrents e th w metadata
            = (Ok (Report 0%nat None AboveThreshold), PassState w metadata [] 1%nat)).
  { intros th Hc. unfold autoRemoveOldestTorrents, getServerStats.
    rewrite Hses. unfold cleared in Hc. now rewrite Hc. }
  repeat split; try reflexivity; [exact Hclear|].
  apply Hclear. unfold cleared. rewrite Hfail. reflexivity.
Qed.

Lemma measurement_failure_removes_nothing_witness :
  autoRemoveOldestTorrents statfs_unavailable (Num 10) fresh_world seven_ledger
  = (Ok (Report 0%nat None AboveThreshold), PassState fresh_world seven_ledger [] 1%nat).
Proof.
  apply (measurement_failure_removes_nothing (fun _ => NaN) statfs_unavailable
           fresh_world seven_ledger (Session (Some "/downloads") None false)
           eq_refl eq_refl).
Defined.

End Eviction.

(** ** The debounced restart *)

Section DebouncedRestart.
Import Restart Transmission.
Local Open Scope Z_scope.

Lemma shape_init : shape init.
Proof. now apply Idle. Qed.

Ltac solve_shape :=
  first [ solve [apply Idle; reflexivity]
        | solve [eapply Armed; reflexivity]
        | solve [eapply Running; reflexivity] ].

Lemma shape_step e st : shape st -> shape (step e st).
Proof.
  intros H. destruct st as [rt rp pe fl r s f n].
  destruct H as [Ht Hp Hpe Hf | h p d Ht Hp Hpe Hf | h p Ht Hp Hpe Hf];
    simpl in *; subst; destruct e; simpl; try solve_shape.
  destruct (due n (Timer h d p)); solve_shape.
Qed.

Lemma shape_run evs : forall st, shape st -> shape (run evs st).
Proof.
  induction evs as [|e evs IH]; intros st H; simpl; [exact H|].
  apply IH, shape_step, H.
Qed.

Lemma shape_outstanding st : shape st -> (outstanding st <= 1)%nat.
Proof.
  intros [Ht Hp Hpe Hf | h p d Ht Hp Hpe Hf | h p Ht Hp Hpe Hf];
    unfold outstanding; rewrite Hpe, Hf; simpl; lia.
Qed.

Lemma workaround_restart a i deleteFiles h d n pd w :
  restart (workaround a i deleteFiles h d n pd w)
  = fst (scheduleTransmissionRestart (restart w)).
Proof.
  unfold workaround.
  destruct (deleteFiles && Js.truthy d && Js.truthy n); [|reflexivity].
  destruct (a_session a) as [s|m]; [|reflexivity].
  destruct (incomplete_dir_enabled s && Js.truthy (incomplete_dir s)
            && negb (Qle_bool 1 pd)); reflexivity.
Qed.

Lemma removeTorrent_restart a i deleteFiles w :
  restart (snd (removeTorrent a i deleteFiles w))
  = if uses_workaround a then fst (scheduleTransmissionRestart (restart w))
    else restart w.
Proof.
  unfold removeTorrent, uses_workaround.
  destruct (a_details_before a) as [t|m];
    destruct (a_remove a) as [u|m'];
    try destruct (a_details_after a) as [t'|m''];
    try destruct (Js.truthy (hashString t)) eqn:Hh;
    cbn -[workaround scheduleTransmissionRestart];
    rewrite ?Hh; cbn -[workaround scheduleTransmissionRestart];
    rewrite ?workaround_restart; reflexivity.
Qed.

Lemma armed_call h p d r s f t :
  scheduleTransmissionRestart (armed h p d r s f t) = (armed h p d r s f t, Some p).
Proof. reflexivity. Qed.

Lemma idle_call r s f t :
  fst (scheduleTransmissionRestart (State None None [] [] r s f t))
  = armed (S f) f (t + DEBOUNCE_MS) r s (S (S f)) t.
Proof. reflexivity. Qed.

Lemma armed_wait h p d r s f t dt :
  0 <= dt -> t + dt < d ->
  run [Advance dt; Fire] (armed h p d r s f t) = armed h p d r s f (t + dt).
Proof.
  intros H0 H1. unfold armed. cbn. unfold due. cbn.
  rewrite Z.max_r by lia.
  destruct (Z.leb_spec d (t + dt)); [lia | reflexivity].
Qed.

Lemma armed_fires h p d r s f t dt :
  0 <= dt -> d <= t + dt ->
  run [Advance dt; Fire; Done] (armed h p d r s f t)
  = State None None [] [] (S r) (s ++ [p]) f (t + dt).
Proof.
  intros H0 H1. unfold armed. cbn. unfold due. cbn.
  rewrite Z.max_r by lia.
  destruct (Z.leb_spec d (t + dt)); [reflexivity | lia].
Qed.

(** C7: in every state the module can reach, at most one restart is
    scheduled or running; a call that finds a restart scheduled schedules
    nothing and hands out the promise of the scheduled one; and three
    removals that take the workaround path within the debounce window
    share one promise and lead to exactly one restart of the daemon. *)
Theorem restart_is_debounced :
  (forall evs, (outstanding (run evs init) <= 1)%nat)
  /\ (forall evs h,
        restartTimeout (run evs init) = Some h ->
        scheduleTransmissionRestart (run evs init)
        = (run evs init, restartPromise (run evs init))
        /\ is_Some (restartPromise (run evs init)))
  /\ (forall a1 a2 a3 i1 i2 i3 f1 f2 f3 w0 d1 d2,
        uses_workaround a1 = true ->
        uses_workaround a2 = true ->
        uses_workaround a3 = true ->
        shape (restart w0) -> restartTimeout (restart w0) = None ->
        0 <= d1 -> 0 <= d2 -> d1 + d2 < DEBOUNCE_MS ->
        let w1 := snd (removeTorrent a1 i1 f1 w0) in
        let w2 := snd (removeTorrent a2 i2 f2 (wait d1 w1)) in
        let w3 := snd (removeTorrent a3 i3 f3 (wait d2 w2)) in
        let p := fresh (restart w0) in
        let fin := run [Advance (DEBOUNCE_MS - d1 - d2); Fire; Done] (restart w3) in
        restartPromise (restart w1) = Some p
        /\ restartPromise (restart w2) = Some p
        /\ restartPromise (restart w3) = Some p
        /\ pending (restart w3)
           = [Timer (S p) (now (restart w0) + DEBOUNCE_MS) p]
        /\ restarts (restart w3) = restarts (restart w0)
        /\ restarts fin = S (restarts (restart w0))
        /\ outstanding fin = 0%nat
        /\ restartTimeout fin = None
        /\ settled fin = settled (restart w0) ++ [p]).
Proof.
  split; [|split].
  - intros evs. apply shape_outstanding, shape_run, shape_init.
  - intros evs h Ht. pose proof (shape_run evs init shape_init) as Hs.
    unfold scheduleTransmissionRestart. rewrite Ht. split; [reflexivity|].
    destruct Hs as [Ht' | ? p ? _ Hp | ? p _ Hp]; [congruence | |]; rewrite Hp; eauto.
  - intros a1 a2 a3 i1 i2 i3 f1 f2 f3 w0 d1 d2 H1 H2 H3 Hs Ht Hd1 Hd2 Hd.
    cbv zeta. unfold wait. cbn [restart client log].
    repeat (progress (rewrite ?removeTorrent_restart, ?H1, ?H2, ?H3;
                      cbn [restart client log])).
    destruct (restart w0) as [rt rp pe fl r s f n].
    destruct Hs as [_ Hp Hpe Hf | ? ? ? Ht' | ? ? Ht'];
      cbn [restartTimeout restartPromise pending in_flight fresh now restarts
           settled] in *; try congruence.
    subst. rewrite !idle_call. unfold DEBOUNCE_MS in *.
    rewrite (armed_wait _ _ _ _ _ _ n d1), armed_call by lia. cbn [fst].
    rewrite (armed_wait _ _ _ _ _ _ (n + d1) d2), armed_call by lia. cbn [fst].
    rewrite armed_fires by lia.
    unfold outstanding. cbn. repeat split; reflexivity.
Qed.

Lemma restart_is_debounced_witness :
  let w1 := snd (removeTorrent remove_is_noop 5 true fresh_world) in
  let w2 := snd (removeTorrent remove_is_noop 6 true (wait 1000 w1)) in
  let w3 := snd (removeTorrent remove_is_noop 7 true (wait 1500 w2)) in
  restarts (run [Advance 500; Fire; Done] (restart w3)) = 1%nat.
Proof.
  pose proof restart_is_debounced as (_ & _ & H).
  specialize (H remove_is_noop remove_is_noop remove_is_noop 5 6 7 true true true
                fresh_world 1000 1500 eq_refl eq_refl eq_refl shape_init eq_refl).
  destruct H as (_ & _ & _ & _ & _ & H & _); [lia | lia | reflexivity |].
  exact H.
Defined.

End DebouncedRestart.

(** ** The egress guard *)

Section EgressGuard.
Import Rss.

(** What the guard does stop: another scheme, an address that one of the
    patterns matches, and a failing lookup; in none of these cases is a
    fetch sent. *)
Lemma parseFeed_guard (n : net) (u : string) (p : parsed_url) :
  n_url n u = Some p ->
  (protocol p <> "http:" -> protocol p <> "https:" ->
     parseFeed n u = (Err "Only HTTP and HTTPS URLs are allowed", []))
  /\ (forall address,
        (protocol p = "http:" \/ protocol p = "https:") ->
        n_dns n (hostname p) = Ok address -> isPrivateIP address = true ->
        parseFeed n u
        = (Err "Access to private/internal networks is not allowed",
           [DnsLookup (hostname p)]))
  /\ (forall m,
        (protocol p = "http:" \/ protocol p = "https:") ->
        n_dns n (hostname p) = Err m ->
        is_ok (fst (parseFeed n u)) = false
        /\ snd (parseFeed n u) = [DnsLookup (hostname p)]).
Proof.
  intros Hu. unfold parseFeed. rewrite Hu. split; [|split].
  - intros H1 H2. simpl.
    destruct (String.eqb_spec (protocol p) "http:"); [contradiction|].
    destruct (String.eqb_spec (protocol p) "https:"); [contradiction|].
    reflexivity.
  - intros address Hp Hd Hpriv.
    assert (existsb (String.eqb (protocol p)) ["http:"; "https:"] = true) as ->.
    { simpl. destruct Hp as [-> | ->]; reflexivity. }
    simpl. now rewrite Hd, Hpriv.
  - intros m Hp Hd.
    assert (existsb (String.eqb (protocol p)) ["http:"; "https:"] = true) as ->.
    { simpl. destruct Hp as [-> | ->]; reflexivity. }
    simpl. rewrite Hd. destruct (Js.includes m "private"); split; reflexivity.
Qed.

(** The IPv4 ranges named by the egress property are matched whatever
    follows the prefix. *)
Lemma isPrivateIP_ipv4 (rest : string) :
  isPrivateIP ("127." ++ rest) = true
  /\ isPrivateIP ("10." ++ rest) = true
  /\ isPrivateIP ("169.254." ++ rest) = true
  /\ isPrivateIP ("192.168." ++ rest) = true.
Proof.
  unfold isPrivateIP, PRIVATE_IP_RANGES, starts. cbn [existsb].
  repeat split.
  - destruct rest; reflexivity.
  - destruct rest; reflexivity.
  - cbn. destruct rest; reflexivity.
  - cbn. destruct rest; reflexivity.
Qed.

(** C5, evaluated on the code: a host that resolves to the unique-local
    address fd12:3456:789a:1::1 (inside fc00::/7) is not matched by any
    pattern of [PRIVATE_IP_RANGES], which only know the literal prefixes
    fc00: and fd00:, and the fetch is sent; the same holds for the
    link-local address fe90::1 (inside fe80::/10). *)
Theorem parseFeed_fetches_unique_local :
  isPrivateIP "fd12:3456:789a:1::1" = false
  /\ parseFeed (resolving "http:" "tracker.internal" "fd12:3456:789a:1::1")
               "http://tracker.internal/rss"
     = (Ok [], [DnsLookup "tracker.internal"; Fetch "http://tracker.internal/rss"])
  /\ isPrivateIP "fe90::1" = false
  /\ parseFeed (resolving "http:" "printer.internal" "fe90::1")
               "http://printer.internal/rss"
     = (Ok [], [DnsLookup "printer.internal"; Fetch "http://printer.internal/rss"]).
Proof. repeat split; vm_compute; reflexivity. Qed.

End EgressGuard.

(** ** The matcher *)

Section MatcherFacts.
Import Rss.
Variable RegExp : string -> string -> result (string -> bool).
Variable parseInt : string -> option Z.

Lemma extract_url_priority (it : item) :
  snd (extract_url it) = declared_size it
  /\ (Js.truthy (enclosure_url it) = true ->
        fst (extract_url it) = enclosure_url it)
  /\ (Js.truthy (enclosure_url it) = false ->
      Js.truthy (link it) = true ->
      Js.endsWith (Transmission.str (link it)) ".torrent" = true ->
        fst (extract_url it) = link it)
  /\ (Js.truthy (enclosure_url it) = false ->
      Js.truthy (link it) = true ->
      Js.endsWith (Transmission.str (link it)) ".torrent" = false ->
      has_download_marker (Transmission.str (link it)) = true ->
        fst (extract_url it) = link it)
  /\ (Js.truthy (enclosure_url it) = false ->
      (Js.truthy (link it) = false
       \/ (Js.endsWith (Transmission.str (link it)) ".torrent" = false
           /\ has_download_marker (Transmission.str (link it)) = false)) ->
        Js.truthy (fst (extract_url it)) = false).
Proof.
  unfold extract_url, enclosure_url, declared_size, torrent_enclosure.
  destruct (match enclosures it with
            | Some es => List.find is_torrent_enclosure es
            | None => None
            end) as [e|]; cbn [fst snd].
  - split; [reflexivity|].
    destruct (Js.truthy (e_url e)) eqn:Hu; cbn [negb andb].
    + rewrite Hu. cbn. repeat split; intros; try discriminate; reflexivity.
    + destruct (Js.truthy (link it)) eqn:Hl; cbn [andb];
        destruct (Js.endsWith (Transmission.str (link it)) ".torrent") eqn:He;
        rewrite ?Hu, ?Hl; cbn [negb andb];
        destruct (has_download_marker (Transmission.str (link it))) eqn:Hm;
        rewrite ?Hu, ?Hl; cbn [negb andb fst];
        repeat split; intros; try discriminate; try reflexivity; try assumption;
        intuition discriminate.
  - split; [reflexivity|]. cbn [Js.truthy negb andb].
    destruct (Js.truthy (link it)) eqn:Hl; cbn [andb];
      destruct (Js.endsWith (Transmission.str (link it)) ".torrent") eqn:He;
      rewrite ?Hl; cbn [Js.truthy negb andb];
      destruct (has_download_marker (Transmission.str (link it))) eqn:Hm;
      rewrite ?Hl; cbn [Js.truthy negb andb fst];
      repeat split; intros; try discriminate; try reflexivity; try assumption;
      intuition discriminate.
Qed.

(** C4: [matchesRules] checks in this order and stops at the first
    failure.  (1) The title against the pattern, compiled with the
    case-insensitive flag: no match gives the reason 'regex'.  (2) A
    download URL: the URL of the first enclosure with the torrent media
    type or a .torrent URL, else the link when it ends in .torrent, else
    the link when it contains a download marker; none gives the reason
    'no-torrent-link'.  (3) Only when a size is declared: it must lie in
    [minSize, maxSize], bounds included, otherwise the reason is 'size';
    without a declared size the item matches. *)
Theorem matchesRules_short_circuit (it : item) (r : rules) (test : string -> bool) :
  RegExp (regex r) "i" = Ok test ->
  (test (Transmission.str (title it)) = false ->
     matchesRules RegExp parseInt it r = NoMatch "regex" None)
  /\ (test (Transmission.str (title it)) = true ->
      (Js.truthy (fst (extract_url it)) = false ->
         matchesRules RegExp parseInt it r = NoMatch "no-torrent-link" None)
      /\ (Js.truthy (fst (extract_url it)) = true ->
          (Js.truthy (declared_size it) = false ->
             matchesRules RegExp parseInt it r
             = Matches (Transmission.str (fst (extract_url it))))
          /\ (forall size,
                Js.truthy (declared_size it) = true ->
                parseInt (Transmission.str (declared_size it)) = Some size ->
                ((minSize r <= size <= maxSize r)%Z ->
                   matchesRules RegExp parseInt it r
                   = Matches (Transmission.str (fst (extract_url it))))
                /\ ((size < minSize r \/ maxSize r < size)%Z ->
                      matchesRules RegExp parseInt it r = NoMatch "size" None))))
  /\ (Js.truthy (enclosure_url it) = true ->
        fst (extract_url it) = enclosure_url it)
  /\ (Js.truthy (enclosure_url it) = false ->
      Js.truthy (link it) = true ->
      Js.endsWith (Transmission.str (link it)) ".torrent" = true ->
        fst (extract_url it) = link it)
  /\ (Js.truthy (enclosure_url it) = false ->
      Js.truthy (link it) = true ->
      Js.endsWith (Transmission.str (link it)) ".torrent" = false ->
      has_download_marker (Transmission.str (link it)) = true ->
        fst (extract_url it) = link it)
  /\ (Js.truthy (enclosure_url it) = false ->
      (Js.truthy (link it) = false
       \/ (Js.endsWith (Transmission.str (link it)) ".torrent" = false
           /\ has_download_marker (Transmission.str (link it)) = false)) ->
        Js.truthy (fst (extract_url it)) = false).
Proof.
  intros Hre.
  destruct (extract_url_priority it) as (Hsize & P1 & P2 & P3 & P4).
  split; [|split; [|repeat split; assumption]].
  - intros Ht. unfold matchesRules. now rewrite Hre, Ht.
  - intros Ht. unfold matchesRules. rewrite Hre, Ht. cbn [negb].
    rewrite <- Hsize.
    destruct (extract_url it) as [torrentUrl torrentSize]. cbn [fst snd].
    split.
    + intros Hu. now rewrite Hu.
    + intros Hu. rewrite Hu. cbn [negb]. split.
      * intros Hs. now rewrite Hs.
      * intros size Hs Hp. rewrite Hs, Hp. split.
        -- intros [Hlo Hhi].
           destruct (Z.ltb_spec size (minSize r)); [lia|].
           destruct (Z.ltb_spec (maxSize r) size); [lia|]. reflexivity.
        -- intros [Hlo | Hhi].
           ++ destruct (Z.ltb_spec size (minSize r)); [reflexivity | lia].
           ++ destruct (Z.ltb_spec (maxSize r) size); [|lia].
              now rewrite orb_true_r.
Qed.

End MatcherFacts.

Section MatcherExample.
Import Rss.

Lemma matchesRules_short_circuit_witness :
  matchesRules contains_ci parse_size episode_one episode_rule
  = Matches "http://tracker.example/t/1.torrent".
Proof.
  destruct (matchesRules_short_circuit contains_ci parse_size
              episode_one episode_rule _ eq_refl) as (_ & H & _).
  destruct (H eq_refl) as (_ & H1).
  destruct (H1 eq_refl) as (_ & H2).
  destruct (H2 500000000%Z eq_refl eq_refl) as (H3 & _).
  apply H3. unfold episode_rule. cbn. lia.
Defined.

End MatcherExample.

(** ** The feed poll *)

Section PollFacts.
Import Rss.
Variable RegExp : string -> string -> result (string -> bool).
Variable parseInt : string -> option Z.
Variable md5 : string -> string.

Abbreviation poll_items := (Rss.poll_items RegExp parseInt md5).
Abbreviation pollFeed := (Rss.pollFeed RegExp parseInt md5).
Abbreviation getItemHash := (Rss.getItemHash md5).

Lemma marked_before_nil : marked_before [].
Proof. intros [|? ?] h u post H; discriminate. Qed.

Lemma marked_before_mark h tr :
  marked_before tr -> marked_before (MarkSeen h :: tr).
Proof.
  intros H [|e pre] h' u post E; [discriminate|].
  injection E as <- E. right. eapply H, E.
Qed.

Lemma marked_before_add h u tr :
  marked_before tr -> marked_before (MarkSeen h :: AddUrl h u :: tr).
Proof.
  intros H [|e1 [|e2 pre]] h' u' post E; [discriminate| |].
  - injection E as <- E _ _. subst. now left.
  - injection E as <- <- E. right. right. eapply H, E.
Qed.

Lemma extends_refl st : extends st st.
Proof.
  exists []. rewrite app_nil_r. repeat split; auto using marked_before_nil.
  - intros d [].
  - intros h [].
Qed.

Lemma is_Some_insert (m : gmap string seen) h x k :
  is_Some (m !! k) -> is_Some (<[h := x]> m !! k).
Proof.
  intros H. destruct (decide (h = k)) as [->|Hne].
  - rewrite lookup_insert_eq. eauto.
  - now rewrite lookup_insert_ne.
Qed.

Lemma extends_turn st st1 st' : turn st st1 -> extends st1 st' -> extends st st'.
Proof.
  intros T (delta & Htr & Hns & Hmb & Hmk & Hmono).
  destruct T as [Et Es | h x Et Es | h x u Et Es].
  - exists delta. rewrite Htr, Et. repeat split; auto.
    intros k Hk. apply Hmono. now rewrite Es.
  - exists (MarkSeen h :: delta). rewrite Htr, Et, <- app_assoc.
    repeat split; auto using marked_before_mark.
    + intros d [C|C]; [discriminate | exact (Hns d C)].
    + intros k [C|C]; [|auto]. injection C as <-. apply Hmono.
      rewrite Es, lookup_insert_eq. eauto.
    + intros k Hk. apply Hmono. rewrite Es. now apply is_Some_insert.
  - exists (MarkSeen h :: AddUrl h u :: delta). rewrite Htr, Et, <- !app_assoc.
    repeat split; auto using marked_before_add.
    + intros d [C|[C|C]]; [discriminate | discriminate | exact (Hns d C)].
    + intros k [C|[C|C]]; [|discriminate|auto]. injection C as <-. apply Hmono.
      rewrite Es, lookup_insert_eq. eauto.
    + intros k Hk. apply Hmono. rewrite Es. now apply is_Some_insert.
Qed.

Lemma poll_items_extends e feedId f existing items :
  forall st, extends st (fst (poll_items e feedId f existing items st)).
Proof.
  induction items as [|it rest IH]; intros st; cbn [Rss.poll_items].
  - apply extends_refl.
  - destruct (getItemHash it) as [hash|m]; [|apply extends_refl].
    destruct (l_seen st !! hash) as [x|] eqn:Hseen.
    + eapply extends_turn; [|apply IH]. now apply turn_skip.
    + destruct (matchesRules RegExp parseInt it (f_rules f)) as [u|? ?].
      * destruct (existsb _ existing).
        -- eapply extends_turn; [|apply IH]. eapply turn_mark; reflexivity.
        -- destruct (pe_add e (l_adds st) u) as [t|m];
             (eapply extends_turn; [|apply IH]); eapply turn_add; reflexivity.
      * eapply extends_turn; [|apply IH]. eapply turn_mark; reflexivity.
Qed.

(** A loop that ends without an exception leaves every item known. *)
Lemma poll_items_all_known e feedId f existing items :
  forall st st',
    poll_items e feedId f existing items st = (st', None) ->
    Forall (known md5 (l_seen st')) items.
Proof.
  induction items as [|it rest IH]; intros st st' H; [constructor|].
  cbn [Rss.poll_items] in H.
  destruct (getItemHash it) as [hash|m] eqn:Hh; [|discriminate].
  assert (Hmono : forall st1,
            is_Some (l_seen st1 !! hash) ->
            poll_items e feedId f existing rest st1 = (st', None) ->
            Forall (known md5 (l_seen st')) (it :: rest)).
  { intros st1 Hk H1. constructor; [|eapply IH, H1].
    exists hash. split; [exact Hh|].
    pose proof (poll_items_extends e feedId f existing rest st1) as (_ & _ & _ & _ & _ & Hm).
    rewrite H1 in Hm. now apply Hm. }
  destruct (l_seen st !! hash) as [x|] eqn:Hseen.
  - eapply Hmono, H. cbn. rewrite Hseen. eauto.
  - destruct (matchesRules RegExp parseInt it (f_rules f)) as [u|? ?].
    + destruct (existsb _ existing).
      * eapply Hmono, H. cbn. rewrite lookup_insert_eq. eauto.
      * destruct (pe_add e (l_adds st) u) as [t|m];
          (eapply Hmono, H); cbn; rewrite lookup_insert_eq; eauto.
    + eapply Hmono, H. cbn. rewrite lookup_insert_eq. eauto.
Qed.

(** When every item is known, the loop only counts. *)
Lemma poll_items_all_seen e feedId f existing items :
  forall st,
    Forall (known md5 (l_seen st)) items ->
    poll_items e feedId f existing items st = (skipped (length items) st, None).
Proof.
  induction items as [|it rest IH]; intros st H.
  - destruct st as [? ? ? [? ? ? ? ?] ? ? ? ?]. reflexivity.
  - inversion H as [|? ? (h & Hh & [x Hx]) Hrest]; subst.
    cbn [Rss.poll_items]. rewrite Hh, Hx. rewrite IH by exact Hrest.
    unfold skipped. cbn. now rewrite Nat.add_succ_r.
Qed.

Lemma split_before_last (A : Type) (l pre post : list A) (x y : A) :
  x <> y -> l ++ [x] = pre ++ y :: post ->
  exists post', l = pre ++ y :: post' /\ post = post' ++ [x].
Proof.
  intros Hxy E. destruct (exists_last (l := y :: post)) as (q & z & Eq); [discriminate|].
  rewrite Eq in E. rewrite app_assoc in E. apply app_inj_tail in E as [-> ->].
  destruct post as [|p post] using rev_ind.
  - destruct q; [injection Eq as ->; congruence|].
    injection Eq as _ Eq. destruct q; discriminate.
  - clear IHpost. rewrite app_comm_cons in Eq. apply app_inj_tail in Eq as [<- <-].
    exists post. split; reflexivity.
Qed.

(** The trace of a poll: marks and requests, then at most one write. *)
Lemma pollFeed_trace e feedId d metadata :
  exists delta,
    no_save delta /\ marked_before delta
    /\ ((exists m, o_result (pollFeed e feedId d metadata) = Err m
                  /\ o_trace (pollFeed e feedId d metadata) = delta
                  /\ o_disk (pollFeed e feedId d metadata) = d)
        \/ (exists rs, o_result (pollFeed e feedId d metadata) = Ok rs
                  /\ o_trace (pollFeed e feedId d metadata)
                     = delta ++ [Save (o_disk (pollFeed e feedId d metadata))]
                  /\ forall h, In (MarkSeen h) delta ->
                       is_Some (seenItems (o_disk (pollFeed e feedId d metadata)) !! h))).
Proof.
  assert (Hnil : no_save [] /\ marked_before [])
    by (split; [intros ? [] | apply marked_before_nil]).
  unfold Rss.pollFeed.
  destruct (findIndex feedId (feeds d)) as [ix|];
    [|exists []; repeat split; try apply Hnil; left; eauto].
  destruct (feeds d !! ix) as [f|];
    [|exists []; repeat split; try apply Hnil; left; eauto].
  destruct (parseFeed (pe_net e) (url f)) as [[items|m] reqs];
    [|exists []; repeat split; try apply Hnil; left; eauto].
  destruct (Transmission.getTorrents (pe_torrents e)) as [existing|m];
    [|exists []; repeat split; try apply Hnil; left; eauto].
  match goal with |- context [Rss.poll_items _ _ _ e feedId f existing items ?s0] =>
    pose proof (poll_items_extends e feedId f existing items s0) as (delta & Ht & Hns & Hmb & Hmk & _);
    destruct (poll_items e feedId f existing items s0) as [st [m|]] end;
    cbn [fst l_trace app] in Ht; exists delta; (split; [exact Hns|split; [exact Hmb|]]).
  - left. exists m. cbn. auto.
  - right. eexists. cbn. rewrite Ht. repeat split. exact Hmk.
Qed.

(** C2 as amended: before the download request for an item is issued its
    fingerprint has been recorded in the in-memory ledger, and the store
    has not been written; a poll that completes writes the store once, at
    its end, with every fingerprint marked during the poll; a poll that
    fails writes nothing. *)
Theorem pollFeed_marks_in_memory_saves_at_end
    (e : poll_env) (feedId : Z) (d : data) (metadata : TorrentMetadata.ledger) :
  (forall pre h u post,
     o_trace (pollFeed e feedId d metadata) = pre ++ AddUrl h u :: post ->
     In (MarkSeen h) pre /\ no_save pre)
  /\ (forall rs,
        o_result (pollFeed e feedId d metadata) = Ok rs ->
        exists pre,
          o_trace (pollFeed e feedId d metadata)
          = pre ++ [Save (o_disk (pollFeed e feedId d metadata))]
          /\ no_save pre
          /\ forall h, In (MarkSeen h) pre ->
               is_Some (seenItems (o_disk (pollFeed e feedId d metadata)) !! h))
  /\ (forall m,
        o_result (pollFeed e feedId d metadata) = Err m ->
        o_disk (pollFeed e feedId d metadata) = d
        /\ no_save (o_trace (pollFeed e feedId d metadata))).
Proof.
  destruct (pollFeed_trace e feedId d metadata)
    as (delta & Hns & Hmb & [(m & Hr & Ht & Hd) | (rs & Hr & Ht & Hk)]).
  - split; [|split].
    + intros pre h u post E. rewrite Ht in E. split; [eapply Hmb, E|].
      intros d' Hin. apply (Hns d'). rewrite E. apply in_or_app. now left.
    + intros rs C. congruence.
    + intros m' _. rewrite Ht. auto.
  - split; [|split].
    + intros pre h u post E. rewrite Ht in E.
      apply split_before_last in E as (post' & E & _); [|discriminate].
      split; [eapply Hmb, E|].
      intros d' Hin. apply (Hns d'). rewrite E. apply in_or_app. now left.
    + intros rs' _. exists delta. auto.
    + intros m C. congruence.
Qed.

Lemma findIndex_insert i fs ix g :
  findIndex i fs = Some ix -> f_id g = i ->
  findIndex i (<[ix := g]> fs) = Some ix.
Proof.
  revert ix. induction fs as [|f fs IH]; intros ix H Hg; simpl in H; [discriminate|].
  destruct (Z.eqb_spec (f_id f) i) as [E|NE].
  - injection H as <-. simpl. now rewrite Hg, Z.eqb_refl.
  - destruct (findIndex i fs) as [k|] eqn:Hk; [|discriminate].
    injection H as <-. simpl.
    destruct (Z.eqb_spec (f_id f) i); [contradiction|].
    now rewrite (IH k eq_refl Hg).
Qed.

Lemma matched_of_insert i fs ix f g seen' n :
  findIndex i fs = Some ix -> fs !! ix = Some f -> f_id g = i ->
  matched_of i (Data (<[ix := g]> fs) seen' n) = Some (matched_count g).
Proof.
  intros Hix Hf Hg. unfold matched_of. cbn [feeds].
  rewrite (findIndex_insert _ _ _ _ Hix Hg).
  rewrite list_lookup_insert_eq by (eapply lookup_lt_Some; eauto).
  reflexivity.
Qed.

(** What a completed poll went through. *)
Lemma pollFeed_ok_inv e feedId d metadata rs :
  o_result (pollFeed e feedId d metadata) = Ok rs ->
  exists ix f items reqs existing st,
    findIndex feedId (feeds d) = Some ix
    /\ feeds d !! ix = Some f
    /\ parseFeed (pe_net e) (url f) = (Ok items, reqs)
    /\ poll_items e feedId f existing items
         (LoopState (seenItems d) (matched_count f) [] no_summary metadata 0 0 [])
       = (st, None)
    /\ o_disk (pollFeed e feedId d metadata)
       = Data (<[ix := Feed (f_id f) (url f) (f_rules f) (f_added_at f)
                         (Some (pe_clock e (l_ticks st))) (l_matched st)]>
                 (feeds d))
              (l_seen st) (nextId d).
Proof.
  unfold Rss.pollFeed.
  destruct (findIndex feedId (feeds d)) as [ix|] eqn:Hix; [|discriminate].
  destruct (feeds d !! ix) as [f|] eqn:Hf; [|discriminate].
  destruct (parseFeed (pe_net e) (url f)) as [[items|m] reqs] eqn:Hp;
    [|discriminate].
  destruct (Transmission.getTorrents (pe_torrents e)) as [ex|m]; [|discriminate].
  destruct (poll_items e feedId f ex items _) as [st [m|]] eqn:Hloop;
    [discriminate|].
  intros _. exists ix, f, items, reqs, ex, st. repeat split; auto.
Qed.

(** C6: after a poll that completed and saved the store, a second poll
    against the same feed document sends no download request, leaves the
    matched-item counter, the seen-ledger and the ownership ledger as
    they are, and, when it runs through, counts every item as already
    seen. *)
Theorem second_poll_is_idempotent
    (e1 e2 : poll_env) (feedId : Z) (d : data)
    (md1 md2 : TorrentMetadata.ledger) (rs : list poll_result) :
  o_result (pollFeed e1 feedId d md1) = Ok rs ->
  (forall u, fst (parseFeed (pe_net e2) u) = fst (parseFeed (pe_net e1) u)) ->
  no_request (o_trace (pollFeed e2 feedId (o_disk (pollFeed e1 feedId d md1)) md2))
  /\ matched_of feedId
       (o_disk (pollFeed e2 feedId (o_disk (pollFeed e1 feedId d md1)) md2))
     = matched_of feedId (o_disk (pollFeed e1 feedId d md1))
  /\ seenItems (o_disk (pollFeed e2 feedId (o_disk (pollFeed e1 feedId d md1)) md2))
     = seenItems (o_disk (pollFeed e1 feedId d md1))
  /\ o_ledger (pollFeed e2 feedId (o_disk (pollFeed e1 feedId d md1)) md2) = md2
  /\ exists f items,
       In f (feeds d) /\ f_id f = feedId
       /\ fst (parseFeed (pe_net e1) (url f)) = Ok items
       /\ (is_ok (pe_torrents e2) = true ->
           o_result (pollFeed e2 feedId (o_disk (pollFeed e1 feedId d md1)) md2)
           = Ok []
           /\ o_summary (pollFeed e2 feedId (o_disk (pollFeed e1 feedId d md1)) md2)
              = Summary (length items) 0 0 0 0).
Proof.
  intros H1 Hsame.
  destruct (pollFeed_ok_inv _ _ _ _ _ H1)
    as (ix & f & items & reqs1 & ex1 & st & Hix & Hf & Hp1 & Hloop & Hdisk).
  pose proof (poll_items_all_known _ _ _ _ _ _ _ Hloop) as Hknown.
  rewrite Hdisk. clear H1 Hdisk.
  set (f1 := Feed (f_id f) (url f) (f_rules f) (f_added_at f)
                  (Some (pe_clock e1 (l_ticks st))) (l_matched st)).
  set (d1 := Data (<[ix := f1]> (feeds d)) (l_seen st) (nextId d)).
  destruct (findIndex_Some _ _ _ Hix) as (f0 & Hf0 & Hid & _).
  assert (f0 = f) by congruence. subst f0.
  assert (Hix1 : findIndex feedId (feeds d1) = Some ix)
    by (apply findIndex_insert; [exact Hix | exact Hid]).
  assert (Hf1 : feeds d1 !! ix = Some f1)
    by (apply list_lookup_insert_eq; eapply lookup_lt_Some; eauto).
  assert (Hm1 : matched_of feedId d1 = Some (l_matched st))
    by (apply (matched_of_insert _ _ _ f); auto).
  assert (Hwit : In f (feeds d))
    by (apply list_elem_of_In; eapply list_elem_of_lookup_2; eauto).
  unfold Rss.pollFeed. rewrite Hix1, Hf1.
  change (url f1) with (url f).
  pose proof (Hsame (url f)) as Hp2. rewrite Hp1 in Hp2. cbn [fst] in Hp2.
  destruct (parseFeed (pe_net e2) (url f)) as [r2 reqs2]. cbn [fst] in Hp2. subst r2.
  destruct (pe_torrents e2) as [ex2|m]; unfold Transmission.getTorrents.
  - rewrite poll_items_all_seen by exact Hknown.
    cbn [o_trace o_disk o_ledger o_result o_summary skipped l_seen l_matched
         l_results l_summary l_ledger l_ticks l_trace seenItems matched_count
         skippedAlreadySeen skippedNoMatch skippedAlreadyExists addedNew
         failedToAdd no_summary app].
    split; [|split; [|split; [reflexivity|split; [reflexivity|]]]].
    + intros h u [C|[]]. discriminate.
    + rewrite Hm1. erewrite matched_of_insert; eauto.
    + exists f, items. rewrite Nat.add_0_r, Hp1. repeat split; auto.
  - cbn [o_trace o_disk o_ledger o_result o_summary].
    split; [intros h u []|]. repeat split; auto.
    exists f, items. rewrite Hp1. repeat split; auto; discriminate.
Qed.

End PollFacts.

(** ** A poll of one feed, run on an example *)

Section PollExample.
Import Rss.

(** C2 as stated fails: in the poll of the example the download request
    for the first item is issued while the store has not been written;
    the only write comes at the end of the poll. *)
Lemma pollFeed_requests_before_saving :
  ~ durable_before_request (o_trace first_poll).
Proof.
  intros H.
  destruct (H [MarkSeen "73defb1279655c56c3d3f294ba9c12f2"]
              "73defb1279655c56c3d3f294ba9c12f2"
              "http://tracker.example/t/1.torrent"
              (skipn 2 (o_trace first_poll)))
    as (d & [C|[]] & _).
  - vm_compute. reflexivity.
  - discriminate.
Qed.

Lemma pollFeed_marks_in_memory_saves_at_end_witness :
  In (MarkSeen "73defb1279655c56c3d3f294ba9c12f2")
     [MarkSeen "73defb1279655c56c3d3f294ba9c12f2"]
  /\ no_save [MarkSeen "73defb1279655c56c3d3f294ba9c12f2"].
Proof.
  apply (proj1 (pollFeed_marks_in_memory_saves_at_end contains_ci parse_size
                  md5_table example_env 1 one_feed ∅)
           [MarkSeen "73defb1279655c56c3d3f294ba9c12f2"]
           "73defb1279655c56c3d3f294ba9c12f2"
           "http://tracker.example/t/1.torrent"
           (skipn 2 (o_trace first_poll))).
  vm_compute. reflexivity.
Defined.

Lemma second_poll_is_idempotent_witness :
  no_request
    (o_trace (pollFeed contains_ci parse_size md5_table example_env 1
                       (o_disk first_poll) ∅))
  /\ matched_of 1 (o_disk (pollFeed contains_ci parse_size md5_table example_env 1
                                    (o_disk first_poll) ∅))
     = matched_of 1 (o_disk first_poll).
Proof.
  destruct (second_poll_is_idempotent contains_ci parse_size md5_table
              example_env example_env 1 one_feed ∅ ∅
              [Added (Some "Show.S01E01.mkv") 12])
    as (H1 & H2 & _).
  - vm_compute. reflexivity.
  - reflexivity.
  - split; [exact H1 | exact H2].
Defined.

(** When the process stops right after the download request, the store
    on disk is the one the poll started from, and the next poll of the
    same document requests the same download again. *)
Lemma crash_after_request_downloads_again :
  firstn 2 (o_trace first_poll)
  = [MarkSeen "73defb1279655c56c3d3f294ba9c12f2";
     AddUrl "73defb1279655c56c3d3f294ba9c12f2" "http://tracker.example/t/1.torrent"]
  /\ disk_after one_feed (firstn 2 (o_trace first_poll)) = one_feed
  /\ In (AddUrl "73defb1279655c56c3d3f294ba9c12f2"
                "http://tracker.example/t/1.torrent")
        (o_trace (pollFeed contains_ci parse_size md5_table example_env 1
                    (disk_after one_feed (firstn 2 (o_trace first_poll))) ∅)).
Proof.
  split; [vm_compute; reflexivity|]. split; [vm_compute; reflexivity|].
  vm_compute. right. left. reflexivity.
Qed.

End PollExample.

(** ** The store operations *)

Section StoreFacts.
Import Rss RssStore.

Lemma ids_insert (fs : list feed) ix f g :
  fs !! ix = Some f -> f_id g = f_id f ->
  map f_id (<[ix := g]> fs) = map f_id fs.
Proof.
  revert ix. induction fs as [|h fs IH]; intros [|ix] H E; simpl in *;
    try discriminate.
  - injection H as ->. now rewrite E.
  - now rewrite (IH ix H E).
Qed.

Lemma ids_bounded_insert (fs : list feed) ix f g (n : Z) :
  fs !! ix = Some f -> f_id g = f_id f ->
  List.Forall (fun x => (f_id x < n)%Z) fs ->
  List.Forall (fun x => (f_id x < n)%Z) (<[ix := g]> fs).
Proof.
  intros H E Hall. rewrite List.Forall_forall in *.
  intros x Hx. apply list_elem_of_In, list_elem_of_lookup in Hx as [j Hj].
  destruct (decide (ix = j)) as [<-|Hne].
  - rewrite list_lookup_insert_eq in Hj by (eapply lookup_lt_Some; eauto).
    injection Hj as <-. rewrite E. apply Hall.
    apply list_elem_of_In. eapply list_elem_of_lookup_2; eauto.
  - rewrite list_lookup_insert_ne in Hj by exact Hne.
    apply Hall, list_elem_of_In. eapply list_elem_of_lookup_2; eauto.
Qed.

Lemma find_id_absent (i : Z) (fs : list feed) :
  ~ In i (map f_id fs) -> List.find (fun f => (f_id f =? i)%Z) fs = None.
Proof.
  induction fs as [|f fs IH]; intros H; simpl; [reflexivity|].
  destruct (Z.eqb_spec (f_id f) i) as [E|NE].
  - exfalso. apply H. left. exact E.
  - apply IH. intros C. apply H. now right.
Qed.

Lemma find_id_app (i : Z) (fs gs : list feed) :
  List.find (fun f => (f_id f =? i)%Z) (fs ++ gs)
  = match List.find (fun f => (f_id f =? i)%Z) fs with
    | Some f => Some f
    | None => List.find (fun f => (f_id f =? i)%Z) gs
    end.
Proof.
  induction fs as [|f fs IH]; simpl; [reflexivity|].
  destruct (f_id f =? i)%Z; [reflexivity | exact IH].
Qed.

Lemma getFeed_findIndex (i : Z) (d : data) :
  getFeed i d = match findIndex i (feeds d) with
                | Some ix => feeds d !! ix
                | None => None
                end.
Proof.
  unfold getFeed. induction (feeds d) as [|f fs IH]; simpl; [reflexivity|].
  destruct (f_id f =? i)%Z; [reflexivity|].
  rewrite IH. destruct (findIndex i fs); reflexivity.
Qed.

Lemma ids_below (d : data) :
  store_ok d -> ~ In (nextId d) (map f_id (feeds d)).
Proof.
  intros [_ Hb] Hin. apply in_map_iff in Hin as (f & E & Hf).
  rewrite List.Forall_forall in Hb. specialize (Hb f Hf). lia.
Qed.

(** X1.  [addFeed] on a store whose identifiers are unique and below the
    counter: the new feed gets the counter as identifier, which no feed
    of the store carries; the feed is appended, the counter moves on by
    one, the seen-ledger is untouched; afterwards [getFeed] finds the new
    feed under its identifier and finds under every other identifier what
    it found before; and the identifiers are again unique and below the
    counter. *)
Theorem addFeed_fresh_identifier (u : string) (r : rules_input) (now : Z) (d : data) :
  store_ok d ->
  f_id (fst (addFeed u r now d)) = nextId d
  /\ (forall g, In g (feeds d) -> f_id g <> f_id (fst (addFeed u r now d)))
  /\ feeds (snd (addFeed u r now d)) = feeds d ++ [fst (addFeed u r now d)]
  /\ nextId (snd (addFeed u r now d)) = (nextId d + 1)%Z
  /\ seenItems (snd (addFeed u r now d)) = seenItems d
  /\ getFeed (nextId d) (snd (addFeed u r now d)) = Some (fst (addFeed u r now d))
  /\ (forall i, i <> nextId d ->
        getFeed i (snd (addFeed u r now d)) = getFeed i d)
  /\ store_ok (snd (addFeed u r now d)).
Proof.
  intros Hok. pose proof (ids_below d Hok) as Hfresh.
  destruct Hok as [Hnd Hb]. cbn [addFeed fst snd f_id feeds nextId seenItems].
  split; [reflexivity|]. split.
  { intros g Hg E. apply Hfresh. rewrite <- E. now apply in_map. }
  split; [reflexivity|]. split; [reflexivity|]. split; [reflexivity|].
  split; [|split].
  - unfold getFeed. cbn [feeds]. rewrite find_id_app, find_id_absent by exact Hfresh.
    cbn. now rewrite Z.eqb_refl.
  - intros i Hi. unfold getFeed. cbn [feeds]. rewrite find_id_app.
    destruct (List.find _ (feeds d)); [reflexivity|].
    cbn. destruct (Z.eqb_spec (nextId d) i); [congruence | reflexivity].
  - split; cbn [feeds nextId].
    + rewrite map_app. cbn. apply NoDup_ListNoDup, NoDup_app.
      split; [now apply NoDup_ListNoDup|]. split.
      * intros x Hx Hx'. apply list_elem_of_In in Hx.
        apply list_elem_of_singleton in Hx'. subst. contradiction.
      * apply NoDup_singleton.
    + apply List.Forall_app. split.
      * eapply List.Forall_impl; [|exact Hb]. cbn. intros; lia.
      * constructor; [cbn; lia | constructor].
Qed.

Lemma ids_delete (fs : list feed) ix x :
  In x (map f_id (delete ix fs)) -> In x (map f_id fs).
Proof.
  revert ix. induction fs as [|f fs IH]; intros [|ix] H; simpl in *; auto.
  destruct H as [H|H]; [now left | right; eauto].
Qed.

Lemma nodup_ids_delete (fs : list feed) ix :
  List.NoDup (map f_id fs) -> List.NoDup (map f_id (delete ix fs)).
Proof.
  revert ix. induction fs as [|f fs IH]; intros [|ix] H; simpl in *; auto.
  - now apply List.NoDup_cons_iff in H.
  - apply List.NoDup_cons_iff in H as [Hf Hn]. constructor; [|auto].
    intros C. apply Hf. eapply ids_delete, C.
Qed.

Lemma id_gone (fs : list feed) ix f :
  List.NoDup (map f_id fs) -> fs !! ix = Some f ->
  ~ In (f_id f) (map f_id (delete ix fs)).
Proof.
  revert ix. induction fs as [|g fs IH]; intros [|ix] Hn H; simpl in *;
    try discriminate; apply List.NoDup_cons_iff in Hn as [Hg Hn].
  - injection H as ->. exact Hg.
  - intros [C|C]; [|exact (IH ix Hn H C)].
    apply Hg. rewrite C. apply in_map, list_elem_of_In.
    eapply list_elem_of_lookup_2; eauto.
Qed.

Lemma find_delete_other (fs : list feed) ix f j :
  fs !! ix = Some f -> f_id f <> j ->
  List.find (fun x => (f_id x =? j)%Z) (delete ix fs)
  = List.find (fun x => (f_id x =? j)%Z) fs.
Proof.
  revert ix. induction fs as [|g fs IH]; intros [|ix] H Hne; simpl in *;
    try discriminate.
  - injection H as ->. destruct (Z.eqb_spec (f_id f) j); [contradiction | reflexivity].
  - destruct (f_id g =? j)%Z; [reflexivity | eauto].
Qed.

Lemma find_insert_other (fs : list feed) ix f g j :
  fs !! ix = Some f -> f_id g = f_id f -> f_id f <> j ->
  List.find (fun x => (f_id x =? j)%Z) (<[ix := g]> fs)
  = List.find (fun x => (f_id x =? j)%Z) fs.
Proof.
  revert ix. induction fs as [|h fs IH]; intros [|ix] H E Hne; simpl in *;
    try discriminate.
  - injection H as ->. rewrite E.
    destruct (Z.eqb_spec (f_id f) j); [contradiction | reflexivity].
  - destruct (f_id h =? j)%Z; [reflexivity | eauto].
Qed.

Lemma getFeed_lookup (i : Z) (d : data) (f : feed) :
  getFeed i d = Some f ->
  exists ix, findIndex i (feeds d) = Some ix /\ feeds d !! ix = Some f /\ f_id f = i.
Proof.
  rewrite getFeed_findIndex. destruct (findIndex i (feeds d)) as [ix|] eqn:Hix;
    [|discriminate].
  intros Hf. exists ix. repeat split; auto.
  destruct (findIndex_Some _ _ _ Hix) as (g & Hg & Hid & _). congruence.
Qed.

Lemma in_delete (fs : list feed) ix x : In x (delete ix fs) -> In x fs.
Proof.
  revert ix. induction fs as [|f fs IH]; intros [|ix] H; simpl in *; auto.
  destruct H as [H|H]; [now left | right; eauto].
Qed.

Lemma store_ok_delete (d : data) ix :
  store_ok d -> store_ok (Data (delete ix (feeds d)) (seenItems d) (nextId d)).
Proof.
  intros [Hn Hb]. split; cbn [feeds nextId].
  - now apply nodup_ids_delete.
  - rewrite List.Forall_forall in *. intros x Hx. eapply Hb, in_delete, Hx.
Qed.

Lemma store_ok_insert (d : data) ix f g seen' :
  feeds d !! ix = Some f -> f_id g = f_id f ->
  store_ok d -> store_ok (Data (<[ix := g]> (feeds d)) seen' (nextId d)).
Proof.
  intros Hf E [Hn Hb]. split; cbn [feeds nextId].
  - now rewrite (ids_insert _ _ _ _ Hf E).
  - eapply ids_bounded_insert; eauto.
Qed.

(** X2.  [deleteFeed] on a store with unique identifiers.  An identifier
    that [getFeed] does not find gives 'Feed not found' and leaves the
    store as it is.  After a deletion that succeeded [getFeed] no longer
    finds the identifier, finds under every other identifier what it
    found before, a second deletion answers 'Feed not found', and the
    identifiers are still unique and below the counter. *)
Theorem deleteFeed_then_getFeed (i : Z) (d : data) :
  store_ok d ->
  (getFeed i d = None -> deleteFeed i d = (Err "Feed not found", d))
  /\ (is_Some (getFeed i d) ->
      fst (deleteFeed i d) = Ok true
      /\ getFeed i (snd (deleteFeed i d)) = None
      /\ (forall j, j <> i -> getFeed j (snd (deleteFeed i d)) = getFeed j d)
      /\ deleteFeed i (snd (deleteFeed i d))
         = (Err "Feed not found", snd (deleteFeed i d))
      /\ store_ok (snd (deleteFeed i d))).
Proof.
  intros Hok. split.
  - rewrite getFeed_findIndex. unfold deleteFeed.
    destruct (findIndex i (feeds d)) as [ix|] eqn:Hix; [|reflexivity].
    destruct (findIndex_Some _ _ _ Hix) as (g & Hg & _). congruence.
  - intros [f Hf]. destruct (getFeed_lookup _ _ _ Hf) as (ix & Hix & Hl & Hid).
    assert (Hgone : getFeed i (Data (delete ix (feeds d)) (seenItems d) (nextId d))
                    = None).
    { unfold getFeed. cbn [feeds]. apply find_id_absent. rewrite <- Hid.
      apply id_gone; [apply Hok | exact Hl]. }
    assert (E : deleteFeed i d
                = (Ok true, Data (delete ix (feeds d)) (seenItems d) (nextId d)))
      by (unfold deleteFeed; now rewrite Hix).
    rewrite E. cbn [fst snd].
    split; [reflexivity|]. split; [exact Hgone|]. split; [|split].
    + intros j Hj. unfold getFeed. cbn [feeds].
      apply (find_delete_other _ _ f); congruence.
    + rewrite getFeed_findIndex in Hgone. unfold deleteFeed.
      destruct (findIndex i (feeds (Data (delete ix (feeds d)) (seenItems d) (nextId d))))
        as [k|] eqn:Hk; [|reflexivity].
      destruct (findIndex_Some _ _ _ Hk) as (g & Hg & _). congruence.
    + now apply store_ok_delete.
Qed.

(** X3.  [updateFeed] on a feed that [getFeed] finds: the identifier, the
    creation time, the last-poll time and the matched-item counter of the
    feed stay; the seen-ledger, the counter and the order of the feeds
    stay; [getFeed] returns the updated feed under its identifier and
    what it returned before under every other; applying the same update
    again changes nothing; an update without fields changes nothing.  On
    an identifier that is not found the answer is 'Feed not found' and
    the store stays. *)
Theorem updateFeed_frame (i : Z) (u : updates) (d : data) :
  (getFeed i d = None -> updateFeed i u d = (Err "Feed not found", d))
  /\ (forall f, getFeed i d = Some f ->
      exists f',
        updateFeed i u d = (Ok f', snd (updateFeed i u d))
        /\ f_id f' = i
        /\ f_added_at f' = f_added_at f
        /\ last_poll f' = last_poll f
        /\ matched_count f' = matched_count f
        /\ seenItems (snd (updateFeed i u d)) = seenItems d
        /\ nextId (snd (updateFeed i u d)) = nextId d
        /\ map f_id (feeds (snd (updateFeed i u d))) = map f_id (feeds d)
        /\ getFeed i (snd (updateFeed i u d)) = Some f'
        /\ (forall j, j <> i ->
              getFeed j (snd (updateFeed i u d)) = getFeed j d)
        /\ updateFeed i u (snd (updateFeed i u d))
           = (Ok f', snd (updateFeed i u d))
        /\ updateFeed i (Updates None None) d = (Ok f, d)
        /\ (store_ok d -> store_ok (snd (updateFeed i u d)))).
Proof.
  split.
  - rewrite getFeed_findIndex. unfold updateFeed.
    destruct (findIndex i (feeds d)) as [ix|] eqn:Hix; [|reflexivity].
    destruct (findIndex_Some _ _ _ Hix) as (g & Hg & _). congruence.
  - intros f Hf. destruct (getFeed_lookup _ _ _ Hf) as (ix & Hix & Hl & Hid).
    assert (Hlt : (ix < length (feeds d))%nat) by (eapply lookup_lt_Some; eauto).
    set (f' := Feed (f_id f)
                 (if Js.truthy (up_url u) then Transmission.str (up_url u) else url f)
                 match up_rules u with
                 | Some r =>
                     Rules (defined_or (i_regex r) (regex (f_rules f)))
                           (defined_or (i_minSize r) (minSize (f_rules f)))
                           (defined_or (i_maxSize r) (maxSize (f_rules f)))
                           (defined_or (i_category r) (category (f_rules f)))
                 | None => f_rules f
                 end
                 (f_added_at f) (last_poll f) (matched_count f)).
    assert (E : updateFeed i u d
                = (Ok f', Data (<[ix := f']> (feeds d)) (seenItems d) (nextId d)))
      by (unfold updateFeed; now rewrite Hix, Hl).
    exists f'. rewrite E. cbn [snd seenItems nextId feeds].
    split; [reflexivity|]. split; [exact Hid|].
    do 3 (split; [reflexivity|]). do 2 (split; [reflexivity|]).
    split; [now apply (ids_insert _ _ f)|].
    split; [|split; [|split; [|split]]].
    + rewrite getFeed_findIndex. cbn [feeds].
      rewrite (findIndex_insert i (feeds d) ix f' Hix Hid).
      now apply list_lookup_insert_eq.
    + intros j Hj. unfold getFeed. cbn [feeds].
      apply (find_insert_other _ _ f); [exact Hl | reflexivity | congruence].
    + unfold updateFeed. cbn [feeds seenItems nextId].
      rewrite (findIndex_insert i (feeds d) ix f' Hix Hid).
      rewrite list_lookup_insert_eq by exact Hlt.
      rewrite list_insert_insert_eq.
      assert (Hsame : forall g, g = f' -> (Ok g, Data (<[ix := g]> (feeds d))
                        (seenItems d) (nextId d))
                = (Ok f', Data (<[ix := f']> (feeds d)) (seenItems d) (nextId d)))
        by (intros g ->; reflexivity).
      apply Hsame. unfold f'. cbn.
      destruct (Js.truthy (up_url u)); destruct (up_rules u) as [r|];
        try reflexivity;
        destruct (i_regex r), (i_minSize r), (i_maxSize r), (i_category r);
        reflexivity.
    + unfold updateFeed. rewrite Hix, Hl. cbn.
      destruct f as [a b [c1 c2 c3 c4] e g h]. cbn.
      rewrite (list_insert_id _ _ _ Hl). destruct d; reflexivity.
    + intros Hok. now apply (store_ok_insert d ix f).
Qed.

(** X4.  [markItemSeen] and [wasItemSeen]: a fingerprint that was marked
    is seen; the record written is the new one even when the fingerprint
    had a record (the last write wins); every other fingerprint is seen
    exactly when it was before; feeds and counter are untouched. *)
Theorem markItemSeen_then_wasItemSeen (h : string) (feedId now : Z) (d : data) :
  wasItemSeen h (markItemSeen h feedId now d) = true
  /\ seenItems (markItemSeen h feedId now d) !! h = Some (Seen feedId now)
  /\ (forall h', h' <> h ->
        seenItems (markItemSeen h feedId now d) !! h' = seenItems d !! h'
        /\ wasItemSeen h' (markItemSeen h feedId now d) = wasItemSeen h' d)
  /\ (forall feedId' now',
        markItemSeen h feedId now (markItemSeen h feedId' now' d)
        = markItemSeen h feedId now d)
  /\ feeds (markItemSeen h feedId now d) = feeds d
  /\ nextId (markItemSeen h feedId now d) = nextId d.
Proof.
  unfold wasItemSeen, markItemSeen. cbn [seenItems feeds nextId].
  rewrite lookup_insert_eq.
  split; [reflexivity|]. split; [reflexivity|]. split; [|split].
  - intros h' Hne. rewrite lookup_insert_ne by congruence. split; reflexivity.
  - intros feedId' now'. now rewrite insert_insert_eq.
  - split; reflexivity.
Qed.

End StoreFacts.

(** ** More on the feed poll *)

Section PollAccounting.
Import Rss RssStore.
Variable RegExp : string -> string -> result (string -> bool).
Variable parseInt : string -> option Z.
Variable md5 : string -> string.

Abbreviation poll_items := (Rss.poll_items RegExp parseInt md5).
Abbreviation pollFeed := (Rss.pollFeed RegExp parseInt md5).
Abbreviation getItemHash := (Rss.getItemHash md5).
Abbreviation matchesRules := (Rss.matchesRules RegExp parseInt).

Lemma requested_app tr1 tr2 : requested (tr1 ++ tr2) = requested tr1 ++ requested tr2.
Proof. apply flat_map_app. Qed.

(** The state the loop of [pollFeed] starts from. *)
Lemma pollFeed_cases e feedId d metadata :
  (o_trace (pollFeed e feedId d metadata) = []
   /\ o_disk (pollFeed e feedId d metadata) = d
   /\ o_ledger (pollFeed e feedId d metadata) = metadata
   /\ is_ok (o_result (pollFeed e feedId d metadata)) = false)
  \/ exists ix f items reqs existing st err,
       findIndex feedId (feeds d) = Some ix
       /\ feeds d !! ix = Some f
       /\ parseFeed (pe_net e) (url f) = (Ok items, reqs)
       /\ pe_torrents e = Ok existing
       /\ poll_items e feedId f existing items
            (LoopState (seenItems d) (matched_count f) [] no_summary metadata 0 0 [])
          = (st, err)
       /\ pollFeed e feedId d metadata
          = match err with
            | Some m => PollOutcome (Err m) d (l_summary st) (l_ledger st) reqs (l_trace st)
            | None =>
                let d' := Data (<[ix := Feed (f_id f) (url f) (f_rules f) (f_added_at f)
                                          (Some (pe_clock e (l_ticks st)))
                                          (l_matched st)]> (feeds d))
                               (l_seen st) (nextId d) in
                PollOutcome (Ok (l_results st)) d' (l_summary st) (l_ledger st) reqs
                            (l_trace st ++ [Save d'])
            end.
Proof.
  unfold Rss.pollFeed.
  destruct (findIndex feedId (feeds d)) as [ix|] eqn:Hix; [|left; repeat split].
  destruct (feeds d !! ix) as [f|] eqn:Hf; [|left; repeat split].
  destruct (parseFeed (pe_net e) (url f)) as [[items|m] reqs] eqn:Hp;
    [|left; repeat split].
  unfold Transmission.getTorrents.
  destruct (pe_torrents e) as [ex|m] eqn:Ht; [|left; repeat split].
  right.
  destruct (poll_items e feedId f ex items _) as [st err] eqn:Hloop.
  exists ix, f, items, reqs, ex, st, err. repeat split; auto.
Qed.

(** What one run of the loop adds up to. *)
Lemma poll_items_accounting e feedId f existing items :
  forall st st' err,
    poll_items e feedId f existing items st = (st', err) ->
    length (l_results st') + addedNew (l_summary st) + failedToAdd (l_summary st)
    = length (l_results st) + addedNew (l_summary st') + failedToAdd (l_summary st')
    /\ (l_matched st' + Z.of_nat (addedNew (l_summary st))
        = l_matched st + Z.of_nat (addedNew (l_summary st')))%Z
    /\ length (requested (l_trace st')) + addedNew (l_summary st)
       + failedToAdd (l_summary st)
       = length (requested (l_trace st)) + addedNew (l_summary st')
         + failedToAdd (l_summary st')
    /\ (err = None -> counted (l_summary st') = counted (l_summary st) + length items).
Proof.
  induction items as [|it rest IH]; intros st st' err H; cbn [Rss.poll_items] in H.
  - injection H as <- <-. cbn [length]. repeat split; intros; lia.
  - destruct (getItemHash it) as [hash|m].
    2:{ injection H as <- <-. repeat split; try lia. discriminate. }
    destruct (l_seen st !! hash) as [x|].
    { apply IH in H. unfold counted in *.
      cbn [l_results l_summary l_matched l_trace skippedAlreadySeen skippedNoMatch
           skippedAlreadyExists addedNew failedToAdd length] in *.
      repeat split; try lia. intros He. destruct H as (_ & _ & _ & H). specialize (H He). lia. }
    destruct (matchesRules it (f_rules f)) as [u|? ?].
    + destruct (existsb _ existing).
      * apply IH in H. unfold counted in *.
        cbn [l_results l_summary l_matched l_trace skippedAlreadySeen skippedNoMatch
             skippedAlreadyExists addedNew failedToAdd length] in *.
        rewrite !requested_app in H. cbn [requested flat_map app] in H.
        rewrite !app_nil_r in H.
        repeat split; try lia. intros He. destruct H as (_ & _ & _ & H). specialize (H He). lia.
      * destruct (pe_add e (l_adds st) u) as [t|m];
          apply IH in H; unfold counted in *;
          cbn [l_results l_summary l_matched l_trace skippedAlreadySeen skippedNoMatch
               skippedAlreadyExists addedNew failedToAdd length] in *;
          rewrite !requested_app, !length_app in H; cbn [requested flat_map app length] in H;
          rewrite ?length_app in H; cbn [length] in H;
          (repeat split; try lia; intros He; destruct H as (_ & _ & _ & H);
           specialize (H He); lia).
    + apply IH in H. unfold counted in *.
      cbn [l_results l_summary l_matched l_trace skippedAlreadySeen skippedNoMatch
           skippedAlreadyExists addedNew failedToAdd length] in *.
      rewrite !requested_app in H. cbn [requested flat_map app] in H.
      rewrite !app_nil_r in H.
      repeat split; try lia. intros He. destruct H as (_ & _ & _ & H). specialize (H He). lia.
Qed.

(** X5.  A poll that completes accounts for every item of the document
    exactly once: the five counters add up to the number of items; there
    is one result entry and one download request per item counted as
    added or as failed; and the matched-item counter of the feed has
    grown by the number of items added. *)
Theorem pollFeed_accounts_for_every_item
    (e : poll_env) (feedId : Z) (d : data) (metadata : TorrentMetadata.ledger)
    (rs : list poll_result) :
  o_result (pollFeed e feedId d metadata) = Ok rs ->
  exists f items,
    getFeed feedId d = Some f
    /\ fst (parseFeed (pe_net e) (url f)) = Ok items
    /\ counted (o_summary (pollFeed e feedId d metadata)) = length items
    /\ length rs
       = addedNew (o_summary (pollFeed e feedId d metadata))
         + failedToAdd (o_summary (pollFeed e feedId d metadata))
    /\ length (requested (o_trace (pollFeed e feedId d metadata)))
       = addedNew (o_summary (pollFeed e feedId d metadata))
         + failedToAdd (o_summary (pollFeed e feedId d metadata))
    /\ matched_of feedId (o_disk (pollFeed e feedId d metadata))
       = Some (matched_count f
               + Z.of_nat (addedNew (o_summary (pollFeed e feedId d metadata))))%Z.
Proof.
  intros Hres.
  destruct (pollFeed_cases e feedId d metadata)
    as [(_ & _ & _ & Hbad) | (ix & f & items & reqs & ex & st & err & Hix & Hf & Hp & Ht & Hloop & E)].
  { rewrite Hres in Hbad. discriminate. }
  rewrite E in Hres |- *. destruct err as [m|]; [discriminate|].
  cbn [o_result o_summary o_trace o_disk] in *.
  injection Hres as <-.
  destruct (poll_items_accounting _ _ _ _ _ _ _ _ Hloop) as (A & B & C & D).
  cbn [l_results l_summary l_matched l_trace no_summary addedNew failedToAdd
       length requested flat_map counted skippedAlreadySeen skippedNoMatch
       skippedAlreadyExists] in *.
  exists f, items. rewrite Hp. cbn [fst].
  split; [rewrite getFeed_findIndex, Hix; exact Hf|].
  split; [reflexivity|]. split; [rewrite (D eq_refl); cbn; lia|].
  split; [lia|]. split.
  - rewrite requested_app. cbn. rewrite app_nil_r. cbn in C. lia.
  - destruct (findIndex_Some _ _ _ Hix) as (g & Hg & Hid & _).
    assert (g = f) by congruence. subst g.
    erewrite matched_of_insert; eauto. cbn. f_equal. lia.
Qed.

(** The loop never replaces a record of the ledger. *)
Lemma poll_items_keeps_records e feedId f existing items :
  forall st h x,
    l_seen st !! h = Some x ->
    l_seen (fst (poll_items e feedId f existing items st)) !! h = Some x.
Proof.
  induction items as [|it rest IH]; intros st h x Hx; cbn [Rss.poll_items];
    [exact Hx|].
  destruct (getItemHash it) as [hash|m]; [|exact Hx].
  destruct (l_seen st !! hash) as [y|] eqn:Hseen; [now apply IH|].
  assert (Hne : hash <> h) by congruence.
  destruct (matchesRules it (f_rules f)) as [u|? ?].
  - destruct (existsb _ existing); [|destruct (pe_add e (l_adds st) u)];
      apply IH; cbn [l_seen]; now rewrite lookup_insert_ne.
  - apply IH; cbn [l_seen]. now rewrite lookup_insert_ne.
Qed.

(** What [pollFeed] leaves alone. *)
Lemma pollFeed_preserves
    (e : poll_env) (feedId : Z) (d : data) (metadata : TorrentMetadata.ledger) :
  (forall h x, seenItems d !! h = Some x ->
               seenItems (o_disk (pollFeed e feedId d metadata)) !! h = Some x)
  /\ nextId (o_disk (pollFeed e feedId d metadata)) = nextId d
  /\ map f_id (feeds (o_disk (pollFeed e feedId d metadata))) = map f_id (feeds d)
  /\ map url (feeds (o_disk (pollFeed e feedId d metadata))) = map url (feeds d)
  /\ map f_rules (feeds (o_disk (pollFeed e feedId d metadata)))
     = map f_rules (feeds d)
  /\ map f_added_at (feeds (o_disk (pollFeed e feedId d metadata)))
     = map f_added_at (feeds d)
  /\ (forall j, j <> feedId ->
        getFeed j (o_disk (pollFeed e feedId d metadata)) = getFeed j d)
  /\ (store_ok d -> store_ok (o_disk (pollFeed e feedId d metadata))).
Proof.
  destruct (pollFeed_cases e feedId d metadata)
    as [(_ & -> & _ & _) | (ix & f & items & reqs & ex & st & err & Hix & Hf & Hp & Ht & Hloop & E)].
  { repeat split; auto; unfold store_ok in *; tauto. }
  rewrite E. destruct err as [m|]; cbn [o_disk];
    [repeat split; auto; unfold store_ok in *; tauto|].
  cbn [seenItems nextId feeds].
  destruct (findIndex_Some _ _ _ Hix) as (g & Hg & Hid & _).
  assert (g = f) by congruence. subst g.
  assert (Hmap : forall (B : Type) (p : feed -> B) f',
            p f' = p f -> map p (<[ix := f']> (feeds d)) = map p (feeds d)).
  { intros B p f' Hpf. clear -Hf Hpf. revert ix Hf.
    induction (feeds d) as [|h fs IH]; intros [|ix] H; simpl in *; try discriminate.
    - injection H as ->. now rewrite Hpf.
    - now rewrite (IH ix H). }
  split.
  { intros h x Hx.
    pose proof (poll_items_keeps_records e feedId f ex items
                  (LoopState (seenItems d) (matched_count f) [] no_summary metadata 0 0 [])
                  h x Hx) as K.
    now rewrite Hloop in K. }
  split; [reflexivity|].
  do 4 (split; [now apply Hmap|]).
  split.
  - intros j Hj. unfold getFeed. cbn [feeds].
    apply (find_insert_other _ _ f); [exact Hf | reflexivity | congruence].
  - intros Hok. now apply (store_ok_insert d ix f).
Qed.

(** X6.  What [pollFeed] leaves alone, whether it completes or fails: a
    record of the seen-ledger is never removed or replaced; the
    next-identifier counter stays; the feeds keep their order, their
    identifiers, URLs, rules and creation times; [getFeed] returns under
    every other identifier what it returned before; unique identifiers
    stay unique. *)
Theorem pollFeed_frame
    (e : poll_env) (feedId : Z) (d : data) (metadata : TorrentMetadata.ledger) :
  (forall h x, seenItems d !! h = Some x ->
               seenItems (o_disk (pollFeed e feedId d metadata)) !! h = Some x)
  /\ nextId (o_disk (pollFeed e feedId d metadata)) = nextId d
  /\ map f_id (feeds (o_disk (pollFeed e feedId d metadata))) = map f_id (feeds d)
  /\ map url (feeds (o_disk (pollFeed e feedId d metadata))) = map url (feeds d)
  /\ map f_rules (feeds (o_disk (pollFeed e feedId d metadata)))
     = map f_rules (feeds d)
  /\ map f_added_at (feeds (o_disk (pollFeed e feedId d metadata)))
     = map f_added_at (feeds d)
  /\ (forall j, j <> feedId ->
        getFeed j (o_disk (pollFeed e feedId d metadata)) = getFeed j d)
  /\ (store_ok d -> store_ok (o_disk (pollFeed e feedId d metadata))).
Proof. apply pollFeed_preserves. Qed.

(** Within one run of the loop no fingerprint is requested twice, and
    none that the ledger held at the start. *)
Lemma poll_items_requests_once e feedId f existing items :
  forall st,
  exists R,
    requested (l_trace (fst (poll_items e feedId f existing items st)))
    = requested (l_trace st) ++ R
    /\ List.NoDup R
    /\ (forall h, In h R -> l_seen st !! h = None).
Proof.
  induction items as [|it rest IH]; intros st; cbn [Rss.poll_items].
  - exists []. rewrite app_nil_r. repeat split; [constructor | intros h []].
  - destruct (getItemHash it) as [hash|m].
    2:{ exists []. rewrite app_nil_r. repeat split; [constructor | intros h []]. }
    assert (Hstep : forall st1 extra,
              requested (l_trace st1) = requested (l_trace st) ++ extra ->
              (extra = [] /\ (forall h, l_seen st1 !! h = None -> l_seen st !! h = None)
               \/ extra = [hash] /\ l_seen st !! hash = None
                  /\ l_seen st1 = <[hash := Seen feedId (pe_clock e (l_ticks st))]> (l_seen st)) ->
              exists R,
                requested (l_trace (fst (poll_items e feedId f existing rest st1)))
                = requested (l_trace st) ++ R
                /\ List.NoDup R
                /\ (forall h, In h R -> l_seen st !! h = None)).
    { intros st1 extra Htr Hcase. destruct (IH st1) as (R & HR & Hnd & Hnew).
      destruct Hcase as [[-> Hmono] | (-> & Hnone & Hs1)].
      - exists R. rewrite HR, Htr, app_nil_r. repeat split; auto.
      - exists (hash :: R). rewrite HR, Htr, <- app_assoc. repeat split.
        + constructor; [|exact Hnd]. intros Hin. specialize (Hnew _ Hin).
          rewrite Hs1, lookup_insert_eq in Hnew. discriminate.
        + intros h [<-|Hin]; [exact Hnone|]. specialize (Hnew _ Hin).
          rewrite Hs1 in Hnew. destruct (decide (hash = h)) as [->|Hne].
          * rewrite lookup_insert_eq in Hnew. discriminate.
          * now rewrite lookup_insert_ne in Hnew. }
    assert (Hins : forall h, <[hash := Seen feedId (pe_clock e (l_ticks st))]> (l_seen st) !! h = None ->
                             l_seen st !! h = None).
    { intros h Hh. destruct (decide (hash = h)) as [->|Hne].
      - rewrite lookup_insert_eq in Hh. discriminate.
      - now rewrite lookup_insert_ne in Hh. }
    destruct (l_seen st !! hash) as [x|] eqn:Hseen.
    { apply (Hstep _ []); [cbn; now rewrite app_nil_r | left; split; auto]. }
    destruct (matchesRules it (f_rules f)) as [u|? ?].
    + destruct (existsb _ existing).
      * apply (Hstep _ []); [|left; split; [reflexivity | exact Hins]].
        cbn [l_trace]. rewrite requested_app. reflexivity.
      * destruct (pe_add e (l_adds st) u) as [t|m];
          (apply (Hstep _ [hash]); [|right; repeat split; reflexivity]);
          cbn [l_trace]; rewrite !requested_app; cbn; now rewrite app_nil_r.
    + apply (Hstep _ []); [|left; split; [reflexivity | exact Hins]].
      cbn [l_trace]. rewrite requested_app. reflexivity.
Qed.

(** X7.  In one poll no fingerprint is requested twice, even when the
    document carries the same item several times, and no download is
    requested for a fingerprint that the seen-ledger held when the poll
    started. *)
Theorem pollFeed_requests_once
    (e : poll_env) (feedId : Z) (d : data) (metadata : TorrentMetadata.ledger) :
  List.NoDup (requested (o_trace (pollFeed e feedId d metadata)))
  /\ forall h, In h (requested (o_trace (pollFeed e feedId d metadata))) ->
               seenItems d !! h = None.
Proof.
  destruct (pollFeed_cases e feedId d metadata)
    as [(-> & _) | (ix & f & items & reqs & ex & st & err & Hix & Hf & Hp & Ht & Hloop & E)].
  { split; [constructor | intros h []]. }
  destruct (poll_items_requests_once e feedId f ex items
              (LoopState (seenItems d) (matched_count f) [] no_summary metadata 0 0 []))
    as (R & HR & Hnd & Hnew).
  rewrite Hloop in HR. cbn [fst l_trace l_seen requested flat_map app] in HR, Hnew.
  rewrite E. destruct err as [m|]; cbn [o_trace].
  - rewrite HR. auto.
  - rewrite requested_app, HR. cbn. rewrite app_nil_r. auto.
Qed.

(** Every request of the loop belongs to an item that matched. *)
Lemma poll_items_requests_justified e feedId f existing items :
  forall st h u,
    In (AddUrl h u) (l_trace (fst (poll_items e feedId f existing items st))) ->
    In (AddUrl h u) (l_trace st)
    \/ exists it,
         In it items /\ getItemHash it = Ok h
         /\ matchesRules it (f_rules f) = Matches u
         /\ title_exists existing it = false.
Proof.
  induction items as [|it rest IH]; intros st h u; cbn [Rss.poll_items];
    [now left|].
  destruct (getItemHash it) as [hash|m] eqn:Hh; [|now left].
  assert (Hrest : forall st1,
            (forall h' u', In (AddUrl h' u') (l_trace st1) ->
                           In (AddUrl h' u') (l_trace st)
                           \/ (h' = hash /\ matchesRules it (f_rules f) = Matches u'
                               /\ title_exists existing it = false)) ->
            In (AddUrl h u) (l_trace (fst (poll_items e feedId f existing rest st1))) ->
            In (AddUrl h u) (l_trace st)
            \/ exists it0,
                 In it0 (it :: rest) /\ getItemHash it0 = Ok h
                 /\ matchesRules it0 (f_rules f) = Matches u
                 /\ title_exists existing it0 = false).
  { intros st1 Hst1 Hin. destruct (IH st1 h u Hin) as [Hold | (it0 & Hi & Hrest)].
    - destruct (Hst1 _ _ Hold) as [Ho | (-> & Hm & Hx)]; [now left|].
      right. exists it. repeat split; auto. now left.
    - right. exists it0. split; [now right | exact Hrest]. }
  destruct (l_seen st !! hash) as [x|]; [apply Hrest; cbn; auto|].
  destruct (matchesRules it (f_rules f)) as [u0|? ?] eqn:Hm.
  - destruct (existsb _ existing) eqn:Hex.
    + apply Hrest. cbn [l_trace]. intros h' u' Hin.
      apply in_app_or in Hin as [Hin|[C|[]]]; [now left | discriminate].
    + destruct (pe_add e (l_adds st) u0) as [t|m']; apply Hrest; cbn [l_trace];
        intros h' u' Hin;
        (apply in_app_or in Hin as [Hin|[C|[]]];
         [apply in_app_or in Hin as [Hin|[C|[]]]; [now left | discriminate]
         | injection C as <- <-; right; repeat split; auto]).
  - apply Hrest. cbn [l_trace]. intros h' u' Hin.
    apply in_app_or in Hin as [Hin|[C|[]]]; [now left | discriminate].
Qed.

(** X8.  Every download request of a poll is justified by the document:
    it carries the URL that [matchesRules] derived for an item of the
    feed document that matched the rules of the feed, and whose title is
    not the name of a torrent the engine listed at the start of the
    poll. *)
Theorem pollFeed_requests_are_justified
    (e : poll_env) (feedId : Z) (d : data) (metadata : TorrentMetadata.ledger)
    (h u : string) :
  In (AddUrl h u) (o_trace (pollFeed e feedId d metadata)) ->
  exists f items existing it,
    getFeed feedId d = Some f
    /\ fst (parseFeed (pe_net e) (url f)) = Ok items
    /\ pe_torrents e = Ok existing
    /\ In it items
    /\ getItemHash it = Ok h
    /\ matchesRules it (f_rules f) = Matches u
    /\ title_exists existing it = false.
Proof.
  destruct (pollFeed_cases e feedId d metadata)
    as [(-> & _) | (ix & f & items & reqs & ex & st & err & Hix & Hf & Hp & Ht & Hloop & E)].
  { intros []. }
  intros Hin.
  assert (Hin' : In (AddUrl h u) (l_trace st)).
  { rewrite E in Hin. destruct err; cbn [o_trace] in Hin; [exact Hin|].
    apply in_app_or in Hin as [Hin|[C|[]]]; [exact Hin | discriminate]. }
  pose proof (poll_items_requests_justified e feedId f ex items
                (LoopState (seenItems d) (matched_count f) [] no_summary metadata 0 0 [])
                h u) as J.
  rewrite Hloop in J. destruct (J Hin') as [[] | (it & Hi & Hh & Hm & Hx)].
  exists f, items, ex, it. rewrite Hp. repeat split; auto.
  rewrite getFeed_findIndex, Hix. exact Hf.
Qed.

(** An item without fingerprint ends the loop with an exception. *)
Lemma poll_items_unhashable e feedId f existing items bad m :
  In bad items -> getItemHash bad = Err m ->
  forall st, snd (poll_items e feedId f existing items st) <> None.
Proof.
  induction items as [|it rest IH]; intros Hin Hbad st; [destruct Hin|].
  cbn [Rss.poll_items].
  destruct (getItemHash it) as [hash|m'] eqn:Hh; [|discriminate].
  assert (Hrest : In bad rest) by (destruct Hin as [->|Hin]; [congruence | exact Hin]).
  destruct (l_seen st !! hash); [now apply IH|].
  destruct (matchesRules it (f_rules f)); [|now apply IH].
  destruct (existsb _ existing); [now apply IH|].
  destruct (pe_add e (l_adds st) torrentUrl); now apply IH.
Qed.

(** X9.  One item without identifier, link and title makes the whole poll
    fail: [pollFeed] rejects and the store is not written, so that the
    marks of the items before it are lost, although their download
    requests have been sent. *)
Theorem pollFeed_unhashable_item_aborts
    (e : poll_env) (feedId : Z) (d : data) (metadata : TorrentMetadata.ledger)
    (f : feed) (items : list item) (existing : list Transmission.torrent)
    (bad : item) :
  getFeed feedId d = Some f ->
  fst (parseFeed (pe_net e) (url f)) = Ok items ->
  pe_torrents e = Ok existing ->
  In bad items ->
  Js.truthy (guid bad) = false -> Js.truthy (link bad) = false -> title bad = None ->
  is_ok (o_result (pollFeed e feedId d metadata)) = false
  /\ o_disk (pollFeed e feedId d metadata) = d
  /\ (forall d', ~ In (Save d') (o_trace (pollFeed e feedId d metadata))).
Proof.
  intros Hget Hparse Htor Hin Hg Hl Ht.
  assert (Hbad : getItemHash bad = Err "The data argument must be of type string").
  { unfold Rss.getItemHash, Js.or_else. rewrite Hg, Hl, Ht. reflexivity. }
  destruct (pollFeed_cases e feedId d metadata)
    as [(-> & -> & _ & ->) | (ix & f0 & items0 & reqs & ex & st & err & Hix & Hf & Hp & Ht0 & Hloop & E)].
  { repeat split. intros d' []. }
  rewrite getFeed_findIndex, Hix, Hf in Hget. injection Hget as ->.
  rewrite Hp in Hparse. cbn [fst] in Hparse. injection Hparse as ->.
  pose proof (poll_items_unhashable e feedId f ex items bad _ Hin Hbad
                (LoopState (seenItems d) (matched_count f) [] no_summary metadata 0 0 []))
    as Hex.
  rewrite Hloop in Hex. cbn [snd] in Hex. destruct err as [m|]; [|congruence].
  rewrite E. cbn [o_result o_disk o_trace is_ok]. repeat split.
  pose proof (poll_items_extends RegExp parseInt md5 e feedId f ex items
                (LoopState (seenItems d) (matched_count f) [] no_summary metadata 0 0 []))
    as (delta & Hd & Hns & _).
  rewrite Hloop in Hd. cbn [fst l_trace app] in Hd. rewrite Hd. exact Hns.
Qed.

End PollAccounting.

(** ** Polling all feeds *)

Section PollAllFacts.
Import Rss RssStore.
Variable RegExp : string -> string -> result (string -> bool).
Variable parseInt : string -> option Z.
Variable md5 : string -> string.

Lemma poll_each_frame (envs : nat -> poll_env) (fs : list feed) :
  forall k d metadata,
    map fst (b_results (poll_each RegExp parseInt md5 envs k fs d metadata))
    = map f_id fs
    /\ (forall h x, seenItems d !! h = Some x ->
          seenItems (b_disk (poll_each RegExp parseInt md5 envs k fs d metadata)) !! h
          = Some x)
    /\ map f_id (feeds (b_disk (poll_each RegExp parseInt md5 envs k fs d metadata)))
       = map f_id (feeds d)
    /\ map url (feeds (b_disk (poll_each RegExp parseInt md5 envs k fs d metadata)))
       = map url (feeds d)
    /\ nextId (b_disk (poll_each RegExp parseInt md5 envs k fs d metadata)) = nextId d.
Proof.
  induction fs as [|f fs IH]; intros k d metadata; cbn [poll_each b_results b_disk].
  - repeat split; auto.
  - destruct (pollFeed_preserves RegExp parseInt md5 (envs k) (f_id f) d metadata)
      as (Hseen & Hnext & Hids & Hurls & _).
    destruct (IH (S k)
                (o_disk (pollFeed RegExp parseInt md5 (envs k) (f_id f) d metadata))
                (o_ledger (pollFeed RegExp parseInt md5 (envs k) (f_id f) d metadata)))
      as (R1 & R2 & R3 & R4 & R5).
    cbn [map fst]. rewrite R1, R3, R4, R5, Hids, Hurls, Hnext.
    repeat split; auto.
Qed.

(** X10.  [pollAllFeeds] writes one entry for every feed of the store, in
    the order of the store, whether the polls of the other feeds fail or
    not; over the whole batch no record of the seen-ledger is removed or
    replaced, and the feeds keep their order, identifiers and URLs and
    the store its counter. *)
Theorem pollAllFeeds_reports_every_feed
    (envs : nat -> poll_env) (d : data) (metadata : TorrentMetadata.ledger) :
  map fst (b_results (pollAllFeeds RegExp parseInt md5 envs d metadata))
  = map f_id (feeds d)
  /\ (forall h x, seenItems d !! h = Some x ->
        seenItems (b_disk (pollAllFeeds RegExp parseInt md5 envs d metadata)) !! h
        = Some x)
  /\ map f_id (feeds (b_disk (pollAllFeeds RegExp parseInt md5 envs d metadata)))
     = map f_id (feeds d)
  /\ map url (feeds (b_disk (pollAllFeeds RegExp parseInt md5 envs d metadata)))
     = map url (feeds d)
  /\ nextId (b_disk (pollAllFeeds RegExp parseInt md5 envs d metadata)) = nextId d.
Proof. apply poll_each_frame. Qed.

End PollAllFacts.

(** ** More on the egress guard *)

Section EgressMore.
Import Rss.

(** X11.  [parseFeed] sends a fetch only to the URL it was given, only
    after the lookup of the host, and only when the URL parsed, its
    scheme is http: or https:, the lookup succeeded and the address is
    matched by none of the patterns; a URL that does not parse or has
    another scheme causes no request at all. *)
Theorem parseFeed_fetch_only_after_guard (n : net) (u : string) :
  (snd (parseFeed n u) = []
   \/ (exists host, snd (parseFeed n u) = [DnsLookup host])
   \/ (exists host, snd (parseFeed n u) = [DnsLookup host; Fetch u]))
  /\ (forall u', In (Fetch u') (snd (parseFeed n u)) ->
        u' = u
        /\ exists p address,
             n_url n u = Some p
             /\ (protocol p = "http:" \/ protocol p = "https:")
             /\ n_dns n (hostname p) = Ok address
             /\ isPrivateIP address = false
             /\ snd (parseFeed n u) = [DnsLookup (hostname p); Fetch u])
  /\ (forall p, n_url n u = Some p ->
        protocol p <> "http:" -> protocol p <> "https:" ->
        snd (parseFeed n u) = [] /\ is_ok (fst (parseFeed n u)) = false)
  /\ (n_url n u = None ->
        snd (parseFeed n u) = [] /\ is_ok (fst (parseFeed n u)) = false).
Proof.
  unfold parseFeed.
  destruct (n_url n u) as [p|] eqn:Hu.
  2:{ cbn. split; [now left|]. split; [intros u' []|].
      split; [discriminate|]. intros _. split; reflexivity. }
  assert (Hscheme : existsb (String.eqb (protocol p)) ["http:"; "https:"] = true
                    <-> (protocol p = "http:" \/ protocol p = "https:")).
  { cbn. destruct (String.eqb_spec (protocol p) "http:");
      destruct (String.eqb_spec (protocol p) "https:"); intuition discriminate. }
  destruct (existsb (String.eqb (protocol p)) ["http:"; "https:"]) eqn:Hs; cbn [negb].
  - destruct Hscheme as [Hyes _]. specialize (Hyes eq_refl).
    destruct (n_dns n (hostname p)) as [address|m] eqn:Hd.
    + destruct (isPrivateIP address) eqn:Hip.
      * cbn. split; [right; left; eauto|].
        split; [intros u' [C|[]]; discriminate|].
        split; [|discriminate]. intros q Hq. injection Hq as <-. intuition.
      * destruct (n_fetch n u) as [raw|m]; cbn;
          (split; [right; right; eauto|]);
          (split; [intros u' [C|[C|[]]]; [discriminate|injection C as <-];
                   split; [reflexivity|]; exists p, address; auto|]);
          (split; [|discriminate]); intros q Hq; injection Hq as <-; intuition.
    + destruct (Js.includes m "private"); cbn;
        (split; [right; left; eauto|]);
        (split; [intros u' [C|[]]; discriminate|]);
        (split; [|discriminate]); intros q Hq; injection Hq as <-; intuition.
  - cbn. split; [now left|]. split; [intros u' []|].
    split; [|discriminate]. intros q _ _ _. split; reflexivity.
Qed.

(** The second octet of an address, written with two digits. *)
Lemma class_b_only (s : string) :
  isPrivateIP ("172." ++ s) = class_b ("172." ++ s).
Proof.
  unfold isPrivateIP, PRIVATE_IP_RANGES. cbn. now rewrite !orb_false_r.
Qed.

(** X12.  Among the addresses 172.n.x.y the guard blocks exactly the
    private block 172.16.0.0/12: the second octet from 16 to 31; the
    neighbours 172.15 and 172.32 and all other second octets pass. *)
Theorem isPrivateIP_class_b_range (n : nat) (rest : string) :
  n <= 255 ->
  isPrivateIP (address_172 n rest) = (16 <=? n) && (n <=? 31).
Proof.
  intros Hn. unfold address_172. rewrite class_b_only.
  do 10 (destruct n as [|n];
         [vm_compute; destruct rest as [|c rest]; [reflexivity|];
          destruct c as [[] [] [] [] [] [] [] []]; reflexivity|]).
  do 246 (destruct n as [|n]; [vm_compute; reflexivity|]).
  exfalso. lia.
Qed.

Lemma isPrivateIP_class_b_range_witness :
  isPrivateIP "172.16.0.1" = true
  /\ isPrivateIP "172.31.255.255" = true
  /\ isPrivateIP "172.15.0.1" = false
  /\ isPrivateIP "172.32.0.1" = false.
Proof.
  split; [|split; [|split]].
  - apply (isPrivateIP_class_b_range 16 "0.1"). lia.
  - apply (isPrivateIP_class_b_range 31 "255.255"). lia.
  - apply (isPrivateIP_class_b_range 15 "0.1"). lia.
  - apply (isPrivateIP_class_b_range 32 "0.1"). lia.
Defined.

End EgressMore.

(** ** More on the eviction pass *)

Section EvictionMore.
Import Transmission TorrentMetadata DiskMonitor.

(** X14.  The monitor removes nothing but completed torrents without the
    exempt flag: every entry of the list it reports, and every remove
    request that the pass adds to the requests sent to the engine, belongs
    to a torrent of the engine's list that is at 100 percent and not
    blocked in the ledger; and the requests ask for the files to be
    deleted. *)
Theorem monitor_removes_only_eligible
    (e : env) (th : jsnum) (w : world) (metadata : ledger) :
  (forall r, In r (p_removed (snd (autoRemoveOldestTorrents e th w metadata))) ->
     exists ts t,
       e_torrents e = Ok ts /\ In t ts
       /\ completed t = true /\ not_blocked metadata t = true
       /\ r = Removed (id t) (name t) (totalSize t))
  /\ (forall i d,
        In (RpcRemove i d)
           (log (p_world (snd (autoRemoveOldestTorrents e th w metadata)))) ->
        In (RpcRemove i d) (log w)
        \/ (d = true
            /\ exists ts t,
                 e_torrents e = Ok ts /\ In t ts
                 /\ completed t = true /\ not_blocked metadata t = true
                 /\ id t = i)).
Proof.
  destruct (pass_outcome e th w metadata) as (gone & Hr & _ & Hl & Hel).
  split.
  - intros r Hin. rewrite Hr in Hin. apply in_map_iff in Hin as (c & <- & Hc).
    destruct (Hel c Hc) as (ts & Hts & Hin & Hcomp & Hnb).
    exists ts, (c_torrent c). repeat split; auto.
  - intros i d Hin. destruct (Hl i d Hin) as [H|(-> & c & Hc & Hid)]; [now left|].
    right. split; [reflexivity|].
    destruct (Hel c Hc) as (ts & Hts & Hin' & Hcomp & Hnb).
    exists ts, (c_torrent c). repeat split; auto.
Qed.

(** X15.  Report, requests and ledger agree after every pass, whatever
    the readings and the engine's answers.  The torrents reported as
    removed are the first candidates of the list, in its order; exactly
    for these a remove request with deletion of the files was sent, in
    this order; exactly their ownership records are deleted, every other
    record is as it was.  When the engine's list cannot be fetched,
    nothing is reported, requested or deleted. *)
Theorem monitor_deletes_records_of_removed
    (e : env) (th : jsnum) (w : world) (metadata : ledger) :
  (forall cands,
     getAutoRemovalCandidates (e_torrents e) metadata (e_clock e) = Ok cands ->
     p_removed (snd (autoRemoveOldestTorrents e th w metadata))
     = map entry_of
           (take (length (p_removed (snd (autoRemoveOldestTorrents e th w metadata))))
                 cands)
     /\ removed_exactly
          (take (length (p_removed (snd (autoRemoveOldestTorrents e th w metadata))))
                cands)
          w metadata (snd (autoRemoveOldestTorrents e th w metadata)))
  /\ (is_ok (getAutoRemovalCandidates (e_torrents e) metadata (e_clock e)) = false ->
      p_removed (snd (autoRemoveOldestTorrents e th w metadata)) = []
      /\ p_metadata (snd (autoRemoveOldestTorrents e th w metadata)) = metadata
      /\ removals (log (p_world (snd (autoRemoveOldestTorrents e th w metadata))))
         = removals (log w)).
Proof.
  split.
  - intros cands Hget.
    destruct (pass_prefix e th w metadata cands Hget) as (n & Hn & Hr & _).
    assert (Hlen : length (p_removed (snd (autoRemoveOldestTorrents e th w metadata)))
                   = n).
    { rewrite Hr, length_map, length_take. lia. }
    rewrite Hlen. split; [exact Hr|].
    apply pass_removed_exactly; [exact Hget | exact Hn | exact Hr].
  - unfold autoRemoveOldestTorrents, getServerStats.
    destruct (e_session e) as [ses|m]; [|auto].
    destruct (js_ge _ th); [auto|].
    destruct (getAutoRemovalCandidates _ _ _) as [cands|m]; [discriminate|auto].
Qed.

(** X16.  A pass that can never see the threshold reached removes every
    candidate: it reports all of them, asks the engine to remove each of
    them with its files, and deletes the ownership record of each.  This
    is the case when the threshold is NaN (a DISK_THRESHOLD that
    [parseFloat] cannot read) and when the file system reports a volume
    without blocks, whose free share is 0/0. *)
Theorem eviction_without_stop
    (e : env) (th : jsnum) (w : world) (metadata : ledger)
    (ts : list torrent) (ses : session) :
  e_session e = Ok ses ->
  e_torrents e = Ok ts ->
  (th = NaN \/ forall k, empty_volume (e_statfs e k)) ->
  exists cands,
    getAutoRemovalCandidates (e_torrents e) metadata (e_clock e) = Ok cands
    /\ p_removed (snd (autoRemoveOldestTorrents e th w metadata)) = map entry_of cands
    /\ removed_exactly cands w metadata (snd (autoRemoveOldestTorrents e th w metadata))
    /\ (forall t, In t ts -> completed t = true -> not_blocked metadata t = true ->
          In (Removed (id t) (name t) (totalSize t))
             (p_removed (snd (autoRemoveOldestTorrents e th w metadata)))
          /\ In (id t, true)
                (removals
                   (log (p_world (snd (autoRemoveOldestTorrents e th w metadata)))))
          /\ p_metadata (snd (autoRemoveOldestTorrents e th w metadata))
               !! str (hashString t) = None).
Proof.
  intros Hses Hts Hcause.
  assert (Hlow : forall k, below e th k).
  { intros k. unfold below. destruct Hcause as [-> | Hz].
    - destruct (freePercent _); reflexivity.
    - rewrite (empty_volume_reads_NaN _ (Hz k)). reflexivity. }
  destruct (candidates_spec metadata (e_clock e) ts) as (Hperm & _).
  set (cands := sort_by_date
                  (stamp metadata (e_clock e) 0 (List.filter (eligible metadata) ts))) in *.
  assert (Hget : getAutoRemovalCandidates (e_torrents e) metadata (e_clock e) = Ok cands)
    by (unfold getAutoRemovalCandidates, getTorrents; now rewrite Hts).
  assert (Hall : p_removed (snd (autoRemoveOldestTorrents e th w metadata))
                 = map entry_of cands).
  { unfold autoRemoveOldestTorrents, getServerStats. rewrite Hses.
    pose proof (Hlow 0) as H0. unfold below in H0. rewrite H0, Hget.
    destruct cands as [|c0 rest] eqn:Ec; [reflexivity|]. rewrite <- Ec in *.
    destruct (remove_loop_exhausts e th cands 0 (PassState w metadata [] 1))
      as [Hr _]; [intros k _; apply Hlow|].
    cbn [snd]. rewrite Hr. reflexivity. }
  assert (Hx : removed_exactly cands w metadata
                 (snd (autoRemoveOldestTorrents e th w metadata))).
  { pose proof (pass_removed_exactly e th w metadata cands (length cands) Hget
                  (le_n _)) as Hx.
    rewrite firstn_all in Hx. exact (Hx Hall). }
  exists cands. split; [exact Hget|]. split; [exact Hall|]. split; [exact Hx|].
  intros t Hin Hc Hb.
  assert (Ht : In t (map c_torrent cands)).
  { apply (Permutation_in _ (Permutation_sym Hperm)). apply filter_In.
    split; [exact Hin|]. unfold eligible. now rewrite Hc, Hb. }
  apply in_map_iff in Ht as (c & <- & Hc').
  destruct Hx as (Hv & Hgone & _).
  split; [|split].
  - rewrite Hall. apply in_map_iff. exists c. split; [reflexivity | exact Hc'].
  - rewrite Hv. apply in_or_app. right. apply in_map_iff.
    exists c. split; [reflexivity | exact Hc'].
  - exact (Hgone c Hc').
Qed.

End EvictionMore.

(** ** More on the debounced restart *)

Section RestartMore.
Import Restart.
Local Open Scope Z_scope.

Lemma restarts_bounded evs : forall st,
  (restarts (run evs st) + length (pending (run evs st))
   <= restarts st + length (pending st) + calls evs)%nat.
Proof.
  induction evs as [|e evs IH]; intros st; cbn [run]; [unfold calls; cbn; lia|].
  specialize (IH (step e st)).
  assert (Hstep : (restarts (step e st) + length (pending (step e st))
                   + calls evs
                   <= restarts st + length (pending st) + calls (e :: evs))%nat).
  { unfold calls. destruct e; cbn [step List.filter length].
    - unfold scheduleTransmissionRestart. destruct (restartTimeout st); cbn;
        rewrite ?length_app; cbn; lia.
    - cbn. lia.
    - destruct (pending st) as [|tm rest] eqn:Hp; [rewrite Hp; cbn; lia|].
      destruct (due (now st) tm); cbn; rewrite ?Hp; cbn; lia.
    - destruct (in_flight st); cbn; lia. }
  lia.
Qed.

Lemma restarts_monotone evs : forall st, (restarts st <= restarts (run evs st))%nat.
Proof.
  induction evs as [|e evs IH]; intros st; cbn [run]; [lia|].
  specialize (IH (step e st)).
  assert ((restarts st <= restarts (step e st))%nat); [|lia].
  destruct e; cbn [step].
  - unfold scheduleTransmissionRestart. destruct (restartTimeout st); cbn; lia.
  - cbn. lia.
  - destruct (pending st) as [|tm rest]; [lia|].
    destruct (due (now st) tm); cbn; lia.
  - destruct (in_flight st); cbn; lia.
Qed.

(** X17.  The daemon is restarted only on request and never early: in
    every run of the module the number of restarts issued is at most the
    number of calls of [scheduleTransmissionRestart]; and when no restart
    is scheduled, a call followed by less than 3000 ms issues none. *)
Theorem restart_only_on_request :
  (forall evs, (restarts (run evs init) <= calls evs)%nat)
  /\ (forall evs dt,
        restartTimeout (run evs init) = None ->
        0 <= dt < DEBOUNCE_MS ->
        restarts (run [Call; Advance dt; Fire] (run evs init))
        = restarts (run evs init)
        /\ outstanding (run [Call; Advance dt; Fire] (run evs init)) = 1%nat).
Proof.
  split.
  - intros evs. pose proof (restarts_bounded evs init) as H. cbn in H. lia.
  - intros evs dt Ht Hdt. pose proof (shape_run evs init shape_init) as Hs.
    destruct (run evs init) as [rt rp pe fl r s f n].
    destruct Hs as [_ Hp Hpe Hf | ? ? ? Ht' | ? ? Ht'];
      cbn [restartTimeout restartPromise pending in_flight] in *; try congruence.
    subst. change (run [Call; Advance dt; Fire] ?st)
      with (run [Advance dt; Fire] (fst (scheduleTransmissionRestart st))).
    rewrite idle_call. unfold DEBOUNCE_MS in *.
    rewrite armed_wait by lia. split; reflexivity.
Qed.

(** X18.  A call that arrives while the restart command is running is
    absorbed: it gets the promise of the running restart, schedules
    nothing, and once the running restart has finished the module is
    idle; unless [scheduleTransmissionRestart] is called again, no
    further restart is issued. *)
Theorem call_during_restart_is_absorbed (evs : list event) :
  in_flight (run evs init) <> [] ->
  scheduleTransmissionRestart (run evs init)
  = (run evs init, restartPromise (run evs init))
  /\ is_Some (restartPromise (run evs init))
  /\ outstanding (run [Call; Done] (run evs init)) = 0%nat
  /\ restartTimeout (run [Call; Done] (run evs init)) = None
  /\ forall later, calls later = 0%nat ->
       restarts (run later (run [Call; Done] (run evs init)))
       = restarts (run evs init).
Proof.
  intros Hrun. pose proof (shape_run evs init shape_init) as Hs.
  destruct (run evs init) as [rt rp pe fl r s f n].
  destruct Hs as [_ _ _ Hf | ? ? ? _ _ _ Hf | h p Ht Hp Hpe Hf];
    cbn [restartTimeout restartPromise pending in_flight] in *; try congruence.
  subst. split; [reflexivity|]. split; [eauto|].
  split; [reflexivity|]. split; [reflexivity|].
  intros later Hl.
  pose proof (restarts_bounded later (run [Call; Done] (State (Some h) (Some p) [] [p] r s f n))) as B.
  pose proof (restarts_monotone later (run [Call; Done] (State (Some h) (Some p) [] [p] r s f n))) as M.
  rewrite Hl in B. cbn in B, M |- *. lia.
Qed.

End RestartMore.

(** ** The session guards *)

Section AuthFacts.
Import Auth.

(** X19.  [requireAdmin] lets a request through exactly when the session
    carries a user identifier other than 0 and the administrator flag;
    whatever it lets through, [authenticateSession] lets through as well;
    a request that is not authenticated is answered 401 by both, before
    the administrator flag is looked at; and a session whose user
    identifier is 0 is never authenticated. *)
Theorem requireAdmin_implies_authenticated (s : option session_data) :
  (requireAdmin s = Next <->
     exists sd, s = Some sd /\ id_truthy (userId sd) = true /\ isAdmin sd = true)
  /\ (authenticateSession s = Next <->
        exists sd, s = Some sd /\ id_truthy (userId sd) = true)
  /\ (requireAdmin s = Next -> authenticateSession s = Next)
  /\ (authenticateSession s <> Next ->
        requireAdmin s = Reply 401 "Not authenticated"
        /\ authenticateSession s = Reply 401 "Not authenticated")
  /\ (forall admin,
        authenticateSession (Some (SessionData (Some 0%Z) admin))
        = Reply 401 "Not authenticated").
Proof.
  unfold requireAdmin, authenticateSession, anonymous.
  destruct s as [[u adm]|]; cbn [userId isAdmin].
  - destruct (id_truthy u) eqn:Hu; cbn [negb].
    + destruct adm; repeat split; try congruence; try discriminate; eauto;
        try (intros (sd & E & _ & C); injection E as <-; discriminate).
    + repeat split; try congruence; try discriminate;
        try (intros (sd & E & C & _); injection E as <-; cbn in C; congruence);
        try (intros (sd & E & C); injection E as <-; cbn in C; congruence).
  - repeat split; try congruence; try discriminate;
      try (intros (sd & E & _); discriminate).
Qed.

End AuthFacts.

(** ** Deleting a torrent over the API *)

Section RouteFacts.
Import Transmission TorrentMetadata TorrentRoutes.

(** X20.  [DELETE /:id].  A user who is neither administrator nor the
    owner named by the ledger (also when the torrent could not be looked
    up, or has no ownership record) is answered 403, and nothing but the
    lookup is sent to the engine: no remove request, no file deletion, no
    change of the ledger.  For an administrator or the owner the handler
    requests the removal with deletion of the files, answers success, and
    deletes the ownership record of the hash it found and no other. *)
Theorem delete_requires_owner_or_admin
    (user : Z) (admin : bool) (torrentId : Z) (lookup : result (list torrent))
    (a : answers) (w : world) (metadata : ledger) :
  (admin = false -> owns user lookup metadata = false ->
     delete_torrent user admin torrentId lookup a w metadata
     = (Forbidden "You can only delete your own torrents",
        World true (restart w) (log w ++ [RpcGet torrentId]), metadata))
  /\ (admin = true \/ owns user lookup metadata = true ->
      fst (fst (delete_torrent user admin torrentId lookup a w metadata)) = Deleted
      /\ In (RpcRemove torrentId true)
            (log (snd (fst (delete_torrent user admin torrentId lookup a w metadata))))
      /\ snd (delete_torrent user admin torrentId lookup a w metadata)
         = match found_hash lookup with
           | Some h => delete h metadata
           | None => metadata
           end).
Proof.
  unfold delete_torrent, owns, found_hash.
  set (hash := match getTorrentDetails lookup with
               | Ok t => hashString t
               | Err _ => None
               end).
  assert (Hown : match getTorrentDetails lookup with
                 | Ok t => Js.truthy (hashString t) && isOwner (str (hashString t)) user metadata
                 | Err _ => false
                 end
                 = (if Js.truthy hash then isOwner (str hash) user metadata else false)).
  { unfold hash. destruct (getTorrentDetails lookup) as [t|m]; [|reflexivity].
    destruct (Js.truthy (hashString t)); reflexivity. }
  assert (Hfound : match getTorrentDetails lookup with
                   | Ok t => if Js.truthy (hashString t) then hashString t else None
                   | Err _ => None
                   end
                   = (if Js.truthy hash then hash else None)).
  { unfold hash. destruct (getTorrentDetails lookup) as [t|m]; reflexivity. }
  rewrite Hown, Hfound. clear Hown Hfound.
  split.
  - intros -> Ho. rewrite Ho. reflexivity.
  - intros Hallowed.
    assert (Hgo : negb admin
                  && negb (if Js.truthy hash then isOwner (str hash) user metadata
                           else false) = false).
    { destruct Hallowed as [-> | ->]; [reflexivity | apply andb_false_r]. }
    rewrite Hgo.
    pose proof (removeTorrent_resolves a torrentId true (rpc (RpcGet torrentId) w)) as R.
    assert (Hreq : In (RpcRemove torrentId true)
                      (log (snd (removeTorrent a torrentId true (rpc (RpcGet torrentId) w))))).
    { clear. unfold removeTorrent.
      assert (Hw : forall w0 h dd nm pd,
                In (RpcRemove torrentId true) (log w0) ->
                In (RpcRemove torrentId true)
                   (log (workaround a torrentId true h dd nm pd w0))).
      { intros w0 h dd nm pd Hin.
        destruct (workaround_world a torrentId true h dd nm pd w0) as (mid & E & _).
        rewrite E. cbn [log]. apply in_or_app. now left. }
      destruct (a_details_before a) as [t|m0];
        destruct (a_remove a) as [u|m1];
        try destruct (a_details_after a) as [t'|m2];
        try destruct (Js.truthy (hashString t));
        cbn [negb andb snd Js.truthy]; try apply Hw; unfold rpc; cbn [log];
        rewrite !in_app_iff; cbn; tauto. }
    destruct (removeTorrent a torrentId true (rpc (RpcGet torrentId) w)) as [r w'].
    cbn [fst snd] in R, Hreq. subst r. cbn [fst snd].
    split; [reflexivity|]. split; [exact Hreq|].
    destruct (Js.truthy hash) eqn:Hh; [|reflexivity].
    unfold deleteTorrentMetadata. destruct hash; [reflexivity | discriminate].
Qed.

End RouteFacts.

(** ** Polls over a ledger that knows the document *)

Section KnownDocuments.
Import Rss RssStore.
Variable RegExp : string -> string -> result (string -> bool).
Variable parseInt : string -> option Z.
Variable md5 : string -> string.

Abbreviation poll_items := (Rss.poll_items RegExp parseInt md5).
Abbreviation pollFeed := (Rss.pollFeed RegExp parseInt md5).

(** A poll of a document whose items are all in the ledger requests
    nothing and leaves ledger, counter and ownership records alone. *)
Lemma poll_with_known_items e feedId d metadata f items :
  getFeed feedId d = Some f ->
  fst (parseFeed (pe_net e) (url f)) = Ok items ->
  Forall (known md5 (seenItems d)) items ->
  no_request (o_trace (pollFeed e feedId d metadata))
  /\ seenItems (o_disk (pollFeed e feedId d metadata)) = seenItems d
  /\ matched_of feedId (o_disk (pollFeed e feedId d metadata)) = matched_of feedId d
  /\ o_ledger (pollFeed e feedId d metadata) = metadata.
Proof.
  intros Hget Hparse Hknown.
  destruct (pollFeed_cases RegExp parseInt md5 e feedId d metadata)
    as [(-> & -> & -> & _) | (ix & f0 & items0 & reqs & ex & st & err & Hix & Hf & Hp & Ht & Hloop & E)].
  { repeat split; auto. intros h u []. }
  rewrite getFeed_findIndex, Hix, Hf in Hget. injection Hget as ->.
  rewrite Hp in Hparse. cbn [fst] in Hparse. injection Hparse as ->.
  rewrite (poll_items_all_seen RegExp parseInt md5) in Hloop by exact Hknown.
  injection Hloop as <- <-. rewrite E.
  cbn [o_trace o_disk o_ledger skipped l_seen l_matched l_ledger l_trace seenItems app].
  split; [intros h u [C|[]]; discriminate|]. split; [reflexivity|].
  split; [|reflexivity].
  destruct (findIndex_Some _ _ _ Hix) as (g & Hg & Hid & _).
  assert (g = f) by congruence. subst g.
  unfold matched_of. cbn [feeds].
  rewrite findIndex_insert; [|exact Hix | exact Hid].
  rewrite list_lookup_insert_eq by (eapply lookup_lt_Some; eauto).
  now rewrite Hix, Hf.
Qed.

(** X21.  Changing the rules of a feed does not reopen its items: after
    a poll that completed, [updateFeed] with new rules (the URL kept)
    followed by a poll of the same document requests no download and
    leaves the seen-ledger as it is, whatever the new rules match. *)
Theorem rule_change_does_not_reopen_items
    (e1 e2 : poll_env) (feedId : Z) (d : data) (u : updates)
    (md1 md2 : TorrentMetadata.ledger) (rs : list poll_result) :
  o_result (pollFeed e1 feedId d md1) = Ok rs ->
  Js.truthy (up_url u) = false ->
  (forall a, fst (parseFeed (pe_net e2) a) = fst (parseFeed (pe_net e1) a)) ->
  is_ok (fst (updateFeed feedId u (o_disk (pollFeed e1 feedId d md1)))) = true
  /\ no_request
       (o_trace (pollFeed e2 feedId
                   (snd (updateFeed feedId u (o_disk (pollFeed e1 feedId d md1)))) md2))
  /\ seenItems
       (o_disk (pollFeed e2 feedId
                  (snd (updateFeed feedId u (o_disk (pollFeed e1 feedId d md1)))) md2))
     = seenItems (o_disk (pollFeed e1 feedId d md1)).
Proof.
  intros H1 Hurl Hsame.
  destruct (pollFeed_ok_inv RegExp parseInt md5 _ _ _ _ _ H1)
    as (ix & f & items & reqs1 & ex1 & st & Hix & Hf & Hp1 & Hloop & Hdisk).
  pose proof (poll_items_all_known RegExp parseInt md5 _ _ _ _ _ _ _ Hloop) as Hknown.
  rewrite Hdisk. clear H1 Hdisk.
  set (f1 := Feed (f_id f) (url f) (f_rules f) (f_added_at f)
                  (Some (pe_clock e1 (l_ticks st))) (l_matched st)).
  destruct (findIndex_Some _ _ _ Hix) as (g & Hg & Hid & _).
  assert (g = f) by congruence. subst g.
  assert (Hlt : ix < length (feeds d)) by (eapply lookup_lt_Some; eauto).
  assert (Hix1 : findIndex feedId (<[ix := f1]> (feeds d)) = Some ix)
    by (apply findIndex_insert; [exact Hix | exact Hid]).
  unfold updateFeed. cbn [feeds seenItems nextId].
  rewrite Hix1, list_lookup_insert_eq by exact Hlt.
  rewrite Hurl. cbn [fst snd is_ok url f1].
  set (f2 := Feed _ _ _ _ _ _).
  split; [reflexivity|].
  destruct (poll_with_known_items e2 feedId
              (Data (<[ix := f2]> (<[ix := f1]> (feeds d))) (l_seen st) (nextId d))
              md2 f2 items) as (Hno & Hseen & _).
  - rewrite getFeed_findIndex. cbn [feeds].
    rewrite (findIndex_insert feedId _ ix f2 Hix1 Hid).
    apply list_lookup_insert_eq. now rewrite length_insert.
  - rewrite Hsame. cbn [url f2]. now rewrite Hp1.
  - exact Hknown.
  - split; [exact Hno | exact Hseen].
Qed.

Lemma known_monotone (m m' : gmap string seen) (items : list item) :
  (forall h x, m !! h = Some x -> m' !! h = Some x) ->
  Forall (known md5 m) items -> Forall (known md5 m') items.
Proof.
  intros Hm H. eapply List.Forall_impl; [|exact H].
  intros it (h & Hh & [x Hx]).
  exists h. split; [exact Hh|]. rewrite (Hm _ _ Hx). eauto.
Qed.

Lemma find_url_stable (i : Z) (fs fs' : list feed) :
  map f_id fs = map f_id fs' -> map url fs = map url fs' ->
  forall g', List.find (fun f => (f_id f =? i)%Z) fs' = Some g' ->
  exists g, List.find (fun f => (f_id f =? i)%Z) fs = Some g /\ url g = url g'.
Proof.
  revert fs'. induction fs as [|f fs IH]; intros [|f' fs'] Hi Hu g' Hg;
    cbn in *; try discriminate.
  injection Hi as Hi0 Hi. injection Hu as Hu0 Hu. rewrite Hi0.
  destruct (f_id f' =? i)%Z.
  - injection Hg as <-. eauto.
  - eauto.
Qed.

Lemma getFeed_url_stable (i : Z) (d d' : data) (g' : feed) :
  map f_id (feeds d) = map f_id (feeds d') ->
  map url (feeds d) = map url (feeds d') ->
  getFeed i d' = Some g' ->
  exists g, getFeed i d = Some g /\ url g = url g'.
Proof. unfold getFeed. intros Hi Hu. now apply find_url_stable. Qed.

Lemma lookup_same_ids (fs fs' : list feed) j f' :
  map f_id fs = map f_id fs' -> fs' !! j = Some f' ->
  exists f, fs !! j = Some f /\ f_id f = f_id f'.
Proof.
  revert fs' j. induction fs as [|f fs IH]; intros [|g fs'] [|j] Hi H;
    cbn in *; try discriminate; injection Hi as Hi0 Hi.
  - injection H as <-. eauto.
  - eauto.
Qed.

(** After a batch in which every poll completed, the ledger knows the
    document of every feed. *)
Lemma first_batch_knows (envs : nat -> poll_env) (fs : list feed) :
  forall k d metadata,
    all_polled (b_results (poll_each RegExp parseInt md5 envs k fs d metadata)) ->
    forall j f, fs !! j = Some f ->
    forall g items,
      getFeed (f_id f) (b_disk (poll_each RegExp parseInt md5 envs k fs d metadata))
      = Some g ->
      fst (parseFeed (pe_net (envs (k + j))) (url g)) = Ok items ->
      Forall (known md5
                (seenItems (b_disk (poll_each RegExp parseInt md5 envs k fs d metadata))))
             items.
Proof.
  induction fs as [|f0 fs IH]; intros k d metadata Hall j f Hj g items Hg Hp;
    [destruct j; discriminate|].
  cbn [poll_each b_results b_disk] in *.
  apply List.Forall_cons_iff in Hall as [[x Hx] Hall]. cbn [snd] in Hx.
  set (out := pollFeed (envs k) (f_id f0) d metadata) in *.
  destruct (poll_each_frame RegExp parseInt md5 envs fs (S k) (o_disk out) (o_ledger out))
    as (_ & Hmono & Hids & Hurls & _).
  destruct j as [|j].
  - cbn in Hj. injection Hj as <-. rewrite Nat.add_0_r in Hp.
    assert (Hres : exists rs, o_result out = Ok rs).
    { destruct (o_result out); [eauto | discriminate]. }
    destruct Hres as [rs Hres].
    destruct (pollFeed_ok_inv RegExp parseInt md5 _ _ _ _ _ Hres)
      as (ix & f1 & items1 & reqs & ex & st & Hix & Hf1 & Hp1 & Hloop & Hdisk).
    pose proof (poll_items_all_known RegExp parseInt md5 _ _ _ _ _ _ _ Hloop) as Hknown.
    destruct (pollFeed_preserves RegExp parseInt md5 (envs k) (f_id f0) d metadata)
      as (_ & _ & Hids0 & Hurls0 & _).
    fold out in Hids0, Hurls0, Hdisk.
    destruct (getFeed_url_stable (f_id f0) d _ g
                (eq_sym (eq_trans Hids Hids0)) (eq_sym (eq_trans Hurls Hurls0)) Hg)
      as (g0 & Hg0 & Hu).
    rewrite getFeed_findIndex, Hix, Hf1 in Hg0. injection Hg0 as ->.
    rewrite <- Hu, Hp1 in Hp. cbn [fst] in Hp. injection Hp as <-.
    apply (known_monotone (seenItems (o_disk out))); [exact Hmono|].
    rewrite Hdisk. exact Hknown.
  - cbn in Hj. replace (k + S j) with (S k + j) in Hp by lia.
    eapply IH; eauto.
Qed.

(** A batch over a ledger that knows every document requests nothing. *)
Lemma second_batch_quiet (envs : nat -> poll_env) (fs : list feed) :
  forall k d metadata,
    (forall j f, fs !! j = Some f ->
     forall g items,
       getFeed (f_id f) d = Some g ->
       fst (parseFeed (pe_net (envs (k + j))) (url g)) = Ok items ->
       Forall (known md5 (seenItems d)) items) ->
    no_request (b_trace (poll_each RegExp parseInt md5 envs k fs d metadata))
    /\ seenItems (b_disk (poll_each RegExp parseInt md5 envs k fs d metadata))
       = seenItems d.
Proof.
  induction fs as [|f0 fs IH]; intros k d metadata Hyp; cbn [poll_each b_trace b_disk].
  - split; [intros h u [] | reflexivity].
  - set (out := pollFeed (envs k) (f_id f0) d metadata) in *.
    assert (Hout : no_request (o_trace out) /\ seenItems (o_disk out) = seenItems d).
    { destruct (pollFeed_cases RegExp parseInt md5 (envs k) (f_id f0) d metadata)
        as [(Ht & Hd & _) | (ix & f1 & items1 & reqs & ex & st & err & Hix & Hf1 & Hp1 & _)].
      - fold out in Ht, Hd. rewrite Ht, Hd. split; [intros h u [] | reflexivity].
      - assert (Hg : getFeed (f_id f0) d = Some f1)
          by (rewrite getFeed_findIndex, Hix; exact Hf1).
        assert (Hk : Forall (known md5 (seenItems d)) items1).
        { apply (Hyp 0 f0 eq_refl f1 items1 Hg). rewrite Nat.add_0_r, Hp1. reflexivity. }
        destruct (poll_with_known_items (envs k) (f_id f0) d metadata f1 items1 Hg)
          as (Hno & Hs & _); auto. now rewrite Hp1. }
    destruct Hout as [Hno Hs].
    destruct (pollFeed_preserves RegExp parseInt md5 (envs k) (f_id f0) d metadata)
      as (_ & _ & Hids0 & Hurls0 & _).
    fold out in Hids0, Hurls0.
    destruct (IH (S k) (o_disk out) (o_ledger out)) as [Hno' Hs'].
    { intros j f Hj g items Hg Hp. rewrite Hs.
      destruct (getFeed_url_stable (f_id f) d (o_disk out) g
                  (eq_sym Hids0) (eq_sym Hurls0) Hg) as (g0 & Hg0 & Hu).
      apply (Hyp (S j) f Hj g0 items Hg0).
      replace (k + S j) with (S k + j) by lia. now rewrite Hu. }
    split; [|congruence].
    intros h u Hin. apply in_app_or in Hin as [Hin|Hin];
      [exact (Hno h u Hin) | exact (Hno' h u Hin)].
Qed.

(** X22.  Polling all feeds twice in succession: when every poll of the
    first batch completed and the feeds serve the same documents again,
    the second batch requests no download at all and leaves the
    seen-ledger as the first batch saved it. *)
Theorem second_batch_requests_nothing
    (envs1 envs2 : nat -> poll_env) (d : data) (md1 md2 : TorrentMetadata.ledger) :
  all_polled (b_results (pollAllFeeds RegExp parseInt md5 envs1 d md1)) ->
  (forall k a, fst (parseFeed (pe_net (envs2 k)) a)
               = fst (parseFeed (pe_net (envs1 k)) a)) ->
  no_request
    (b_trace (pollAllFeeds RegExp parseInt md5 envs2
                (b_disk (pollAllFeeds RegExp parseInt md5 envs1 d md1)) md2))
  /\ seenItems
       (b_disk (pollAllFeeds RegExp parseInt md5 envs2
                  (b_disk (pollAllFeeds RegExp parseInt md5 envs1 d md1)) md2))
     = seenItems (b_disk (pollAllFeeds RegExp parseInt md5 envs1 d md1)).
Proof.
  intros Hall Hsame. unfold pollAllFeeds, getFeeds in *.
  set (D := b_disk (poll_each RegExp parseInt md5 envs1 0 (feeds d) d md1)) in *.
  destruct (poll_each_frame RegExp parseInt md5 envs1 (feeds d) 0 d md1)
    as (_ & _ & Hids & _).
  fold D in Hids.
  apply second_batch_quiet.
  intros j f2 Hj g items Hg Hp.
  destruct (lookup_same_ids (feeds d) (feeds D) j f2) as (f1 & Hf1 & Hid); auto.
  rewrite <- Hid in Hg. rewrite Hsame in Hp.
  exact (first_batch_knows envs1 (feeds d) 0 d md1 Hall j f1 Hf1 g items Hg Hp).
Qed.

End KnownDocuments.

(** ** The properties above on the scenarios *)

Section MoreWitnesses.
Import Rss RssStore Transmission TorrentMetadata DiskMonitor.

Lemma two_feeds_ok : store_ok two_feeds.
Proof.
  split; cbn.
  - repeat (constructor; [cbn; intuition discriminate|]). constructor.
  - repeat (constructor; [cbn; lia|]). constructor.
Qed.

Lemma addFeed_fresh_identifier_witness :
  f_id (fst (addFeed "http://c.example/rss" (RulesInput None None None None)
                     1700000000000 two_feeds)) = 3%Z
  /\ store_ok (snd (addFeed "http://c.example/rss" (RulesInput None None None None)
                            1700000000000 two_feeds)).
Proof.
  destruct (addFeed_fresh_identifier "http://c.example/rss"
              (RulesInput None None None None) 1700000000000 two_feeds two_feeds_ok)
    as (H1 & _ & _ & _ & _ & _ & _ & H8).
  split; [exact H1 | exact H8].
Defined.

Lemma deleteFeed_then_getFeed_witness :
  getFeed 1 (snd (deleteFeed 1 two_feeds)) = None.
Proof.
  destruct (deleteFeed_then_getFeed 1 two_feeds two_feeds_ok) as [_ H].
  destruct H as (_ & Hg & _); [eexists; reflexivity | exact Hg].
Defined.

Lemma updateFeed_frame_witness :
  exists f',
    updateFeed 2 new_url two_feeds = (Ok f', snd (updateFeed 2 new_url two_feeds))
    /\ url f' = "http://b.example/new"
    /\ matched_count f' = 3%Z
    /\ updateFeed 2 new_url (snd (updateFeed 2 new_url two_feeds))
       = (Ok f', snd (updateFeed 2 new_url two_feeds)).
Proof.
  destruct (proj2 (updateFeed_frame 2 new_url two_feeds) _ eq_refl)
    as (f' & H1 & _ & _ & _ & H5 & _ & _ & _ & _ & _ & H11 & _).
  exists f'. split; [exact H1|]. split; [|split; [exact H5 | exact H11]].
  rewrite H1 in H11. vm_compute in H1. injection H1 as <-. reflexivity.
Defined.

Lemma markItemSeen_then_wasItemSeen_witness :
  wasItemSeen "0cc175b9c0f1b6a831c399e269772661"
    (markItemSeen "92eb5ffee6ae2fec3ad71c777531578f" 2 1700000000001 two_feeds)
  = true.
Proof.
  destruct (markItemSeen_then_wasItemSeen "92eb5ffee6ae2fec3ad71c777531578f" 2
              1700000000001 two_feeds) as (_ & _ & H & _).
  destruct (H "0cc175b9c0f1b6a831c399e269772661") as [_ Hw]; [discriminate|].
  rewrite Hw. vm_compute. reflexivity.
Defined.

Lemma pollFeed_accounts_for_every_item_witness :
  counted (o_summary first_poll) = 2
  /\ length (requested (o_trace first_poll)) = 1.
Proof.
  destruct (pollFeed_accounts_for_every_item contains_ci parse_size md5_table
              example_env 1 one_feed ∅ [Added (Some "Show.S01E01.mkv") 12])
    as (f & items & _ & Hp & Hc & _ & Hr & _).
  - vm_compute. reflexivity.
  - vm_compute in Hp. injection Hp as <-. split; [exact Hc | exact Hr].
Defined.

Lemma pollFeed_frame_witness :
  nextId (o_disk first_poll) = 2%Z
  /\ map url (feeds (o_disk first_poll)) = ["http://tracker.example/rss"].
Proof.
  destruct (pollFeed_frame contains_ci parse_size md5_table example_env 1 one_feed ∅)
    as (_ & H2 & _ & H4 & _).
  split; [exact H2 | exact H4].
Defined.

Lemma pollFeed_requests_once_witness :
  List.NoDup (requested (o_trace first_poll)).
Proof.
  exact (proj1 (pollFeed_requests_once contains_ci parse_size md5_table
                  example_env 1 one_feed ∅)).
Defined.

Lemma pollFeed_requests_are_justified_witness :
  exists it,
    In it [episode_one; episode_four]
    /\ matchesRules contains_ci parse_size it episode_rule
       = Matches "http://tracker.example/t/1.torrent".
Proof.
  destruct (pollFeed_requests_are_justified contains_ci parse_size md5_table
              example_env 1 one_feed ∅ "73defb1279655c56c3d3f294ba9c12f2"
              "http://tracker.example/t/1.torrent")
    as (f & items & ex & it & Hf & Hp & _ & Hin & _ & Hm & _).
  - vm_compute. right. left. reflexivity.
  - vm_compute in Hf. injection Hf as <-. vm_compute in Hp. injection Hp as <-.
    exists it. split; [exact Hin | exact Hm].
Defined.

Lemma pollFeed_unhashable_item_aborts_witness :
  o_disk (pollFeed contains_ci parse_size md5_table broken_env 1 one_feed ∅) = one_feed
  /\ In (AddUrl "73defb1279655c56c3d3f294ba9c12f2" "http://tracker.example/t/1.torrent")
        (o_trace (pollFeed contains_ci parse_size md5_table broken_env 1 one_feed ∅)).
Proof.
  destruct (pollFeed_unhashable_item_aborts contains_ci parse_size md5_table
              broken_env 1 one_feed ∅
              (Feed 1 "http://tracker.example/rss" episode_rule 1690000000000 None 0)
              [episode_one; nameless] [] nameless)
    as (_ & Hd & _); try reflexivity.
  - right. left. reflexivity.
  - split; [exact Hd|]. vm_compute. right. left. reflexivity.
Defined.

Lemma pollAllFeeds_reports_every_feed_witness :
  map fst (b_results (pollAllFeeds contains_ci parse_size md5_table
                        (fun _ => example_env) two_feeds ∅))
  = [1%Z; 2%Z].
Proof.
  exact (proj1 (pollAllFeeds_reports_every_feed contains_ci parse_size md5_table
                  (fun _ => example_env) two_feeds ∅)).
Defined.

Lemma parseFeed_fetch_only_after_guard_witness :
  snd (parseFeed (resolving "ftp:" "files.example" "93.184.216.34")
                 "ftp://files.example/rss") = [].
Proof.
  destruct (parseFeed_fetch_only_after_guard
              (resolving "ftp:" "files.example" "93.184.216.34")
              "ftp://files.example/rss") as (_ & _ & H & _).
  destruct (H (ParsedUrl "ftp:" "files.example") eq_refl) as [Hs _];
    [discriminate | discriminate | exact Hs].
Defined.

Lemma removeTorrent_two_paths_witness :
  In (RmRf "/downloads/alpha")
     (log (snd (removeTorrent remove_is_noop 5 true fresh_world)))
  /\ client (snd (removeTorrent removal_works 5 false fresh_world)) = true.
Proof.
  split.
  - destruct (proj2 (removeTorrent_two_paths remove_is_noop 5 true fresh_world)
                eq_refl) as (t & mid & Ht & E & _ & Hon).
    injection Ht as <-.
    destruct (Hon eq_refl eq_refl eq_refl) as (tail & -> & _).
    rewrite E. cbn [log]. rewrite !in_app_iff. right. right. right. left.
    left. vm_compute. reflexivity.
  - rewrite (proj1 (removeTorrent_two_paths removal_works 5 false fresh_world)
               eq_refl). reflexivity.
Defined.

Lemma monitor_removes_only_eligible_witness :
  exists t,
    In t seven_torrents
    /\ completed t = true /\ not_blocked seven_ledger t = true
    /\ Removed 4 (Some "delta") 200 = Removed (id t) (name t) (totalSize t).
Proof.
  destruct (proj1 (monitor_removes_only_eligible seven_env (Num 10) fresh_world
                     seven_ledger) (Removed 4 (Some "delta") 200))
    as (ts & t & Hts & Ht & Hc & Hb & Hr).
  - vm_compute. right. left. reflexivity.
  - injection Hts as <-. exists t. repeat split; assumption.
Defined.

Lemma monitor_deletes_records_of_removed_witness :
  removals (log (p_world (snd (autoRemoveOldestTorrents seven_env (Num 10)
                                 fresh_world seven_ledger))))
  = [(2%Z, true); (4%Z, true); (3%Z, true)]
  /\ p_metadata (snd (autoRemoveOldestTorrents seven_env (Num 10) fresh_world
                        seven_ledger)) !! "h2" = None.
Proof.
  destruct (proj1 (monitor_deletes_records_of_removed seven_env (Num 10) fresh_world
                     seven_ledger) _ eq_refl) as (_ & Hv & Hgone & _).
  split.
  - rewrite Hv. vm_compute. reflexivity.
  - apply (Hgone (Candidate (Torrent 2 (Some "beta") (Some "h2") (Some "/downloads")
                                     (Some 1%Q) 100) 1700000100000)).
    vm_compute. left. reflexivity.
Defined.

Lemma eviction_without_stop_witness :
  In (1%Z, true)
     (removals (log (p_world (snd (autoRemoveOldestTorrents seven_env NaN fresh_world
                                     seven_ledger)))))
  /\ p_metadata (snd (autoRemoveOldestTorrents seven_env NaN fresh_world
                        seven_ledger)) !! "h1" = None.
Proof.
  destruct (eviction_without_stop seven_env NaN fresh_world seven_ledger
              seven_torrents (Session (Some "/downloads") None false)
              eq_refl eq_refl (or_introl eq_refl))
    as (cands & _ & _ & _ & H).
  destruct (H (Torrent 1 (Some "alpha") (Some "h1") (Some "/downloads") (Some 1%Q) 700))
    as (_ & Hv & Hm); [left; reflexivity | reflexivity | reflexivity |].
  split; [exact Hv | exact Hm].
Defined.

Lemma restart_only_on_request_witness :
  Restart.restarts
    (Restart.run [Restart.Call; Restart.Advance 2999; Restart.Fire]
                 (Restart.run [] Restart.init))
  = Restart.restarts (Restart.run [] Restart.init).
Proof.
  destruct (proj2 restart_only_on_request [] 2999%Z eq_refl) as [H _].
  - unfold Restart.DEBOUNCE_MS. lia.
  - exact H.
Defined.

Lemma call_during_restart_is_absorbed_witness :
  Restart.outstanding
    (Restart.run [Restart.Call; Restart.Done]
       (Restart.run [Restart.Call; Restart.Advance 3000; Restart.Fire] Restart.init))
  = 0.
Proof.
  destruct (call_during_restart_is_absorbed
              [Restart.Call; Restart.Advance 3000; Restart.Fire])
    as (_ & _ & H & _).
  - cbn. discriminate.
  - exact H.
Defined.

Lemma requireAdmin_implies_authenticated_witness :
  Auth.authenticateSession (Some (Auth.SessionData (Some 4%Z) true)) = Auth.Next.
Proof.
  destruct (requireAdmin_implies_authenticated
              (Some (Auth.SessionData (Some 4%Z) true))) as (_ & _ & H & _).
  apply H. reflexivity.
Defined.

Lemma delete_requires_owner_or_admin_witness :
  fst (fst (TorrentRoutes.delete_torrent 4 false 5 lookup_alpha remove_is_noop
              fresh_world seven_ledger))
  = TorrentRoutes.Forbidden "You can only delete your own torrents"
  /\ fst (fst (TorrentRoutes.delete_torrent 3 false 5 lookup_alpha remove_is_noop
                 fresh_world seven_ledger))
     = TorrentRoutes.Deleted.
Proof.
  split.
  - rewrite (proj1 (delete_requires_owner_or_admin 4 false 5 lookup_alpha
                      remove_is_noop fresh_world seven_ledger) eq_refl eq_refl).
    reflexivity.
  - destruct (proj2 (delete_requires_owner_or_admin 3 false 5 lookup_alpha
                       remove_is_noop fresh_world seven_ledger))
      as (H & _); [right; reflexivity | exact H].
Defined.

Lemma rule_change_does_not_reopen_items_witness :
  matchesRules contains_ci parse_size episode_four
    (Rules "s01" 100000000 2000000000 "")
  = Matches "http://tracker.example/t/4.torrent"
  /\ no_request
       (o_trace (pollFeed contains_ci parse_size md5_table example_env 1
                   (snd (updateFeed 1 widen_rule (o_disk first_poll))) ∅)).
Proof.
  split; [vm_compute; reflexivity|].
  destruct (rule_change_does_not_reopen_items contains_ci parse_size md5_table
              example_env example_env 1 one_feed widen_rule ∅ ∅
              [Added (Some "Show.S01E01.mkv") 12])
    as (_ & H & _).
  - vm_compute. reflexivity.
  - reflexivity.
  - intros a. reflexivity.
  - exact H.
Defined.

Lemma second_batch_requests_nothing_witness :
  no_request
    (b_trace (pollAllFeeds contains_ci parse_size md5_table (fun _ => example_env)
                (b_disk (pollAllFeeds contains_ci parse_size md5_table
                           (fun _ => example_env) two_feeds ∅)) ∅)).
Proof.
  destruct (second_batch_requests_nothing contains_ci parse_size md5_table
              (fun _ => example_env) (fun _ => example_env) two_feeds ∅ ∅)
    as (H & _).
  - unfold all_polled. vm_compute.
    repeat (apply List.Forall_cons; [eexists; reflexivity|]). apply List.Forall_nil.
  - intros k a. reflexivity.
  - exact H.
Defined.

End MoreWitnesses.
